(** * build_pretraining_dataset.py: packing text lines into pre-training examples

    A shallow embedding of [Tokenizer], [ExampleBuilder], [ExampleWriter],
    the per-process [write_examples] job and [split_corpus].

    Python values are modelled as follows: [int] as [Z], a list of token ids
    as [list Z], [str] as [string] (one [ascii] per code point, so the model
    covers text whose code points are below 256), [dict] as [gmap], the
    floats returned by [random.random()] and [time.time()] as the rationals
    they denote.
    Exceptions and mutation are modelled by a state-and-exception monad in
    which the state survives a raised exception, as in Python. *)

From Stdlib Require Import ZArith QArith List String Ascii Lia.
From stdpp Require Import base gmap strings list.
Open Scope Z_scope.

(** ** Python primitives *)
Module Py.

(** [len(xs)] *)
Definition len {A : Type} (xs : list A) : Z := Z.of_nat (length xs).

(** [xs[:n]]: a negative stop counts from the end of the list. *)
Definition slice_to {A : Type} (n : Z) (xs : list A) : list A :=
  if n <? 0 then take (Z.to_nat (len xs + n)) xs else take (Z.to_nat n) xs.

(** [[x] * n]: empty when [n <= 0]. *)
Definition times {A : Type} (x : A) (n : Z) : list A := replicate (Z.to_nat n) x.

(** [sum(xs)] *)
Definition sum (xs : list Z) : Z := foldr Z.add 0 xs.

(** [c.isspace()] for the code points below 256. *)
Definition isspace (c : ascii) : bool :=
  let n := Z.of_N (N_of_ascii c) in
  ((9 <=? n) && (n <=? 13)) || ((28 <=? n) && (n <=? 32)) || (n =? 133) || (n =? 160).

Fixpoint lstrip (s : string) : string :=
  match s with
  | EmptyString => EmptyString
  | String c s' => if isspace c then lstrip s' else s
  end.

Definition rstrip (s : string) : string := String.rev (lstrip (String.rev s)).

(** [s.strip()] *)
Definition strip (s : string) : string := rstrip (lstrip s).

(** [s.replace(old, new)] for one-character [old] and [new]. *)
Fixpoint replace (old new : ascii) (s : string) : string :=
  match s with
  | EmptyString => EmptyString
  | String c s' => String (if Ascii.eqb c old then new else c) (replace old new s')
  end.

(** [s.split()]: the maximal runs of non-whitespace characters. [cur] is
    the run being read, most recent character first. *)
Fixpoint split_go (cur : string) (s : string) : list string :=
  match s with
  | EmptyString =>
      match cur with EmptyString => [] | _ => [String.rev cur] end
  | String c s' =>
      if isspace c then
        match cur with
        | EmptyString => split_go EmptyString s'
        | _ => String.rev cur :: split_go EmptyString s'
        end
      else split_go (String c cur) s'
  end.

Definition split (s : string) : list string := split_go EmptyString s.

(** A line that [strip] empties. *)
Fixpoint whitespace_only (s : string) : bool :=
  match s with
  | EmptyString => true
  | String c s' => isspace c && whitespace_only s'
  end.

(** The double nearest to a decimal literal, as the rational it denotes. *)
Definition float_0_1 : Q := 3602879701896397 # 36028797018963968.   (* 0.1  *)
Definition float_0_05 : Q := 3602879701896397 # 72057594037927936.  (* 0.05 *)
Definition float_0_5 : Q := 1 # 2.                                   (* 0.5  *)

(** [x < y] on floats is exact. *)
Definition Qltb (x y : Q) : bool := negb (Qle_bool y x).

End Py.
Export Py.

(** ** Exceptions and the state-and-exception monad *)

Inductive exn : Type :=
| ValueError | AssertionError | KeyError | ZeroDivisionError | IOError.

Inductive outcome (A : Type) : Type :=
| Ret (a : A)
| Raise (e : exn).
Arguments Ret {A} a.
Arguments Raise {A} e.

(** A computation over a mutable state [S]; the state it returns is the one
    in force when it returned or raised. *)
Definition M (S A : Type) : Type := S -> outcome A * S.

Definition ret {S A : Type} (a : A) : M S A := fun s => (Ret a, s).
Definition raise {S A : Type} (e : exn) : M S A := fun s => (Raise e, s).
Definition bind {S A B : Type} (c : M S A) (k : A -> M S B) : M S B :=
  fun s => match c s with
           | (Ret a, s') => k a s'
           | (Raise e, s') => (Raise e, s')
           end.
Definition get {S : Type} : M S S := fun s => (Ret s, s).
Definition put {S : Type} (s : S) : M S unit := fun _ => (Ret tt, s).
Definition modify {S : Type} (f : S -> S) : M S unit := fun s => (Ret tt, f s).

#[global] Instance M_bind {S : Type} : MBind (M S) := fun A B k c => bind c k.
#[global] Instance M_ret {S : Type} : MRet (M S) := fun A a => ret a.

(** ** The [random] module

    The program draws from the process-global generator of Python's [random]
    module. The generator is a parameter of the model: a state [G] with the
    three operations the program calls. *)
Class RandomSource (G : Type) : Type := {
  (** [random.random()] *)
  random : G -> Q * G;
  (** [random.randint(a, b)]; [None] is the [ValueError] of an empty range. *)
  randint : Z -> Z -> G -> option (Z * G);
  (** [random.shuffle(xs)] *)
  shuffle : forall {A : Type}, list A -> G -> list A * G;
  (** A draw is a 53-bit fraction [k / 2^53]. *)
  random_dyadic : forall g,
    exists k, 0 <= k < 2 ^ 53 /\ fst (random g) = (k # 9007199254740992)%Q;
  randint_range : forall a b g n g',
    randint a b g = Some (n, g') -> a <= n <= b;
  randint_some : forall a b g, a <= b -> is_Some (randint a b g);
  randint_none : forall a b g, b < a -> randint a b g = None;
  shuffle_perm : forall (A : Type) (xs : list A) g, fst (shuffle xs g) ≡ₚ xs
}.

(** A generator that replays a tape of machine words; an exhausted tape
    yields zeros. *)
Module Tape.

Definition t : Type := list Z.

Definition next (g : t) : Z * t :=
  match g with
  | [] => (0, [])
  | w :: g' => (w, g')
  end.

Definition random (g : t) : Q * t :=
  let (w, g') := next g in ((w mod 2 ^ 53) # 9007199254740992, g').

Definition randint (a b : Z) (g : t) : option (Z * t) :=
  if b <? a then None
  else let (w, g') := next g in Some (a + w mod (b - a + 1), g').

Definition shuffle {A : Type} (xs : list A) (g : t) : list A * t :=
  let (w, g') := next g in (if Z.odd w then reverse xs else xs, g').

End Tape.

#[global] Instance tape_random_source : RandomSource Tape.t.
Proof.
  refine {| random := Tape.random; randint := Tape.randint;
            shuffle := @Tape.shuffle |}.
  - intros g. unfold Tape.random. destruct (Tape.next g) as [w g'].
    exists (w mod 2 ^ 53). split; [apply Z.mod_pos_bound; lia | reflexivity].
  - intros a b g n g'. unfold Tape.randint.
    destruct (Z.ltb_spec b a) as [?|Hab]; [discriminate|].
    destruct (Tape.next g) as [w g0]. intros [= <- _].
    pose proof (Z.mod_pos_bound w (b - a + 1)). lia.
  - intros a b g Hab. unfold Tape.randint.
    destruct (Z.ltb_spec b a); [lia|].
    destruct (Tape.next g). eexists; reflexivity.
  - intros a b g Hab. unfold Tape.randint.
    destruct (Z.ltb_spec b a); [reflexivity | lia].
  - intros A xs g. unfold Tape.shuffle. destruct (Tape.next g) as [w g'].
    simpl. destruct (Z.odd w); [apply reverse_Permutation | reflexivity].
Defined.

(** ** Tokenizer *)

Record Tokenizer : Type := {
  vocab : gmap string Z;
  unk_id : Z
}.

(** The loop of [Tokenizer.__init__] over the lines of the vocabulary file:
    the unpacking [piece, _ = line.strip().split()] raises [ValueError]
    unless the line has exactly two fields, the [assert] raises on a piece
    the dictionary already holds. *)
Fixpoint load_vocab (lines : list string) (vocab : gmap string Z) (i : Z)
  : outcome (gmap string Z) :=
  match lines with
  | [] => Ret vocab
  | line :: rest =>
      let line := strip line in
      match split (strip line) with
      | [piece; _] =>
          match vocab !! piece with
          | Some _ => Raise AssertionError
          | None => load_vocab rest (<[piece := i]> vocab) (i + 1)
          end
      | _ => Raise ValueError
      end
  end.

(** The five special entries that [Tokenizer.__init__] sets first. *)
Definition special_vocab : gmap string Z :=
  <["[MASK]" := 4]> (<["[SEP]" := 3]> (<["[CLS]" := 2]>
    (<["[UNK]" := 1]> (<["[PAD]" := 0]> ∅)))).

(** [Tokenizer(vocab_file)], on the lines of the file. *)
Definition Tokenizer_init (vocab_file : list string) : outcome Tokenizer :=
  match load_vocab vocab_file special_vocab 5 with
  | Ret vocab => Ret {| vocab := vocab; unk_id := 1 |}
  | Raise e => Raise e
  end.

(** The fields of a vocabulary line, as [Tokenizer.__init__] splits it. *)
Definition fields (line : string) : list string := split (strip (strip line)).

(** The token of each line: its first field. *)
Definition pieces (lines : list string) : list string :=
  map (fun line => hd EmptyString (fields line)) lines.

(** The five marker strings. *)
Definition reserved : list string := ["[PAD]"; "[UNK]"; "[CLS]"; "[SEP]"; "[MASK]"].

Definition tokenize (line : string) : list string := split (strip line).

Definition convert_tokens_to_ids (self : Tokenizer) (tokens : list string) : list Z :=
  map (fun tok => default (unk_id self) (vocab self !! tok)) tokens.

(** ** ExampleBuilder *)

Record ExampleBuilder : Type := {
  _tokenizer : Tokenizer;
  _current_sentences : list (list Z);
  _current_length : Z;
  _max_length : Z;
  _target_length : Z
}.

(** The features of a [tf.train.Example]. *)
Record tf_example : Type := {
  input_ids : list Z;
  input_mask : list Z;
  segment_ids : list Z
}.

Definition ExampleBuilder_init (tokenizer : Tokenizer) (max_length : Z) : ExampleBuilder :=
  {| _tokenizer := tokenizer;
     _current_sentences := [];
     _current_length := 0;
     _max_length := max_length;
     _target_length := max_length |}.

Definition set_current_sentences (v : list (list Z)) (b : ExampleBuilder) : ExampleBuilder :=
  {| _tokenizer := _tokenizer b; _current_sentences := v;
     _current_length := _current_length b; _max_length := _max_length b;
     _target_length := _target_length b |}.

Definition set_current_length (v : Z) (b : ExampleBuilder) : ExampleBuilder :=
  {| _tokenizer := _tokenizer b; _current_sentences := _current_sentences b;
     _current_length := v; _max_length := _max_length b;
     _target_length := _target_length b |}.

Definition set_target_length (v : Z) (b : ExampleBuilder) : ExampleBuilder :=
  {| _tokenizer := _tokenizer b; _current_sentences := _current_sentences b;
     _current_length := _current_length b; _max_length := _max_length b;
     _target_length := v |}.

(** Lines 131-132 of [_create_example]. *)
Definition reset (b : ExampleBuilder) : ExampleBuilder :=
  set_current_length 0 (set_current_sentences [] b).

(** The methods of a builder run on the builder and the global generator. *)
Definition BState (G : Type) : Type := (ExampleBuilder * G)%type.

Definition self {G : Type} : M (BState G) ExampleBuilder :=
  fun st => (Ret (fst st), st).

Definition update {G : Type} (f : ExampleBuilder -> ExampleBuilder) : M (BState G) unit :=
  fun st => (Ret tt, (f (fst st), snd st)).

Definition py_random {G : Type} `{RandomSource G} : M (BState G) Q :=
  fun st => let (u, g') := random (snd st) in (Ret u, (fst st, g')).

Definition py_randint {G : Type} `{RandomSource G} (a b : Z) : M (BState G) Z :=
  fun st => match randint a b (snd st) with
            | Some (n, g') => (Ret n, (fst st, g'))
            | None => (Raise ValueError, st)
            end.

(** [d[key]] *)
Definition getitem {S : Type} (d : gmap string Z) (key : string) : M S Z :=
  match d !! key with
  | Some v => ret v
  | None => raise KeyError
  end.

Definition nonempty {A : Type} (xs : list A) : bool :=
  match xs with [] => false | _ => true end.

Definition nonempty_str (s : string) : bool :=
  match s with EmptyString => false | _ => true end.

(** [_make_tf_example] *)
Definition _make_tf_example {G : Type} (first_segment second_segment : list Z)
  : M (BState G) tf_example :=
  b ← self;
  let vocab := vocab (_tokenizer b) in
  CLS ← getitem vocab "[CLS]";
  SEP ← getitem vocab "[SEP]";
  PAD ← getitem vocab "[PAD]";
  let input_ids := [CLS] ++ first_segment ++ [SEP] in
  let segment_ids := times 0 (len input_ids) in
  let '(input_ids, segment_ids) :=
    if nonempty second_segment
    then (input_ids ++ second_segment ++ [SEP],
          segment_ids ++ times 1 (len second_segment + 1))
    else (input_ids, segment_ids) in
  let input_mask := times 1 (len input_ids) in
  let input_ids := input_ids ++ times PAD (_max_length b - len input_ids) in
  let input_mask := input_mask ++ times 0 (_max_length b - len input_mask) in
  let segment_ids := segment_ids ++ times 0 (_max_length b - len segment_ids) in
  ret {| input_ids := input_ids; input_mask := input_mask; segment_ids := segment_ids |}.

(** Lines 104-108 of [_create_example]: the target length of the first
    segment. *)
Definition first_segment_target {G : Type} `{RandomSource G} : M (BState G) Z :=
  u ← py_random;
  b ← self;
  if Qltb u float_0_1 then ret 100000
  else ret ((_target_length b - 3) / 2).

(** The test of lines 116-120, with Python's short-circuit evaluation: the
    coin is drawn only when the first two disjuncts are false and the first
    two conjuncts are true. *)
Definition goes_first {G : Type} `{RandomSource G}
    (first_segment_target_length : Z) (first_segment second_segment sentence : list Z)
  : M (BState G) bool :=
  if len first_segment =? 0 then ret true
  else if len first_segment + len sentence <? first_segment_target_length then ret true
  else if (len second_segment =? 0) && (len first_segment <? first_segment_target_length)
       then (u ← py_random; ret (Qltb u float_0_5))
       else ret false.

(** Lines 112-123: the loop over the pending sentences. *)
Fixpoint distribute {G : Type} `{RandomSource G}
    (first_segment_target_length : Z) (sentences : list (list Z))
    (first_segment second_segment : list Z)
  : M (BState G) (list Z * list Z) :=
  match sentences with
  | [] => ret (first_segment, second_segment)
  | sentence :: rest =>
      to_first ← goes_first first_segment_target_length first_segment second_segment sentence;
      if (to_first : bool)
      then distribute first_segment_target_length rest
             (first_segment ++ sentence) second_segment
      else distribute first_segment_target_length rest
             first_segment (second_segment ++ sentence)
  end.

(** Lines 126-128: the two slices. *)
Definition truncate (max_length : Z) (first_segment second_segment : list Z)
  : list Z * list Z :=
  let first_segment := slice_to (max_length - 2) first_segment in
  let second_segment :=
    slice_to (Z.max 0 (max_length - len first_segment - 3)) second_segment in
  (first_segment, second_segment).

(** Lines 134-137: the target length of the next example. *)
Definition redraw_target_length {G : Type} `{RandomSource G} : M (BState G) unit :=
  u ← py_random;
  b ← self;
  if Qltb u float_0_05
  then (n ← py_randint 5 (_max_length b); update (set_target_length n))
  else update (set_target_length (_max_length b)).

(** Lines 125-139 of [_create_example]: what follows the loop. *)
Definition pack_segments {G : Type} `{RandomSource G} (first_segment second_segment : list Z)
  : M (BState G) tf_example :=
  b ← self;
  let '(first_segment, second_segment) :=
    truncate (_max_length b) first_segment second_segment in
  update (set_current_sentences []);;
  update (set_current_length 0);;
  redraw_target_length;;
  _make_tf_example first_segment second_segment.

(** [_create_example] *)
Definition _create_example {G : Type} `{RandomSource G} : M (BState G) tf_example :=
  first_segment_target_length ← first_segment_target;
  b ← self;
  segments ← distribute first_segment_target_length (_current_sentences b) [] [];
  pack_segments (fst segments) (snd segments).

(** [add_line]; [None] is Python's [None]. *)
Definition add_line {G : Type} `{RandomSource G} (line : string)
  : M (BState G) (option tf_example) :=
  let line := replace "010" " " (strip line) in
  b ← self;
  if negb (nonempty_str line) && negb (_current_length b =? 0)
  then (example ← _create_example; ret (Some example))
  else
    let bert_tokens := tokenize line in
    let bert_tokids := convert_tokens_to_ids (_tokenizer b) bert_tokens in
    update (fun b => set_current_sentences (_current_sentences b ++ [bert_tokids]) b);;
    update (fun b => set_current_length (_current_length b + len bert_tokids) b);;
    b ← self;
    if _target_length b <=? _current_length b
    then (example ← _create_example; ret (Some example))
    else ret None.

(** ** ExampleWriter *)

(** A [tf.io.TFRecordWriter]: the shard it writes, the records written so
    far, and whether [close()] was called. *)
Record TFRecordWriter : Type := {
  shard : Z;
  records : list tf_example;
  closed : bool
}.

Record ExampleWriter : Type := {
  _blanks_separate_docs : bool;
  _example_builder : ExampleBuilder;
  _writers : list TFRecordWriter;
  n_written : Z
}.

(** The state of one worker process: its writer object, the global
    generator, the file system's answers to the coming writes ([true]: the
    write raises; an exhausted list: every write succeeds), and the system
    clock: [clock k] is what call number [k] of [time.time()] returns in
    this process, [ticks] counts the calls made so far. *)
Record Process (G : Type) : Type := {
  example_writer : ExampleWriter;
  rng : G;
  io : list bool;
  clock : nat -> Q;
  ticks : nat
}.
Arguments example_writer {G} _.
Arguments rng {G} _.
Arguments io {G} _.
Arguments clock {G} _ _.
Arguments ticks {G} _.

Definition set_example_builder (b : ExampleBuilder) (w : ExampleWriter) : ExampleWriter :=
  {| _blanks_separate_docs := _blanks_separate_docs w; _example_builder := b;
     _writers := _writers w; n_written := n_written w |}.

Definition set_writers (ws : list TFRecordWriter) (w : ExampleWriter) : ExampleWriter :=
  {| _blanks_separate_docs := _blanks_separate_docs w;
     _example_builder := _example_builder w;
     _writers := ws; n_written := n_written w |}.

Definition set_n_written (n : Z) (w : ExampleWriter) : ExampleWriter :=
  {| _blanks_separate_docs := _blanks_separate_docs w;
     _example_builder := _example_builder w;
     _writers := _writers w; n_written := n |}.

Definition update_writer {G : Type} (f : ExampleWriter -> ExampleWriter) : M (Process G) unit :=
  modify (fun p => {| example_writer := f (example_writer p); rng := rng p; io := io p;
                      clock := clock p; ticks := ticks p |}).

(** A method of [self._example_builder] called from the writer. *)
Definition on_builder {G A : Type} (c : M (BState G) A) : M (Process G) A :=
  fun p =>
    let (r, st) := c (_example_builder (example_writer p), rng p) in
    (r, {| example_writer := set_example_builder (fst st) (example_writer p);
           rng := snd st; io := io p; clock := clock p; ticks := ticks p |}).

Definition lift {S A : Type} (o : outcome A) : M S A := fun s => (o, s).

(** [a % b] *)
Definition py_mod (a b : Z) : outcome Z :=
  if b =? 0 then Raise ZeroDivisionError else Ret (a mod b).

(** The loop of [ExampleWriter.__init__] over [range(num_out_files)]. *)
Fixpoint open_writers (indices : list Z) (num_jobs job_id : Z)
  : outcome (list TFRecordWriter) :=
  match indices with
  | [] => Ret []
  | i :: rest =>
      match py_mod i num_jobs with
      | Raise e => Raise e
      | Ret m =>
          match open_writers rest num_jobs job_id with
          | Raise e => Raise e
          | Ret ws =>
              Ret (if m =? job_id
                   then {| shard := i; records := []; closed := false |} :: ws
                   else ws)
          end
      end
  end.

(** [ExampleWriter(job_id, vocab_file, ...)]; the copy of the vocabulary
    that job 0 saves is not modelled. *)
Definition ExampleWriter_init (job_id : Z) (vocab_file : list string)
    (max_seq_length num_jobs : Z) (blanks_separate_docs : bool) (num_out_files : Z)
  : outcome ExampleWriter :=
  match Tokenizer_init vocab_file with
  | Raise e => Raise e
  | Ret tokenizer =>
      match open_writers (seqZ 0 num_out_files) num_jobs job_id with
      | Raise e => Raise e
      | Ret writers =>
          Ret {| _blanks_separate_docs := blanks_separate_docs;
                 _example_builder := ExampleBuilder_init tokenizer max_seq_length;
                 _writers := writers;
                 n_written := 0 |}
      end
  end.

Definition next_io {G : Type} : M (Process G) bool :=
  fun p => match io p with
           | [] => (Ret false, p)
           | fault :: rest =>
               (Ret fault, {| example_writer := example_writer p; rng := rng p; io := rest;
                              clock := clock p; ticks := ticks p |})
           end.

Definition tf_write (example : tf_example) (w : TFRecordWriter) : TFRecordWriter :=
  {| shard := shard w; records := records w ++ [example]; closed := closed w |}.

Definition tf_close (w : TFRecordWriter) : TFRecordWriter :=
  {| shard := shard w; records := records w; closed := true |}.

(** [self._writers[self.n_written % len(self._writers)].write(...)] followed
    by [self.n_written += 1]. *)
Definition write_record {G : Type} (example : tf_example) : M (Process G) unit :=
  p ← get;
  let w := example_writer p in
  i ← lift (py_mod (n_written w) (len (_writers w)));
  fault ← next_io;
  if (fault : bool) then raise IOError
  else
    update_writer (fun w => set_writers (alter (tf_write example) (Z.to_nat i) (_writers w)) w);;
    update_writer (fun w => set_n_written (n_written w + 1) w).

(** [if example: ...]: a protocol-buffer message is always true. *)
Definition write_if_example {G : Type} (example : option tf_example) : M (Process G) unit :=
  match example with
  | Some ex => write_record ex
  | None => ret tt
  end.

(** The [for line in f] loop of [ExampleWriter.write_examples]. *)
Fixpoint write_lines {G : Type} `{RandomSource G} (lines : list string) : M (Process G) unit :=
  match lines with
  | [] => ret tt
  | line :: rest =>
      let line := strip line in
      p ← get;
      (if nonempty_str line || _blanks_separate_docs (example_writer p)
       then (example ← on_builder (add_line line); write_if_example example)
       else ret tt);;
      write_lines rest
  end.

(** [ExampleWriter.write_examples], on the lines of the input file. *)
Definition ExampleWriter_write_examples {G : Type} `{RandomSource G}
    (input_file : list string) : M (Process G) unit :=
  write_lines input_file;;
  example ← on_builder (add_line "");
  write_if_example example.

(** [ExampleWriter.finish] *)
Definition finish {G : Type} : M (Process G) unit :=
  update_writer (fun w => set_writers (map tf_close (_writers w)) w).

(** ** The worker job *)

(** The command-line arguments a worker reads, with the files they name: the
    lines of the vocabulary file, and the files of the corpus directory in
    sorted name order, each as its lines. *)
Record Args : Type := {
  vocab_file : list string;
  corpus_dir : list (list string);
  max_seq_length : Z;
  num_processes : Z;
  blanks_separate_docs : bool;
  num_out_files : Z
}.

(** [[f for i, f in enumerate(fnames) if i % num_processes == job_id]] *)
Fixpoint own_files {A : Type} (i : Z) (fnames : list A) (num_processes job_id : Z)
  : outcome (list A) :=
  match fnames with
  | [] => Ret []
  | f :: rest =>
      match py_mod i num_processes with
      | Raise e => Raise e
      | Ret m =>
          match own_files (i + 1) rest num_processes job_id with
          | Raise e => Raise e
          | Ret fs => Ret (if m =? job_id then f :: fs else fs)
          end
      end
  end.

Definition py_shuffle {G A : Type} `{RandomSource G} (xs : list A) : M (Process G) (list A) :=
  fun p => let (ys, g') := shuffle xs (rng p) in
           (Ret ys, {| example_writer := example_writer p; rng := g'; io := io p;
                       clock := clock p; ticks := ticks p |}).

(** One more reading of the clock was taken. *)
Definition tick {G : Type} (p : Process G) : Process G :=
  {| example_writer := example_writer p; rng := rng p; io := io p;
     clock := clock p; ticks := S (ticks p) |}.

(** [time.time()] *)
Definition py_time {G : Type} : M (Process G) Q :=
  fun p => (Ret (clock p (ticks p)), tick p).

(** [a / b] on floats, which are read as the rationals they stand for: the
    division raises on a zero divisor. The readings of the clock are seconds
    since the epoch, far inside the range of a float, where a difference of
    two floats is zero only when they are equal and a quotient of non-zero
    floats is not zero. *)
Definition py_truediv (a b : Q) : outcome Q :=
  if Qeq_bool b 0 then Raise ZeroDivisionError else Ret (a / b)%Q.

(** Lines 235-240: the progress line that precedes every file but the
    first. The text it prints is not modelled; the divisions that compute
    the percentage, the rate [file_no / elapsed] and the remaining time
    are, in the order of the arguments of [format]. *)
Definition log_progress {G : Type} (start_time : Q) (file_no total : Z)
  : M (Process G) unit :=
  now ← py_time;
  let elapsed := (now - start_time)%Q in
  percent ← lift (py_truediv (100 * inject_Z file_no) (inject_Z total));
  rate ← lift (py_truediv (inject_Z file_no) elapsed);
  eta ← lift (py_truediv (inject_Z (total - file_no)) rate);
  ret tt.

(** The [for file_no, fname in enumerate(fnames)] loop; [total] is
    [len(fnames)]. *)
Fixpoint write_files {G : Type} `{RandomSource G} (start_time : Q) (total file_no : Z)
    (fnames : list (list string)) : M (Process G) unit :=
  match fnames with
  | [] => ret tt
  | fname :: rest =>
      (if 0 <? file_no then log_progress start_time file_no total else ret tt);;
      ExampleWriter_write_examples fname;;
      write_files start_time total (file_no + 1) rest
  end.

(** The body of [write_examples(job_id, args)] once the writer exists. *)
Definition run_job {G : Type} `{RandomSource G} (job_id : Z) (args : Args)
  : M (Process G) unit :=
  fnames ← lift (own_files 0 (corpus_dir args) (num_processes args) job_id);
  fnames ← py_shuffle fnames;
  start_time ← py_time;
  write_files start_time (len fnames) 0 fnames;;
  finish.

(** [write_examples(job_id, args)], with the generator, the answers of the
    file system and the clock that the process meets: no process state
    exists when the construction of the writer raises. *)
Definition write_examples {G : Type} `{RandomSource G}
    (job_id : Z) (args : Args) (g : G) (faults : list bool) (time : nat -> Q)
  : outcome unit * option (Process G) :=
  match ExampleWriter_init job_id (vocab_file args) (max_seq_length args)
          (num_processes args) (blanks_separate_docs args) (num_out_files args) with
  | Raise e => (Raise e, None)
  | Ret w =>
      let (r, p) :=
        run_job job_id args
          {| example_writer := w; rng := g; io := faults; clock := time; ticks := 0 |} in
      (r, Some p)
  end.

(** ** The packing policy in the words of the specification

    The three random decisions of a cycle, as events on a draw [u] of
    [random.random()]. *)
Definition single_segment (u : Q) : Prop := (u < 1 # 10)%Q.
Definition coin_favors_first (u : Q) : Prop := (u < 1 # 2)%Q.
Definition short_example (u : Q) : Prop := (u < 1 # 20)%Q.

(** Where one sentence goes: into the first segment ([true]) when the first
    segment is empty or adding the sentence keeps it under its target; by
    the coin when neither holds, the second segment is still empty and the
    first has not reached its target; into the second segment otherwise.
    Only the tie-break draws. *)
Inductive spec_place {G : Type} `{RandomSource G}
    (target : Z) (first second sentence : list Z) (g : G) : bool -> G -> Prop :=
| place_first :
    first = [] \/ len first + len sentence < target ->
    spec_place target first second sentence g true g
| place_coin_first (u : Q) (g' : G) :
    first <> [] -> ~ len first + len sentence < target ->
    second = [] -> len first < target ->
    random g = (u, g') -> coin_favors_first u ->
    spec_place target first second sentence g true g'
| place_coin_second (u : Q) (g' : G) :
    first <> [] -> ~ len first + len sentence < target ->
    second = [] -> len first < target ->
    random g = (u, g') -> ~ coin_favors_first u ->
    spec_place target first second sentence g false g'
| place_second :
    first <> [] -> ~ len first + len sentence < target ->
    ~ (second = [] /\ len first < target) ->
    spec_place target first second sentence g false g.

(** The sentences are placed one by one, in their order. *)
Inductive spec_distribute {G : Type} `{RandomSource G} (target : Z)
  : list (list Z) -> list Z -> list Z -> G -> list Z -> list Z -> G -> Prop :=
| distribute_done (first second : list Z) (g : G) :
    spec_distribute target [] first second g first second g
| distribute_first (sentence : list Z) rest first second g g' first' second' g'' :
    spec_place target first second sentence g true g' ->
    spec_distribute target rest (first ++ sentence) second g' first' second' g'' ->
    spec_distribute target (sentence :: rest) first second g first' second' g''
| distribute_second (sentence : list Z) rest first second g g' first' second' g'' :
    spec_place target first second sentence g false g' ->
    spec_distribute target rest first (second ++ sentence) g' first' second' g'' ->
    spec_distribute target (sentence :: rest) first second g first' second' g''.

(** The first-segment target: effectively unbounded in single-segment mode. *)
Definition spec_first_target (u : Q) (target_length : Z) : Z :=
  if Qlt_le_dec u (1 # 10) then 100000 else (target_length - 3) / 2.

(** ** Example assembly in the words of the specification

    [[CLS] + first + [SEP]], then [second + [SEP]] when the second segment
    is not empty. *)
Definition unpadded_ids (cls sep : Z) (first second : list Z) : list Z :=
  [cls] ++ first ++ [sep] ++ (if nonempty second then second ++ [sep] else []).

(** The three sequences, right-padded to [max_length]. *)
Definition assembled (cls sep pad max_length : Z) (first second : list Z) : tf_example :=
  let ids := unpadded_ids cls sep first second in
  {| input_ids := ids ++ times pad (max_length - len ids);
     input_mask := times 1 (len ids) ++ times 0 (max_length - len ids);
     segment_ids :=
       (times 0 (len first + 2) ++
        (if nonempty second then times 1 (len second + 1) else [])) ++
       times 0 (max_length - len ids) |}.

(** ** States of the builder *)

(** The vocabulary holds the three markers that [_make_tf_example] reads. *)
Definition has_markers (t : Tokenizer) : Prop :=
  is_Some (vocab t !! "[CLS]") /\ is_Some (vocab t !! "[SEP]") /\
  is_Some (vocab t !! "[PAD]").

(** [pending_length] is the sum of the lengths of the pending sentences. *)
Definition pending_invariant (b : ExampleBuilder) : Prop :=
  _current_length b = sum (map len (_current_sentences b)).

(** The states a builder goes through: constructed, then fed lines. *)
Inductive reachable {G : Type} `{RandomSource G} (tokenizer : Tokenizer) (max_length : Z)
  : BState G -> Prop :=
| reachable_init (g : G) :
    reachable tokenizer max_length (ExampleBuilder_init tokenizer max_length, g)
| reachable_add_line (st : BState G) (line : string) r (st' : BState G) :
    reachable tokenizer max_length st ->
    add_line line st = (r, st') ->
    reachable tokenizer max_length st'.

(** The ids of the pending tokens once [add_line] has taken [line]: those
    of the pending sentences, then those of the tokens of the line. *)
Definition pending_ids (line : string) (b : ExampleBuilder) : list Z :=
  concat (_current_sentences b) ++ convert_tokens_to_ids (_tokenizer b) (tokenize line).

(** ** States of the shard handles *)

Definition handles_released {G : Type} (p : Process G) : Prop :=
  Forall (fun w => closed w = true) (_writers (example_writer p)).

Definition handles_open {G : Type} (p : Process G) : Prop :=
  Forall (fun w => closed w = false) (_writers (example_writer p)).

(** A computation that closes no handle, however it ends. *)
Definition keeps_open {G A : Type} (c : M (Process G) A) : Prop :=
  forall p r p', c p = (r, p') -> handles_open p -> handles_open p'.

(** ** Concrete inputs *)
Module Demo.

(** The tokenizer of the vocabulary file with the lines "the 10", "cat 5",
    "sat 3". *)
Definition tokenizer : Tokenizer :=
  {| vocab := <["sat" := 7]> (<["cat" := 6]> (<["the" := 5]> special_vocab));
     unk_id := 1 |}.

(** A draw of 1/2: two segments, the coin favours the second, the next
    example has full length. *)
Definition half : Z := 2 ^ 52.

Definition builder (max_length : Z) : ExampleBuilder :=
  ExampleBuilder_init tokenizer max_length.

(** A builder holding the pending sentences [sentences]. *)
Definition pending (max_length : Z) (sentences : list (list Z)) : ExampleBuilder :=
  set_current_length (sum (map len sentences))
    (set_current_sentences sentences (builder max_length)).

(** A clock that advances by one second from one reading to the next. *)
Definition seconds (k : nat) : Q := inject_Z (Z.of_nat k).

(** A clock too coarse to tell its readings apart. *)
Definition stalled (k : nat) : Q := 0.

End Demo.

(** ** split_corpus *)
Module Corpus.

(** What [split_corpus] can raise. *)
Inductive error : Type :=
| ZeroDivisionError
| IndexError.

Inductive result (A : Type) : Type :=
| Ok (a : A)
| Error (e : error).
Arguments Ok {A} a.
Arguments Error {A} e.

(** The line that ends a document: a newline and nothing else. *)
Definition newline : string := String "010" EmptyString.

(** [xs[i]]: a negative index counts from the end of the list. *)
Definition position {A : Type} (i : Z) (xs : list A) : option nat :=
  if (0 <=? i) && (i <? len xs) then Some (Z.to_nat i)
  else if (- len xs <=? i) && (i <? 0) then Some (Z.to_nat (len xs + i))
  else None.

(** [f_out.write(line)]: a file is the list of the lines written to it. *)
Definition write (line : string) (k : nat) (tmp_files : list (list string))
  : list (list string) :=
  alter (fun f => f ++ [line]) k tmp_files.

(** The loop of [split_corpus] over the lines of the corpus. *)
Fixpoint split_lines (lines : list string) (num_processes doc_idx : Z)
    (tmp_files : list (list string)) : result (list (list string)) :=
  match lines with
  | [] => Ok tmp_files
  | line :: rest =>
      if num_processes =? 0 then Error ZeroDivisionError
      else
        let file_idx := doc_idx mod num_processes in
        match position file_idx tmp_files with
        | None => Error IndexError
        | Some f_out =>
            if String.eqb line newline
            then split_lines rest num_processes (doc_idx + 1)
                   (write newline f_out tmp_files)
            else split_lines rest num_processes doc_idx (write line f_out tmp_files)
        end
  end.

(** [split_corpus(corpus_path, tmp_dir, num_processes)], on the lines of
    the corpus as the file yields them (each with its line end); the result
    is the content of the files [0], ..., [num_processes - 1]. *)
Definition split_corpus (corpus : list string) (num_processes : Z)
  : result (list (list string)) :=
  split_lines corpus num_processes 0 (replicate (Z.to_nat num_processes) []).

(** The lines of a corpus, each with the index of its document: the number
    of document ends before it. *)
Fixpoint numbered (lines : list string) (doc_idx : Z) : list (Z * string) :=
  match lines with
  | [] => []
  | line :: rest =>
      (doc_idx, line) ::
      numbered rest (if String.eqb line newline then doc_idx + 1 else doc_idx)
  end.

(** The lines of the documents whose index is [j] modulo [n]. *)
Definition share (n j : Z) (lines : list (Z * string)) : list string :=
  map snd (filter (fun dl => fst dl mod n = j) lines).

End Corpus.

(** ** Invariants of a worker *)

(** [c] keeps [P], however it ends. *)
Definition preserves {S A : Type} (P : S -> Prop) (c : M S A) : Prop :=
  forall s r s', c s = (r, s') -> P s -> P s'.

(** From a state in [P], [c] returns, in a state in [P]. *)
Definition returns {S A : Type} (P : S -> Prop) (c : M S A) : Prop :=
  forall s, P s -> exists a s', c s = (Ret a, s') /\ P s'.

(** The examples that writer [j] of [n] gets when [m] examples are written
    in turn: the numbers below [m] that are [j] modulo [n]. *)
Definition turns (n j m : Z) : list Z :=
  filter (fun k => k mod n = j) (seqZ 0 m).

(** The shards of job [job_id]. *)
Definition owned_shards (num_out_files num_jobs job_id : Z) : list Z :=
  filter (fun i => i mod num_jobs = job_id) (seqZ 0 num_out_files).

Definition fresh_writer (i : Z) : TFRecordWriter :=
  {| shard := i; records := []; closed := false |}.

(** A token of [split]: not empty, no whitespace in it. *)
Fixpoint spaceless (s : string) : bool :=
  match s with
  | EmptyString => true
  | String c s' => negb (isspace c) && spaceless s'
  end.

(** Every writer holds the records of its turns. *)
Definition round_robin {G : Type} (p : Process G) : Prop :=
  let w := example_writer p in
  0 <= n_written w /\
  forall (j : nat) wj,
    _writers w !! j = Some wj ->
    length (records wj) = length (turns (len (_writers w)) (Z.of_nat j) (n_written w)).

(** The three sequences of an example have length [m]. *)
Definition well_sized (m : Z) (ex : tf_example) : Prop :=
  len (input_ids ex) = m /\ len (input_mask ex) = m /\ len (segment_ids ex) = m.

Definition records_sized {G : Type} (m : Z) (p : Process G) : Prop :=
  _max_length (_example_builder (example_writer p)) = m /\
  Forall (fun w => Forall (well_sized m) (records w)) (_writers (example_writer p)).

(** The worker drops blank lines. *)
Definition blanks_off {G : Type} (p : Process G) : Prop :=
  _blanks_separate_docs (example_writer p) = false.

(** A worker whose vocabulary has the markers, whose examples have room
    for the redraw, that owns a shard and meets no failing write. *)
Definition sound {G : Type} (p : Process G) : Prop :=
  has_markers (_tokenizer (_example_builder (example_writer p))) /\
  5 <= _max_length (_example_builder (example_writer p)) /\
  _writers (example_writer p) <> [] /\
  io p = [].

(** The clock does not read [start_time] again. *)
Definition advancing {G : Type} (start_time : Q) (p : Process G) : Prop :=
  forall k : nat, (ticks p <= k)%nat -> ~ (clock p k == start_time)%Q.

(** The clock of a process, and the number of readings taken. *)
Definition at_time {G : Type} (time : nat -> Q) (n : nat) (p : Process G) : Prop :=
  clock p = time /\ ticks p = n.

(** * Properties *)

(** ** Floats and slices *)

Lemma Qltb_lt (x y : Q) : Qltb x y = true <-> (x < y)%Q.
Proof.
  unfold Qltb. rewrite negb_true_iff, <- not_true_iff_false, Qle_bool_iff.
  split; [apply Qnot_le_lt | apply Qlt_not_le].
Qed.

(** On the 53-bit fractions that [random.random()] returns, comparing with
    the double [0.1] is comparing with the decimal 1/10; likewise for
    [0.05] and [0.5]. *)
Lemma draw_lt_0_1 (k : Z) :
  0 <= k < 2 ^ 53 ->
  Qltb (k # 9007199254740992) float_0_1 = true <-> single_segment (k # 9007199254740992).
Proof.
  intros Hk. rewrite Qltb_lt. unfold single_segment, float_0_1, Qlt. simpl. lia.
Qed.

Lemma draw_lt_0_05 (k : Z) :
  0 <= k < 2 ^ 53 ->
  Qltb (k # 9007199254740992) float_0_05 = true <-> short_example (k # 9007199254740992).
Proof.
  intros Hk. rewrite Qltb_lt. unfold short_example, float_0_05, Qlt. simpl. lia.
Qed.

Lemma draw_lt_0_5 (u : Q) : Qltb u float_0_5 = true <-> coin_favors_first u.
Proof. apply Qltb_lt. Qed.

Lemma random_single_segment {G : Type} `{RandomSource G} (g : G) :
  Qltb (fst (random g)) float_0_1 = true <-> single_segment (fst (random g)).
Proof. destruct (random_dyadic g) as (k & Hk & ->). by apply draw_lt_0_1. Qed.

Lemma random_short_example {G : Type} `{RandomSource G} (g : G) :
  Qltb (fst (random g)) float_0_05 = true <-> short_example (fst (random g)).
Proof. destruct (random_dyadic g) as (k & Hk & ->). by apply draw_lt_0_05. Qed.

Lemma len_nil_iff {A : Type} (xs : list A) : len xs = 0 <-> xs = [].
Proof. unfold len. destruct xs; simpl; split; (done || lia). Qed.

Lemma len_app {A : Type} (xs ys : list A) : len (xs ++ ys) = len xs + len ys.
Proof. unfold len. rewrite length_app. lia. Qed.

Lemma len_nonneg {A : Type} (xs : list A) : 0 <= len xs.
Proof. unfold len. lia. Qed.

Lemma len_times {A : Type} (x : A) (n : Z) : len (times x n) = Z.max 0 n.
Proof. unfold len, times. rewrite length_replicate. lia. Qed.

Lemma slice_to_nonneg {A : Type} (n : Z) (xs : list A) :
  0 <= n -> slice_to n xs = take (Z.to_nat n) xs.
Proof. intros Hn. unfold slice_to. destruct (Z.ltb_spec n 0); [lia | done]. Qed.

Lemma slice_to_prefix {A : Type} (n : Z) (xs : list A) : slice_to n xs `prefix_of` xs.
Proof. unfold slice_to. destruct (n <? 0); apply prefix_take. Qed.

Lemma len_slice_to_nonneg {A : Type} (n : Z) (xs : list A) :
  0 <= n -> len (slice_to n xs) = Z.min n (len xs).
Proof.
  intros Hn. rewrite slice_to_nonneg by done. unfold len. rewrite length_take. lia.
Qed.

Lemma len_slice_to_neg {A : Type} (n : Z) (xs : list A) :
  n < 0 -> len (slice_to n xs) = Z.max 0 (len xs + n).
Proof.
  intros Hn. unfold slice_to. destruct (Z.ltb_spec n 0); [|lia].
  unfold len. rewrite length_take. lia.
Qed.

(** ** The distribution of the pending sentences *)

Ltac munfold :=
  unfold mbind, M_bind, bind, mret, M_ret, ret, raise, self, update, get, modify, lift.

Lemma py_random_eq {G : Type} `{RandomSource G} (b : ExampleBuilder) (g : G) :
  py_random (b, g) = (Ret (fst (random g)), (b, snd (random g))).
Proof. unfold py_random. simpl. by destruct (random g). Qed.

Lemma goes_first_spec {G : Type} `{RandomSource G}
    (target : Z) (first second sentence : list Z) (b : ExampleBuilder) (g : G) :
  exists to_first g',
    goes_first target first second sentence (b, g) = (Ret to_first, (b, g')) /\
    spec_place target first second sentence g to_first g'.
Proof.
  unfold goes_first.
  destruct (Z.eqb_spec (len first) 0) as [Hz|Hz].
  { exists true, g. split; [done|]. apply place_first. left. by apply len_nil_iff. }
  assert (first <> []) as Hne by (by rewrite <- len_nil_iff).
  destruct (Z.ltb_spec (len first + len sentence) target) as [Hfit|Hfit].
  { exists true, g. split; [done|]. apply place_first. by right. }
  assert (~ len first + len sentence < target) as Hnfit by lia.
  destruct (Z.eqb_spec (len second) 0) as [Hs|Hs]; simpl.
  - destruct (Z.ltb_spec (len first) target) as [Hlt|Hge]; simpl.
    + munfold. rewrite py_random_eq. destruct (random g) as [u g'] eqn:Hr. simpl.
      exists (Qltb u float_0_5), g'. split; [done|].
      apply len_nil_iff in Hs.
      destruct (Qltb u float_0_5) eqn:Hc.
      * eapply place_coin_first; eauto. by apply draw_lt_0_5.
      * eapply place_coin_second; eauto. rewrite <- draw_lt_0_5. congruence.
    + exists false, g. split; [done|]. apply place_second; auto. intros [_ ?]; lia.
  - exists false, g. split; [done|]. apply place_second; auto.
    intros [Hs' _]. apply Hs. by apply len_nil_iff.
Qed.

Lemma spec_place_functional {G : Type} `{RandomSource G}
    (target : Z) (first second sentence : list Z) (g : G) t1 g1 t2 g2 :
  spec_place target first second sentence g t1 g1 ->
  spec_place target first second sentence g t2 g2 ->
  t1 = t2 /\ g1 = g2.
Proof.
  intros H1 H2. inversion H1; inversion H2; subst; try done; try tauto;
    match goal with
    | Ha : random g = _, Hb : random g = _ |- _ =>
        rewrite Ha in Hb; injection Hb as -> ->; try done
    end.
Qed.

Lemma distribute_spec {G : Type} `{RandomSource G} (target : Z) (sentences : list (list Z)) :
  forall (first second : list Z) (b : ExampleBuilder) (g : G),
  exists first' second' g',
    distribute target sentences first second (b, g) = (Ret (first', second'), (b, g')) /\
    spec_distribute target sentences first second g first' second' g'.
Proof.
  induction sentences as [|sentence rest IH]; intros first second b g.
  - exists first, second, g. split; [done | constructor].
  - destruct (goes_first_spec target first second sentence b g) as (t & g1 & Hg & Hp).
    cbn [distribute]. munfold. rewrite Hg. destruct t.
    + destruct (IH (first ++ sentence) second b g1) as (f' & s' & g' & Hd & Hs).
      exists f', s', g'. split; [done|]. eapply distribute_first; eauto.
    + destruct (IH first (second ++ sentence) b g1) as (f' & s' & g' & Hd & Hs).
      exists f', s', g'. split; [done|]. eapply distribute_second; eauto.
Qed.

Lemma spec_distribute_functional {G : Type} `{RandomSource G}
    (target : Z) sentences first second (g : G) f1 s1 g1 :
  spec_distribute target sentences first second g f1 s1 g1 ->
  forall f2 s2 g2,
    spec_distribute target sentences first second g f2 s2 g2 ->
    f2 = f1 /\ s2 = s1 /\ g2 = g1.
Proof.
  induction 1 as [|? ? ? ? ? ? ? ? ? Hp _ IH|? ? ? ? ? ? ? ? ? Hp _ IH];
    intros f2 s2 g2 H2; inversion H2; subst; try done;
    match goal with
    | Hq : spec_place _ _ _ _ _ _ _ |- _ =>
        destruct (spec_place_functional _ _ _ _ _ _ _ _ _ Hp Hq) as [? ?];
        subst; try done; by apply IH
    end.
Qed.

Lemma sum_len_nonneg (sentences : list (list Z)) : 0 <= sum (map len sentences).
Proof.
  induction sentences as [|s rest IH]; simpl; [done|].
  pose proof (len_nonneg s). lia.
Qed.

(** Below the target, everything goes into the first segment and no coin is
    drawn. *)
Lemma spec_distribute_under_target {G : Type} `{RandomSource G}
    (target : Z) sentences first second (g : G) f' s' g' :
  spec_distribute target sentences first second g f' s' g' ->
  len first + sum (map len sentences) < target ->
  f' = first ++ concat sentences /\ s' = second /\ g' = g.
Proof.
  induction 1 as [|sentence rest first second g g1 f' s' g' Hp _ IH
                  |sentence rest first second g g1 f' s' g' Hp _ IH];
    simpl; intros Hlt.
  - by rewrite app_nil_r.
  - pose proof (sum_len_nonneg rest).
    assert (g1 = g) as -> by (inversion Hp; subst; [done | lia]).
    destruct IH as (-> & -> & ->); [rewrite len_app; lia|].
    by rewrite <- app_assoc.
  - pose proof (sum_len_nonneg rest). inversion Hp; subst; lia.
Qed.

Lemma first_segment_target_eq {G : Type} `{RandomSource G} (b : ExampleBuilder) (g : G) :
  first_segment_target (b, g) =
    (Ret (spec_first_target (fst (random g)) (_target_length b)), (b, snd (random g))).
Proof.
  unfold first_segment_target. munfold. rewrite py_random_eq. simpl.
  unfold spec_first_target.
  pose proof (random_single_segment g) as Hs. unfold single_segment in Hs.
  destruct (Qltb (fst (random g)) float_0_1) eqn:Hc;
    destruct (Qlt_le_dec (fst (random g)) (1 # 10)) as [Hlt|Hle]; try done.
  - exfalso. apply (Qlt_not_le _ _ (proj1 Hs eq_refl)). done.
  - apply Hs in Hlt. congruence.
Qed.

Lemma create_example_unfold {G : Type} `{RandomSource G} (b : ExampleBuilder) (g : G) :
  exists first second g1,
    spec_distribute (spec_first_target (fst (random g)) (_target_length b))
      (_current_sentences b) [] [] (snd (random g)) first second g1 /\
    _create_example (b, g) = pack_segments first second (b, g1).
Proof.
  destruct (distribute_spec (spec_first_target (fst (random g)) (_target_length b))
              (_current_sentences b) [] [] b (snd (random g)))
    as (first & second & g1 & Hd & Hs).
  exists first, second, g1. split; [done|].
  unfold _create_example. munfold. rewrite first_segment_target_eq. simpl.
  by rewrite Hd.
Qed.

(** C1. [_create_example] first draws the mode: on a draw below 1/10 the
    first-segment target is 100000, otherwise [(target_length - 3) // 2].
    The loop then places the pending sentences exactly as the policy says
    (the policy admits no other result), in their order, and what follows
    the loop runs on these two segments. In single-segment mode, pending
    text shorter than 100000 tokens all lands in the first segment. *)
Theorem create_example_distribution {G : Type} `{RandomSource G}
    (b : ExampleBuilder) (g : G) :
  exists u g0 first second g1,
    random g = (u, g0) /\
    first_segment_target (b, g) = (Ret (spec_first_target u (_target_length b)), (b, g0)) /\
    spec_distribute (spec_first_target u (_target_length b))
      (_current_sentences b) [] [] g0 first second g1 /\
    (forall f s g',
        spec_distribute (spec_first_target u (_target_length b))
          (_current_sentences b) [] [] g0 f s g' ->
        f = first /\ s = second /\ g' = g1) /\
    (single_segment u -> sum (map len (_current_sentences b)) < 100000 ->
     first = concat (_current_sentences b) /\ second = [] /\ g1 = g0) /\
    _create_example (b, g) = pack_segments first second (b, g1).
Proof.
  destruct (random g) as [u g0] eqn:Hr.
  pose proof (first_segment_target_eq b g) as Ht. rewrite Hr in Ht. simpl in Ht.
  destruct (distribute_spec (spec_first_target u (_target_length b))
              (_current_sentences b) [] [] b g0) as (first & second & g1 & Hd & Hs).
  exists u, g0, first, second, g1.
  split; [done|]. split; [done|]. split; [done|].
  split. { intros f s g' Hs'. by apply (spec_distribute_functional _ _ _ _ _ _ _ _ Hs). }
  split.
  { intros Hu Hlen. eapply spec_distribute_under_target in Hs; [done|].
    unfold spec_first_target. destruct (Qlt_le_dec u (1 # 10)) as [|Hle];
      [change (len (@nil Z)) with 0; lia|].
    exfalso. by apply (Qlt_not_le _ _ Hu). }
  unfold _create_example. munfold. rewrite Ht. simpl. by rewrite Hd.
Qed.

(** The policy at work, with target 6: the second sentence does not fit
    and the coin decides; the third fits and goes into the first segment
    even after the second segment was opened. *)
Example distribute_coin_second :
  fst (distribute 6 [[1; 2]; [3; 4; 5; 6; 7]; [8]] [] [] (Demo.builder 16, [3 * 2 ^ 51]))
  = Ret ([1; 2; 8], [3; 4; 5; 6; 7]).
Proof. vm_compute. reflexivity. Qed.

Example distribute_coin_first :
  fst (distribute 6 [[1; 2]; [3; 4; 5; 6; 7]; [8]] [] [] (Demo.builder 16, [2 ^ 51]))
  = Ret ([1; 2; 3; 4; 5; 6; 7], [8]).
Proof. vm_compute. reflexivity. Qed.

(** ** Truncation *)

Lemma truncate_bounds (max_length : Z) (first second : list Z) :
  2 <= max_length ->
  len (fst (truncate max_length first second)) <= max_length - 2 /\
  len (snd (truncate max_length first second)) <=
    Z.max 0 (max_length - len (fst (truncate max_length first second)) - 3).
Proof.
  intros Hmax. unfold truncate. cbn [fst snd].
  rewrite !len_slice_to_nonneg by lia. lia.
Qed.

(** C2 (as the code has it). The second segment is cut to its first
    [max(0, max_length - len(first_segment) - 3)] tokens for every state,
    and both cuts keep a prefix. The first segment is cut to its first
    [max_length - 2] tokens when [max_length >= 2]. *)
Theorem truncate_spec (max_length : Z) (first second : list Z) :
  let f := fst (truncate max_length first second) in
  let s := snd (truncate max_length first second) in
  f `prefix_of` first /\
  s = take (Z.to_nat (Z.max 0 (max_length - len f - 3))) second /\
  len s <= Z.max 0 (max_length - len f - 3) /\
  (2 <= max_length ->
   f = take (Z.to_nat (max_length - 2)) first /\ len f <= max_length - 2).
Proof.
  unfold truncate. cbn [fst snd].
  split; [apply slice_to_prefix|].
  split; [apply slice_to_nonneg; lia|].
  split; [rewrite len_slice_to_nonneg by lia; lia|].
  intros Hmax. split; [apply slice_to_nonneg; lia|].
  rewrite len_slice_to_nonneg by lia. lia.
Qed.

Lemma truncate_spec_witness :
  2 <= 5 /\
  fst (truncate 5 [11; 12; 13; 14] [21; 22]) = take (Z.to_nat (5 - 2)) [11; 12; 13; 14] /\
  len (fst (truncate 5 [11; 12; 13; 14] [21; 22])) <= 5 - 2.
Proof.
  split; [lia|].
  apply (truncate_spec 5 [11; 12; 13; 14] [21; 22]). lia.
Defined.

(** C2 (as stated) fails below [max_length = 2]: the stop of the first
    slice is negative there, and [[7, 8, 9][:-1]] keeps two tokens. *)
Lemma truncate_counterexample :
  fst (truncate 1 [7; 8; 9] []) = [7; 8] /\
  ~ len (fst (truncate 1 [7; 8; 9] [])) <= 1 - 2.
Proof. split; [reflexivity | vm_compute; intros H; by apply H]. Qed.

Lemma len_cons {A : Type} (x : A) (xs : list A) : len (x :: xs) = 1 + len xs.
Proof. unfold len. simpl length. lia. Qed.

Lemma len_unpadded_ids (cls sep : Z) (first second : list Z) :
  len (unpadded_ids cls sep first second) =
    len first + 2 + (if nonempty second then len second + 1 else 0).
Proof.
  unfold unpadded_ids.
  destruct second; cbn [nonempty];
    rewrite ?len_app, ?len_cons; change (len (@nil Z)) with 0; lia.
Qed.

(** The truncated segments and the three markers fit in [max_length]. *)
Lemma truncate_fits (max_length cls sep : Z) (first second : list Z) :
  2 <= max_length ->
  len (unpadded_ids cls sep (fst (truncate max_length first second))
         (snd (truncate max_length first second))) <= max_length.
Proof.
  intros Hmax.
  destruct (truncate_bounds max_length first second Hmax) as [Hlen Hs].
  rewrite len_unpadded_ids.
  destruct (snd (truncate max_length first second)) as [|x s]; cbn [nonempty]; [lia|].
  rewrite len_cons in *. pose proof (len_nonneg s). lia.
Qed.

(** ** Example assembly *)

Lemma make_tf_example_eq {G : Type} (first second : list Z) (b : ExampleBuilder) (g : G) :
  _make_tf_example first second (b, g) =
    match vocab (_tokenizer b) !! "[CLS]", vocab (_tokenizer b) !! "[SEP]",
          vocab (_tokenizer b) !! "[PAD]" with
    | Some cls, Some sep, Some pad =>
        (Ret (assembled cls sep pad (_max_length b) first second), (b, g))
    | _, _, _ => (Raise KeyError, (b, g))
    end.
Proof.
  unfold _make_tf_example, getitem. munfold. cbn [fst snd].
  destruct (vocab (_tokenizer b) !! "[CLS]") as [cls|]; [|done].
  destruct (vocab (_tokenizer b) !! "[SEP]") as [sep|]; [|done].
  destruct (vocab (_tokenizer b) !! "[PAD]") as [pad|]; [|done].
  unfold assembled, unpadded_ids.
  destruct second as [|x s]; cbn [nonempty].
  - rewrite !app_nil_r. rewrite !len_times.
    assert (len ([cls] ++ first ++ [sep]) = len first + 2) as E
      by (rewrite !len_app; unfold len; simpl; lia).
    rewrite !E. pose proof (len_nonneg first).
    replace (Z.max 0 (len first + 2)) with (len first + 2) by lia. done.
  - rewrite !len_app, !len_times.
    assert (len ([cls] ++ first ++ [sep]) = len first + 2) as E
      by (rewrite !len_app; unfold len; simpl; lia).
    rewrite !len_app in E. rewrite !E.
    pose proof (len_nonneg first). pose proof (len_nonneg (x :: s)).
    replace (Z.max 0 (len first + 2)) with (len first + 2) by lia.
    replace (Z.max 0 (len (x :: s) + 1)) with (len (x :: s) + 1) by lia.
    replace (len [sep]) with 1 by done. replace (len [cls]) with 1 by done.
    rewrite <- !app_assoc.
    replace (1 + (len first + (1 + (len (x :: s) + 1))))
      with (len first + 2 + (len (x :: s) + 1)) by lia.
    replace (1 + (len first + 1)) with (len first + 2) by lia.
    rewrite Z.max_r by lia. done.
Qed.

Lemma assembled_lengths (cls sep pad max_length : Z) (first second : list Z) :
  len (unpadded_ids cls sep first second) <= max_length ->
  let ex := assembled cls sep pad max_length first second in
  len (input_ids ex) = max_length /\ len (input_mask ex) = max_length /\
  len (segment_ids ex) = max_length.
Proof.
  intros Hfit. unfold assembled. cbn [input_ids input_mask segment_ids].
  pose proof (len_nonneg (unpadded_ids cls sep first second)) as Hn.
  pose proof (len_unpadded_ids cls sep first second) as E.
  pose proof (len_nonneg first). pose proof (len_nonneg second).
  rewrite !len_app, !len_times.
  split; [lia|]. split; [lia|].
  destruct second; cbn [nonempty] in *.
  - change (len (@nil Z)) with 0. lia.
  - rewrite len_times. lia.
Qed.

(** ** [_create_example] and [add_line], step by step *)

Lemma redraw_target_length_eq {G : Type} `{RandomSource G} (b : ExampleBuilder) (g : G) :
  redraw_target_length (b, g) =
    if Qltb (fst (random g)) float_0_05
    then match randint 5 (_max_length b) (snd (random g)) with
         | Some (n, g3) => (Ret tt, (set_target_length n b, g3))
         | None => (Raise ValueError, (b, snd (random g)))
         end
    else (Ret tt, (set_target_length (_max_length b) b, snd (random g))).
Proof.
  unfold redraw_target_length. munfold. rewrite py_random_eq. cbn [fst snd].
  destruct (Qltb (fst (random g)) float_0_05); [|done].
  unfold py_randint. cbn [fst snd].
  by destruct (randint 5 (_max_length b) (snd (random g))) as [[n g3]|].
Qed.

Lemma pack_segments_eq {G : Type} `{RandomSource G}
    (first second : list Z) (b : ExampleBuilder) (g : G) :
  pack_segments first second (b, g) =
    let f := fst (truncate (_max_length b) first second) in
    let s := snd (truncate (_max_length b) first second) in
    if Qltb (fst (random g)) float_0_05
    then match randint 5 (_max_length b) (snd (random g)) with
         | Some (n, g3) => _make_tf_example f s (set_target_length n (reset b), g3)
         | None => (Raise ValueError, (reset b, snd (random g)))
         end
    else _make_tf_example f s
           (set_target_length (_max_length b) (reset b), snd (random g)).
Proof.
  unfold pack_segments. munfold. cbn [fst snd].
  destruct (truncate (_max_length b) first second) as [f s] eqn:E. cbn [fst snd].
  pose proof (redraw_target_length_eq (reset b) g) as Hr.
  unfold reset in *. rewrite Hr. cbn [_max_length set_current_length set_current_sentences].
  destruct (Qltb (fst (random g)) float_0_05); [|done].
  by destruct (randint 5 (_max_length b) (snd (random g))) as [[n g3]|].
Qed.

Lemma add_line_eq {G : Type} `{RandomSource G} (line : string) (b : ExampleBuilder) (g : G) :
  add_line line (b, g) =
    let line' := replace "010" " " (strip line) in
    if negb (nonempty_str line') && negb (_current_length b =? 0)
    then (example ← _create_example; mret (Some example)) (b, g)
    else
      let ids := convert_tokens_to_ids (_tokenizer b) (tokenize line') in
      let b1 := set_current_length (_current_length b + len ids)
                  (set_current_sentences (_current_sentences b ++ [ids]) b) in
      if _target_length b <=? _current_length b + len ids
      then (example ← _create_example; mret (Some example)) (b1, g)
      else (Ret None, (b1, g)).
Proof.
  unfold add_line. munfold. cbn [fst snd].
  destruct (negb (nonempty_str (replace "010" " " (strip line))) &&
            negb (_current_length b =? 0)); [done|].
  cbn. by destruct (_target_length b <=? _ + _).
Qed.

(** What an invocation of [_create_example] leaves behind, and what it
    returns. *)
Lemma create_example_inv {G : Type} `{RandomSource G}
    (b : ExampleBuilder) (g : G) r (b' : ExampleBuilder) (g' : G) :
  _create_example (b, g) = (r, (b', g')) ->
  _current_sentences b' = [] /\ _current_length b' = 0 /\
  _max_length b' = _max_length b /\ _tokenizer b' = _tokenizer b /\
  (_target_length b' = _max_length b \/
   5 <= _target_length b' <= _max_length b \/
   (_max_length b < 5 /\ _target_length b' = _target_length b /\ r = Raise ValueError)) /\
  (forall ex, r = Ret ex ->
     exists first second g0 g1 cls sep pad,
       spec_distribute (spec_first_target (fst (random g)) (_target_length b))
         (_current_sentences b) [] [] g0 first second g1 /\
       vocab (_tokenizer b) !! "[CLS]" = Some cls /\
       vocab (_tokenizer b) !! "[SEP]" = Some sep /\
       vocab (_tokenizer b) !! "[PAD]" = Some pad /\
       ex = assembled cls sep pad (_max_length b)
              (fst (truncate (_max_length b) first second))
              (snd (truncate (_max_length b) first second))).
Proof.
  destruct (create_example_unfold b g) as (first & second & g1 & Hd & ->).
  rewrite pack_segments_eq. cbn zeta.
  assert (forall bt gt,
    _max_length bt = _max_length b -> _tokenizer bt = _tokenizer b ->
    _current_sentences bt = [] -> _current_length bt = 0 ->
    _make_tf_example (fst (truncate (_max_length b) first second))
      (snd (truncate (_max_length b) first second)) (bt, gt) = (r, (b', g')) ->
    b' = bt /\
    forall ex, r = Ret ex ->
      exists first second g0 g1 cls sep pad,
       spec_distribute (spec_first_target (fst (random g)) (_target_length b))
         (_current_sentences b) [] [] g0 first second g1 /\
       vocab (_tokenizer b) !! "[CLS]" = Some cls /\
       vocab (_tokenizer b) !! "[SEP]" = Some sep /\
       vocab (_tokenizer b) !! "[PAD]" = Some pad /\
       ex = assembled cls sep pad (_max_length b)
              (fst (truncate (_max_length b) first second))
              (snd (truncate (_max_length b) first second))) as Hmake.
  { intros bt gt Hm Ht _ _. rewrite make_tf_example_eq, Hm, Ht.
    destruct (vocab (_tokenizer b) !! "[CLS]") as [cls|] eqn:E1;
      [|by intros [= <- <- <-]].
    destruct (vocab (_tokenizer b) !! "[SEP]") as [sep|] eqn:E2;
      [|by intros [= <- <- <-]].
    destruct (vocab (_tokenizer b) !! "[PAD]") as [pad|] eqn:E3;
      [|by intros [= <- <- <-]].
    intros [= <- <- <-]. split; [done|]. intros ex [= <-].
    by exists first, second, (snd (random g)), g1, cls, sep, pad. }
  destruct (Qltb (fst (random g1)) float_0_05).
  - destruct (randint 5 (_max_length b) (snd (random g1))) as [[n g3]|] eqn:En.
    + intros Hm. apply Hmake in Hm as [-> Hex]; try done.
      apply randint_range in En. cbn. repeat split; first [done | right; by left].
    + intros [= <- <- <-]. destruct (Z.le_gt_cases 5 (_max_length b)) as [Hle|Hgt].
      { apply (randint_some 5 _ (snd (random g1))) in Hle as [? Hs]. congruence. }
      cbn. repeat split; first [done | right; right; repeat split; (done || lia)].
  - intros Hm. apply Hmake in Hm as [-> Hex]; try done.
    cbn. repeat split; first [done | by left].
Qed.

Lemma create_some_inv {G : Type} `{RandomSource G}
    (st : BState G) (r : outcome (option tf_example)) (st' : BState G) :
  (example ← _create_example; mret (Some example)) st = (r, st') ->
  exists r0, _create_example st = (r0, st') /\
             r = match r0 with Ret ex => Ret (Some ex) | Raise e => Raise e end.
Proof.
  munfold. destruct (_create_example st) as [[ex|e] st0]; intros [= <- <-]; eauto.
Qed.

(** With room for the redraw and with the markers in the vocabulary,
    [_create_example] returns an example. *)
Lemma create_example_total {G : Type} `{RandomSource G} (b : ExampleBuilder) (g : G) :
  5 <= _max_length b -> has_markers (_tokenizer b) ->
  exists ex st', _create_example (b, g) = (Ret ex, st').
Proof.
  intros Hmax ([cls Hc] & [sep Hs] & [pad Hp]).
  destruct (create_example_unfold b g) as (first & second & g1 & _ & ->).
  rewrite pack_segments_eq. cbn zeta.
  destruct (Qltb (fst (random g1)) float_0_05).
  - destruct (randint_some 5 (_max_length b) (snd (random g1)) Hmax) as [[n g3] ->].
    rewrite make_tf_example_eq. cbn. rewrite Hc, Hs, Hp. eauto.
  - rewrite make_tf_example_eq. cbn. rewrite Hc, Hs, Hp. eauto.
Qed.


(** ** The lengths of an emitted example *)

(** C3 (as the code has it). On a builder with [max_length >= 2], every
    example that [add_line] returns, for a line of text or for the empty
    line of the final flush, has three sequences of length [max_length]. *)
Theorem emitted_example_lengths {G : Type} `{RandomSource G}
    (b : ExampleBuilder) (g : G) (line : string) (ex : tf_example) (st' : BState G) :
  2 <= _max_length b ->
  add_line line (b, g) = (Ret (Some ex), st') ->
  len (input_ids ex) = _max_length b /\
  len (input_mask ex) = _max_length b /\
  len (segment_ids ex) = _max_length b.
Proof.
  intros Hmax. rewrite add_line_eq. cbn zeta.
  assert (forall b1, _max_length b1 = _max_length b ->
            (example ← _create_example; mret (Some example)) (b1, g) =
              (Ret (Some ex), st') ->
            len (input_ids ex) = _max_length b /\
            len (input_mask ex) = _max_length b /\
            len (segment_ids ex) = _max_length b) as Hcreate.
  { intros b1 Hb1 Hc. apply create_some_inv in Hc as ([ex0|e] & Hc & Hr); [|done].
    injection Hr as <-. destruct st' as [b' g'].
    apply create_example_inv in Hc as (_ & _ & _ & _ & _ & Hex).
    destruct (Hex ex eq_refl)
      as (first & second & g0 & g1 & cls & sep & pad & _ & _ & _ & _ & ->).
    rewrite Hb1. apply assembled_lengths. by apply truncate_fits. }
  destruct (negb _ && negb _).
  - by apply Hcreate.
  - destruct (_ <=? _); [by apply Hcreate | done].
Qed.

Lemma emitted_example_lengths_witness :
  2 <= _max_length (Demo.pending 16 [[5; 6; 7]]) /\
  exists ex st',
    add_line "" (Demo.pending 16 [[5; 6; 7]], [Demo.half; Demo.half]) =
      (Ret (Some ex), st') /\
    len (input_ids ex) = 16 /\ len (input_mask ex) = 16 /\ len (segment_ids ex) = 16.
Proof.
  split; [vm_compute; discriminate|].
  eexists _, _. split; [vm_compute; reflexivity|].
  eapply (emitted_example_lengths (Demo.pending 16 [[5; 6; 7]])
            [Demo.half; Demo.half] "");
    [vm_compute; discriminate | vm_compute; reflexivity].
Defined.

(** C3 (as stated) fails below [max_length = 2]: with [max_length = 1] the
    line "the" is emitted at once, as [[CLS], [SEP]] without padding. *)
Lemma emitted_example_lengths_counterexample :
  exists ex st',
    add_line "the" (Demo.builder 1, [Demo.half; Demo.half]) = (Ret (Some ex), st') /\
    input_ids ex = [2; 3] /\
    len (input_ids ex) <> _max_length (Demo.builder 1).
Proof.
  eexists _, _. split; [vm_compute; reflexivity|].
  split; [reflexivity | vm_compute; discriminate].
Qed.

(** ** Empty lines *)

Lemma lstrip_whitespace_only (line : string) :
  whitespace_only line = true -> lstrip line = EmptyString.
Proof.
  induction line as [|c line IH]; [done|]. simpl.
  destruct (isspace c); [by apply IH | done].
Qed.

Lemma strip_whitespace_only (line : string) :
  whitespace_only line = true -> replace "010" " " (strip line) = EmptyString.
Proof. intros Hw. unfold strip. by rewrite lstrip_whitespace_only. Qed.




(** C6 (as the code has it). On an empty (whitespace-only) line with no
    pending content and a positive [target_length], [add_line] returns
    nothing, draws nothing, and leaves [pending_length], [target_length],
    [max_length] and the tokenizer as they were; it appends one empty
    token sequence to the pending sentences. *)
Theorem add_line_empty_no_pending {G : Type} `{RandomSource G}
    (b : ExampleBuilder) (g : G) (line : string) :
  whitespace_only line = true ->
  _current_length b = 0 ->
  0 < _target_length b ->
  exists b',
    add_line line (b, g) = (Ret None, (b', g)) /\
    _current_sentences b' = _current_sentences b ++ [[]] /\
    _current_length b' = _current_length b /\
    _target_length b' = _target_length b /\
    _max_length b' = _max_length b /\
    _tokenizer b' = _tokenizer b.
Proof.
  intros Hw Hlen Ht. rewrite add_line_eq. cbn zeta.
  rewrite strip_whitespace_only by done. rewrite Hlen.
  cbn [nonempty_str negb andb Z.eqb].
  assert (tokenize "" = []) as -> by reflexivity.
  cbn [convert_tokens_to_ids map]. change (len (@nil Z)) with 0.
  destruct (Z.leb_spec (_target_length b) (0 + 0)); [lia|].
  eexists. split; [reflexivity|]. cbn. repeat split; lia.
Qed.

Lemma add_line_empty_no_pending_witness :
  exists b',
    add_line "" (Demo.builder 16, [Demo.half]) = (Ret None, (b', [Demo.half])) /\
    _current_sentences b' = _current_sentences (Demo.builder 16) ++ [[]] /\
    _current_length b' = _current_length (Demo.builder 16) /\
    _target_length b' = _target_length (Demo.builder 16) /\
    _max_length b' = _max_length (Demo.builder 16) /\
    _tokenizer b' = _tokenizer (Demo.builder 16).
Proof.
  apply (add_line_empty_no_pending (Demo.builder 16) [Demo.half] "");
    [reflexivity | reflexivity | vm_compute; reflexivity].
Defined.

(** C6 (as stated) fails: the empty line changes the pending sentences of a
    fresh builder from [[]] to [[[]]]. *)
Lemma add_line_empty_counterexample :
  _current_length (Demo.builder 16) = 0 /\
  fst (add_line "" (Demo.builder 16, [Demo.half])) = Ret None /\
  _current_sentences (Demo.builder 16) = [] /\
  _current_sentences (fst (snd (add_line "" (Demo.builder 16, [Demo.half])))) = [[]] /\
  snd (add_line "" (Demo.builder 16, [Demo.half])) <> (Demo.builder 16, [Demo.half]).
Proof.
  split; [reflexivity|]. split; [reflexivity|]. split; [reflexivity|].
  split; [reflexivity|]. intros E.
  apply (f_equal (fun st => _current_sentences (fst st))) in E. discriminate E.
Qed.

(** ** The next target length *)

Lemma make_tf_example_state {G : Type} (first second : list Z) (st : BState G) r st' :
  _make_tf_example first second st = (r, st') -> st' = st.
Proof.
  destruct st as [b g]. rewrite make_tf_example_eq.
  destruct (vocab (_tokenizer b) !! "[CLS]"); [|by intros [= _ <-]].
  destruct (vocab (_tokenizer b) !! "[SEP]"); [|by intros [= _ <-]].
  destruct (vocab (_tokenizer b) !! "[PAD]"); by intros [= _ <-].
Qed.

(** C5 (as the code has it). An invocation of [_create_example] on a
    builder [b] places the pending sentences with the target length [b]
    had, then draws [u]. On [u < 1/20] it calls
    [random.randint(5, max_length)]: the integer that returns, which lies
    in [[5, max_length]], is the new target length; when
    [max_length < 5] the range is empty, the call raises [ValueError], the
    invocation ends there and the target length is left as it was. On
    [u >= 1/20] the new target length is [max_length]. An example that the
    invocation returns is assembled, in the state with the new target
    length, from the segments placed before. *)
Theorem create_example_redraws_target {G : Type} `{RandomSource G}
    (b : ExampleBuilder) (g : G) :
  exists first second g1 u g2 r b' g',
    spec_distribute (spec_first_target (fst (random g)) (_target_length b))
      (_current_sentences b) [] [] (snd (random g)) first second g1 /\
    random g1 = (u, g2) /\
    _create_example (b, g) = (r, (b', g')) /\
    (short_example u ->
       match randint 5 (_max_length b) g2 with
       | Some (n, g3) => 5 <= n <= _max_length b /\ _target_length b' = n /\ g' = g3
       | None => _max_length b < 5 /\ r = Raise ValueError /\
                 _target_length b' = _target_length b
       end) /\
    (~ short_example u -> _target_length b' = _max_length b /\ g' = g2) /\
    (forall ex, r = Ret ex ->
       _make_tf_example (fst (truncate (_max_length b) first second))
         (snd (truncate (_max_length b) first second)) (b', g') = (Ret ex, (b', g'))).
Proof.
  destruct (create_example_unfold b g) as (first & second & g1 & Hd & Hc).
  destruct (random g1) as [u g2] eqn:Hr1.
  pose proof (random_short_example g1) as Hs. rewrite Hr1 in Hs. cbn [fst] in Hs.
  rewrite pack_segments_eq in Hc. rewrite Hr1 in Hc. cbn [fst snd] in Hc. cbn zeta in Hc.
  exists first, second, g1, u, g2.
  destruct (Qltb u float_0_05) eqn:Hq.
  - assert (short_example u) as Hu by by apply Hs.
    destruct (randint 5 (_max_length b) g2) as [[n g3]|] eqn:En.
    + destruct (_make_tf_example _ _ (set_target_length n (reset b), g3))
        as [r st'] eqn:Em.
      pose proof (make_tf_example_state _ _ _ _ _ Em) as ->.
      exists r, (set_target_length n (reset b)), g3.
      split; [done|]. split; [done|]. split; [done|].
      split. { intros _. apply randint_range in En. done. }
      split; [done|]. intros ex ->. done.
    + exists (Raise ValueError), (reset b), g2.
      split; [done|]. split; [done|]. split; [done|].
      split.
      { intros _. split; [|done].
        destruct (Z.le_gt_cases 5 (_max_length b)) as [Hle|Hgt]; [|lia].
        apply (randint_some 5 _ g2) in Hle as [? Hsome]. congruence. }
      split; [done|]. intros ex [=].
  - assert (~ short_example u) as Hu by (rewrite <- Hs; congruence).
    destruct (_make_tf_example _ _ (set_target_length (_max_length b) (reset b), g2))
      as [r st'] eqn:Em.
    pose proof (make_tf_example_state _ _ _ _ _ Em) as ->.
    exists r, (set_target_length (_max_length b) (reset b)), g2.
    split; [done|]. split; [done|]. split; [done|].
    split; [done|]. split; [done|]. intros ex ->. done.
Qed.

(** C5 (as stated) fails below [max_length = 5]: with [max_length = 4],
    two pending tokens and a draw below 0.05, [random.randint(5, 4)]
    raises [ValueError]; the invocation returns no example, and the target
    length it leaves, 4, is no integer of [[5, max_length]]. *)
Lemma create_example_redraws_target_counterexample :
  exists b' g',
    _create_example (Demo.pending 4 [[5; 6]], [Demo.half; 0]) =
      (Raise ValueError, (b', g')) /\
    short_example (fst (random (G := Tape.t) [0])) /\
    _target_length b' = 4 /\
    ~ (5 <= _target_length b' <= _max_length b').
Proof.
  eexists _, _. split; [vm_compute; reflexivity|].
  split; [vm_compute; reflexivity|]. split; [reflexivity|].
  cbn. lia.
Qed.

(** ** The pending length *)

Lemma sum_app (xs ys : list Z) : sum (xs ++ ys) = sum xs + sum ys.
Proof. induction xs as [|x xs IH]; simpl; lia. Qed.

Lemma add_line_inv {G : Type} `{RandomSource G}
    (line : string) (b : ExampleBuilder) (g : G) r (b' : ExampleBuilder) (g' : G) :
  add_line line (b, g) = (r, (b', g')) ->
  _max_length b' = _max_length b /\ _tokenizer b' = _tokenizer b /\
  (pending_invariant b -> pending_invariant b') /\
  ((5 <= _max_length b -> 5 <= _target_length b) ->
   5 <= _max_length b -> 5 <= _target_length b').
Proof.
  rewrite add_line_eq. cbn zeta.
  assert (forall b1, _max_length b1 = _max_length b -> _tokenizer b1 = _tokenizer b ->
            _target_length b1 = _target_length b ->
            (example ← _create_example; mret (Some example)) (b1, g) = (r, (b', g')) ->
            _max_length b' = _max_length b /\ _tokenizer b' = _tokenizer b /\
            (pending_invariant b -> pending_invariant b') /\
            ((5 <= _max_length b -> 5 <= _target_length b) ->
             5 <= _max_length b -> 5 <= _target_length b')) as Hcreate.
  { intros b1 Hm Htk Htg Hc. apply create_some_inv in Hc as (r0 & Hc & _).
    apply create_example_inv in Hc as (Hs & Hl & Hm' & Htk' & Htg' & _).
    split; [congruence|]. split; [congruence|]. split.
    - intros _. unfold pending_invariant. by rewrite Hs, Hl.
    - intros Hold Hmax. rewrite Hm in *. lia. }
  destruct (negb _ && negb _); [by apply Hcreate|].
  destruct (_ <=? _); [by apply Hcreate|].
  intros [= <- <- <-]. cbn. split; [done|]. split; [done|]. split; [|done].
  unfold pending_invariant. cbn. intros ->.
  rewrite map_app, sum_app. simpl. lia.
Qed.

(** C7. [pending_length] is the sum of the lengths of the pending
    sentences in a new builder, and every call of [add_line] keeps it so,
    whatever the line and whether or not the call emits an example (or
    raises). *)
Theorem pending_invariant_preserved {G : Type} `{RandomSource G} :
  (forall tokenizer max_length,
      pending_invariant (ExampleBuilder_init tokenizer max_length)) /\
  (forall (line : string) (b : ExampleBuilder) (g : G),
      pending_invariant b ->
      pending_invariant (fst (snd (add_line line (b, g))))).
Proof.
  split; [done|]. intros line b g Hinv.
  destruct (add_line line (b, g)) as [r [b' g']] eqn:E.
  by apply add_line_inv in E as (_ & _ & Hp & _); apply Hp.
Qed.

Lemma pending_invariant_preserved_witness :
  pending_invariant (Demo.builder 16) /\
  pending_invariant
    (fst (snd (add_line "the cat" (Demo.builder 16, [Demo.half; Demo.half])))).
Proof.
  split.
  - apply (proj1 (pending_invariant_preserved (G := Tape.t))).
  - apply (proj2 (pending_invariant_preserved (G := Tape.t))).
    apply (proj1 (pending_invariant_preserved (G := Tape.t))).
Defined.

Lemma sum_times (x n : Z) : sum (times x n) = x * Z.max 0 n.
Proof.
  unfold times.
  assert (forall k : nat, sum (replicate k x) = x * Z.of_nat k) as E.
  { induction k as [|k IH]; [simpl; lia|].
    rewrite Nat2Z.inj_succ. unfold sum in *. cbn [replicate foldr]. rewrite IH. lia. }
  rewrite E. lia.
Qed.

(** What holds in every state a builder goes through. *)
Lemma reachable_inv {G : Type} `{RandomSource G}
    (tokenizer : Tokenizer) (max_length : Z) (st : BState G) :
  reachable tokenizer max_length st ->
  pending_invariant (fst st) /\ _max_length (fst st) = max_length /\
  _tokenizer (fst st) = tokenizer /\
  (5 <= max_length -> 5 <= _target_length (fst st)).
Proof.
  induction 1 as [g|[b g] line r [b' g'] _ (Hp & Hm & Htk & Htg) Hadd]; [done|].
  cbn [fst] in *.
  apply add_line_inv in Hadd as (Hm' & Htk' & Hp' & Htg').
  split; [by apply Hp'|]. split; [congruence|]. split; [congruence|].
  intros Hmax. apply Htg'; rewrite Hm; done.
Qed.

(** ** The vocabulary file *)

Lemma special_vocab_None (piece : string) :
  special_vocab !! piece = None <-> piece ∉ reserved.
Proof.
  unfold special_vocab, reserved.
  rewrite !lookup_insert_None, !not_elem_of_cons, lookup_empty.
  pose proof (not_elem_of_nil piece). intuition congruence.
Qed.

Lemma load_vocab_succeeds_iff (lines : list string) :
  forall (vocab : gmap string Z) (i : Z),
    (exists vocab', load_vocab lines vocab i = Ret vocab') <->
    Forall (fun line => length (fields line) = 2%nat) lines /\
    NoDup (pieces lines) /\
    Forall (fun piece => vocab !! piece = None) (pieces lines).
Proof.
  induction lines as [|line lines IH]; intros vocab i.
  { simpl. split; [intros _ | by eauto]. split; [done|]. split; [constructor | done]. }
  cbn [load_vocab pieces map]. fold (pieces lines). fold (fields line).
  rewrite Forall_cons, NoDup_cons, Forall_cons.
  destruct (fields line) as [|piece [|freq [|extra more]]] eqn:Ef; cbn [hd length].
  - split; [by intros [? [=]] | by intros [[[=] _] _]].
  - split; [by intros [? [=]] | by intros [[[=] _] _]].
  - destruct (vocab !! piece) as [j|] eqn:Ev.
    + split; [by intros [? [=]] | by intros (_ & _ & [=] & _)].
    + rewrite (IH (<[piece:=i]> vocab) (i + 1)).
      assert (Forall (fun p => <[piece:=i]> vocab !! p = None) (pieces lines) <->
              (piece ∉ pieces lines) /\
              Forall (fun p => vocab !! p = None) (pieces lines)) as ->.
      { rewrite !Forall_forall. setoid_rewrite lookup_insert_None.
        split.
        - intros Hall. split; [|intros p Hp; by apply Hall].
          intros Hin. by destruct (Hall piece Hin) as [_ []].
        - intros [Hnin Hall] p Hp. split; [by apply Hall|].
          intros ->. done. }
      tauto.
  - split; [by intros [? [=]] | by intros [[[=] _] _]].
Qed.

(** C10. [Tokenizer(vocab_file)] succeeds exactly on the files in which
    every line has two whitespace-separated fields, no token occurs twice
    and no token is one of the five marker strings; on every other file
    the construction raises. *)
Theorem Tokenizer_init_succeeds_iff (vocab_file : list string) :
  (exists tokenizer, Tokenizer_init vocab_file = Ret tokenizer) <->
  Forall (fun line => length (fields line) = 2%nat) vocab_file /\
  NoDup (pieces vocab_file) /\
  Forall (fun piece => piece ∉ reserved) (pieces vocab_file).
Proof.
  assert (Forall (fun piece => piece ∉ reserved) (pieces vocab_file) <->
          Forall (fun piece => special_vocab !! piece = None) (pieces vocab_file))
    as -> by (apply Forall_iff; intros piece; symmetry; apply special_vocab_None).
  rewrite <- (load_vocab_succeeds_iff vocab_file special_vocab 5).
  unfold Tokenizer_init.
  destruct (load_vocab vocab_file special_vocab 5) as [vocab'|e].
  - split; eauto.
  - split; [by intros [? [=]] | by intros [? [=]]].
Qed.

(** The lines that the claim names: a blank line, a token without a
    frequency and a line of three fields raise [ValueError]; a repeated
    token and a marker string raise [AssertionError]. *)
Example Tokenizer_init_rejects :
  Tokenizer_init ["the 10"; ""] = Raise ValueError /\
  Tokenizer_init ["the"] = Raise ValueError /\
  Tokenizer_init ["the 10 x"] = Raise ValueError /\
  Tokenizer_init ["the 10"; "the 4"] = Raise AssertionError /\
  Tokenizer_init ["[CLS] 10"] = Raise AssertionError.
Proof. repeat split; vm_compute; reflexivity. Qed.

Example Tokenizer_init_demo :
  Tokenizer_init ["the 10"; "cat 5"; "sat 3"] = Ret Demo.tokenizer.
Proof. vm_compute. reflexivity. Qed.

(** ** Shard handles on the exit paths of a worker *)

Lemma keeps_open_bind {G A B : Type} (c : M (Process G) A) (k : A -> M (Process G) B) :
  keeps_open c -> (forall a, keeps_open (k a)) -> keeps_open (c ≫= k).
Proof.
  intros Hc Hk p r p'. munfold. destruct (c p) as [[a|e] p1] eqn:E.
  - intros Hka Ho. eapply Hk; [done|]. eapply Hc; done.
  - intros [= <- <-] Ho. eapply Hc; done.
Qed.

Lemma keeps_open_ret {G A : Type} (a : A) : keeps_open (G := G) (mret a).
Proof. intros p r p'. munfold. by intros [= <- <-]. Qed.

Lemma keeps_open_raise {G A : Type} (e : exn) : keeps_open (G := G) (A := A) (raise e).
Proof. intros p r p'. munfold. by intros [= <- <-]. Qed.

Lemma keeps_open_get {G : Type} : keeps_open (G := G) get.
Proof. intros p r p'. munfold. by intros [= <- <-]. Qed.

Lemma keeps_open_lift {G A : Type} (o : outcome A) : keeps_open (G := G) (lift o).
Proof. intros p r p'. munfold. by intros [= <- <-]. Qed.

Lemma keeps_open_next_io {G : Type} : keeps_open (G := G) next_io.
Proof.
  intros p r p'. unfold next_io. destruct (io p); by intros [= <- <-].
Qed.

Lemma keeps_open_on_builder {G A : Type} (c : M (BState G) A) : keeps_open (on_builder c).
Proof.
  intros p r p'. unfold on_builder. destruct (c _) as [r0 st]. by intros [= <- <-].
Qed.

Lemma keeps_open_py_shuffle {G A : Type} `{RandomSource G} (xs : list A) :
  keeps_open (py_shuffle xs).
Proof.
  intros p r p'. unfold py_shuffle. destruct (shuffle xs (rng p)). by intros [= <- <-].
Qed.

Lemma keeps_open_write_record {G : Type} (example : tf_example) :
  keeps_open (G := G) (write_record example).
Proof.
  unfold write_record.
  apply keeps_open_bind; [apply keeps_open_get|]. intros p0.
  apply keeps_open_bind; [apply keeps_open_lift|]. intros i.
  apply keeps_open_bind; [apply keeps_open_next_io|]. intros [|].
  - apply keeps_open_raise.
  - apply keeps_open_bind.
    + intros p r p'. unfold update_writer. munfold. intros [= <- <-].
      unfold handles_open. cbn. intros Ho. apply Forall_alter; [done|].
      by intros w _ Hw.
    + intros _ p r p'. unfold update_writer. munfold. by intros [= <- <-].
Qed.

Lemma keeps_open_write_if_example {G : Type} (example : option tf_example) :
  keeps_open (G := G) (write_if_example example).
Proof.
  destruct example; [apply keeps_open_write_record | apply keeps_open_ret].
Qed.

Lemma keeps_open_write_lines {G : Type} `{RandomSource G} (lines : list string) :
  keeps_open (write_lines lines).
Proof.
  induction lines as [|line lines IH]; cbn [write_lines]; [apply keeps_open_ret|].
  apply keeps_open_bind; [apply keeps_open_get|]. intros p0.
  apply keeps_open_bind; [|by intros _].
  destruct (_ || _); [|apply keeps_open_ret].
  apply keeps_open_bind; [apply keeps_open_on_builder|].
  apply keeps_open_write_if_example.
Qed.

Lemma keeps_open_write_examples {G : Type} `{RandomSource G} (input_file : list string) :
  keeps_open (ExampleWriter_write_examples input_file).
Proof.
  unfold ExampleWriter_write_examples.
  apply keeps_open_bind; [apply keeps_open_write_lines|]. intros _.
  apply keeps_open_bind; [apply keeps_open_on_builder|].
  apply keeps_open_write_if_example.
Qed.

Lemma keeps_open_py_time {G : Type} : keeps_open (G := G) py_time.
Proof. intros p r p'. unfold py_time. by intros [= <- <-]. Qed.

Lemma keeps_open_log_progress {G : Type} (start_time : Q) (file_no total : Z) :
  keeps_open (G := G) (log_progress start_time file_no total).
Proof.
  unfold log_progress.
  apply keeps_open_bind; [apply keeps_open_py_time|]. intros now.
  apply keeps_open_bind; [apply keeps_open_lift|]. intros percent.
  apply keeps_open_bind; [apply keeps_open_lift|]. intros rate.
  apply keeps_open_bind; [apply keeps_open_lift|]. intros eta.
  apply keeps_open_ret.
Qed.

Lemma keeps_open_write_files {G : Type} `{RandomSource G} (start_time : Q) (total : Z)
    (fnames : list (list string)) :
  forall file_no, keeps_open (write_files start_time total file_no fnames).
Proof.
  induction fnames as [|fname fnames IH]; intros file_no; cbn [write_files];
    [apply keeps_open_ret|].
  apply keeps_open_bind.
  { destruct (0 <? file_no); [apply keeps_open_log_progress | apply keeps_open_ret]. }
  intros _. apply keeps_open_bind; [apply keeps_open_write_examples | by intros _].
Qed.

Lemma finish_releases {G : Type} (p : Process G) :
  exists p', finish p = (Ret tt, p') /\ handles_released p'.
Proof.
  eexists. split; [reflexivity|]. unfold handles_released. cbn.
  apply Forall_fmap, Forall_true. done.
Qed.

Lemma open_writers_open (indices : list Z) (num_jobs job_id : Z) ws :
  open_writers indices num_jobs job_id = Ret ws ->
  Forall (fun w => closed w = false) ws.
Proof.
  revert ws. induction indices as [|i indices IH]; intros ws; cbn [open_writers].
  { by intros [= <-]. }
  destruct (py_mod i num_jobs) as [m|]; [|done].
  destruct (open_writers indices num_jobs job_id) as [ws0|]; [|done].
  intros [= <-]. specialize (IH ws0 eq_refl).
  destruct (m =? job_id); [by constructor | done].
Qed.

(** The job ends in one of two ways: it returns, and [finish] has closed
    every handle; or it raises, and every handle is still open. *)
Lemma run_job_exits {G : Type} `{RandomSource G} (job_id : Z) (args : Args)
    (p : Process G) r p' :
  handles_open p ->
  run_job job_id args p = (r, p') ->
  match r with
  | Ret _ => handles_released p'
  | Raise _ => handles_open p'
  end.
Proof.
  intros Ho. unfold run_job. munfold.
  destruct (own_files 0 (corpus_dir args) (num_processes args) job_id) as [fnames|e];
    [|by intros [= <- <-]].
  destruct (py_shuffle fnames p) as [r1 p1] eqn:E1.
  pose proof (keeps_open_py_shuffle fnames _ _ _ E1 Ho) as Ho1.
  unfold py_shuffle in E1. destruct (shuffle fnames (rng p)) as [ys g'].
  injection E1 as <- <-.
  destruct (py_time _) as [r2 p2] eqn:E2.
  pose proof (keeps_open_py_time _ _ _ E2 Ho1) as Ho2.
  unfold py_time in E2. injection E2 as <- <-.
  destruct (write_files _ _ _ ys _) as [[[]|e] p3] eqn:E3.
  - intros Hf. destruct (finish_releases p3) as (p4 & Hf' & Hrel).
    rewrite Hf' in Hf. by injection Hf as <- <-.
  - intros [= <- <-]. by eapply keeps_open_write_files.
Qed.

(** C8 (as the code has it). When the job returns, [finish()] has run and
    every owned shard handle is closed; when anything in the job raises
    after the writer was built, the error leaves [write_examples] before
    [finish()] is reached and every owned handle is still open. *)
Theorem write_examples_exits {G : Type} `{RandomSource G}
    (job_id : Z) (args : Args) (g : G) (faults : list bool) (time : nat -> Q) :
  match write_examples job_id args g faults time with
  | (Ret _, Some p') => handles_released p'
  | (Raise _, Some p') => handles_open p'
  | (Ret _, None) => False
  | (Raise _, None) => True
  end.
Proof.
  unfold write_examples.
  destruct (ExampleWriter_init _ _ _ _ _ _) as [w|e] eqn:Ew; [|done].
  destruct (run_job job_id args _) as [r p'] eqn:Er.
  apply run_job_exits in Er; [by destruct r|].
  unfold handles_open. cbn. unfold ExampleWriter_init in Ew.
  destruct (Tokenizer_init _); [|done].
  destruct (open_writers _ _ _) as [ws|] eqn:Eo; [|done].
  injection Ew as <-. cbn. by eapply open_writers_open.
Qed.

(** C8 (as stated) fails: job 0 of one process, two shards, a corpus of one
    file with the line "the cat sat"; the write of the flushed example
    raises, and both handles are left open. *)
Lemma write_examples_counterexample :
  exists p',
    write_examples 0
      {| vocab_file := ["the 10"; "cat 5"; "sat 3"];
         corpus_dir := [["the cat sat"]];
         max_seq_length := 16; num_processes := 1;
         blanks_separate_docs := false; num_out_files := 2 |}
      [Demo.half; Demo.half; Demo.half] [true] Demo.seconds = (Raise IOError, Some p') /\
    map closed (_writers (example_writer p')) = [false; false] /\
    ~ handles_released p'.
Proof.
  eexists. split; [vm_compute; reflexivity|].
  split; [reflexivity|]. unfold handles_released. cbn.
  intros Hall. apply Forall_cons in Hall as [Hc _]. discriminate Hc.
Qed.

(** The scenario of the specification: two documents of one line each,
    separated by a blank line, [max_seq_length = 16], one process, one
    shard. The blank line emits the first example, the end of the input
    the second, and the job closes its shard. *)
Example write_examples_scenario :
  exists p',
    write_examples 0
      {| vocab_file := ["the 10"; "cat 5"; "sat 3"; "it 2"; "ran 2"; "home 1"];
         corpus_dir := [["the cat sat"; ""; "it ran home"]];
         max_seq_length := 16; num_processes := 1;
         blanks_separate_docs := true; num_out_files := 1 |}
      [Demo.half; Demo.half; Demo.half; Demo.half; Demo.half] [] Demo.seconds =
      (Ret tt, Some p') /\
    map (fun w => map input_ids (records w)) (_writers (example_writer p')) =
      [[[2; 5; 6; 7; 3; 0; 0; 0; 0; 0; 0; 0; 0; 0; 0; 0];
        [2; 8; 9; 10; 3; 0; 0; 0; 0; 0; 0; 0; 0; 0; 0; 0]]] /\
    map closed (_writers (example_writer p')) = [true].
Proof. eexists. split; [vm_compute; reflexivity|]. split; reflexivity. Qed.

(** * Further properties *)

(** ** Strings *)

Lemma chars_inj (s1 s2 : string) :
  list_ascii_of_string s1 = list_ascii_of_string s2 -> s1 = s2.
Proof.
  intros E. rewrite <- (string_of_list_ascii_of_string s1),
    <- (string_of_list_ascii_of_string s2). by rewrite E.
Qed.

Lemma chars_append (s1 s2 : string) :
  list_ascii_of_string (s1 ++ s2) = list_ascii_of_string s1 ++ list_ascii_of_string s2.
Proof. induction s1 as [|c s1 IH]; simpl; [done | by rewrite IH]. Qed.

Lemma chars_rev_app (s1 s2 : string) :
  list_ascii_of_string (String.rev_app s1 s2) =
    reverse (list_ascii_of_string s1) ++ list_ascii_of_string s2.
Proof.
  revert s2. induction s1 as [|c s1 IH]; intros s2; simpl; [done|].
  rewrite IH, reverse_cons, <- app_assoc. done.
Qed.

Lemma chars_rev (s : string) :
  list_ascii_of_string (String.rev s) = reverse (list_ascii_of_string s).
Proof. unfold String.rev. rewrite chars_rev_app. simpl. by rewrite app_nil_r. Qed.

Lemma string_rev_involutive (s : string) : String.rev (String.rev s) = s.
Proof. apply chars_inj. by rewrite !chars_rev, reverse_involutive. Qed.

Lemma string_rev_append (s1 s2 : string) :
  String.rev (s1 ++ s2) = (String.rev s2 ++ String.rev s1)%string.
Proof.
  apply chars_inj. by rewrite chars_rev, !chars_append, !chars_rev, reverse_app.
Qed.

Lemma string_rev_empty (s : string) : String.rev s = EmptyString -> s = EmptyString.
Proof.
  intros E. apply (f_equal String.rev) in E. by rewrite string_rev_involutive in E.
Qed.

Lemma whitespace_only_chars (s : string) :
  whitespace_only s = forallb isspace (list_ascii_of_string s).
Proof. induction s as [|c s IH]; simpl; [done | by rewrite IH]. Qed.

Lemma spaceless_chars (s : string) :
  spaceless s = forallb (fun c => negb (isspace c)) (list_ascii_of_string s).
Proof. induction s as [|c s IH]; simpl; [done | by rewrite IH]. Qed.

Lemma forallb_reverse {A : Type} (f : A -> bool) (l : list A) :
  forallb f (reverse l) = forallb f l.
Proof.
  induction l as [|x l IH]; [done|].
  rewrite reverse_cons, forallb_app, IH. simpl. destruct (f x), (forallb f l); done.
Qed.

Lemma whitespace_only_rev (s : string) :
  whitespace_only (String.rev s) = whitespace_only s.
Proof. by rewrite !whitespace_only_chars, chars_rev, forallb_reverse. Qed.

Lemma spaceless_rev (s : string) : spaceless (String.rev s) = spaceless s.
Proof. by rewrite !spaceless_chars, chars_rev, forallb_reverse. Qed.

(** [lstrip] removes a whitespace-only prefix, and what is left does not
    start with whitespace. *)
Lemma lstrip_decompose (s : string) :
  exists ws, whitespace_only ws = true /\ s = (ws ++ lstrip s)%string /\
             match lstrip s with
             | EmptyString => True
             | String c _ => isspace c = false
             end.
Proof.
  induction s as [|c s (ws & Hws & Hs & Hhd)].
  { by exists EmptyString. }
  simpl. destruct (isspace c) eqn:Ec.
  - exists (String c ws). split; [simpl; by rewrite Ec, Hws|].
    split; [|done]. change (String c s = String c (ws ++ lstrip s)%string).
    by f_equal.
  - by exists EmptyString.
Qed.

(** Likewise [rstrip] removes a whitespace-only suffix. *)
Lemma rstrip_decompose (s : string) :
  exists ws, whitespace_only ws = true /\ s = (rstrip s ++ ws)%string.
Proof.
  unfold rstrip.
  destruct (lstrip_decompose (String.rev s)) as (ws & Hws & Hs & _).
  exists (String.rev ws). split; [by rewrite whitespace_only_rev|].
  rewrite <- string_rev_append, <- Hs. by rewrite string_rev_involutive.
Qed.

Lemma lstrip_empty_iff (s : string) :
  lstrip s = EmptyString <-> whitespace_only s = true.
Proof.
  split; [|apply lstrip_whitespace_only].
  induction s as [|c s IH]; [done|]. simpl.
  destruct (isspace c); [by apply IH | done].
Qed.

Lemma whitespace_only_append (s1 s2 : string) :
  whitespace_only (s1 ++ s2) = whitespace_only s1 && whitespace_only s2.
Proof. by rewrite !whitespace_only_chars, chars_append, forallb_app. Qed.

(** [strip] empties exactly the whitespace-only strings. *)
Lemma strip_empty_iff (s : string) :
  strip s = EmptyString <-> whitespace_only s = true.
Proof.
  split.
  - unfold strip. intros E.
    destruct (rstrip_decompose (lstrip s)) as (ws & Hws & Hs).
    rewrite E in Hs. simpl in Hs.
    apply lstrip_empty_iff. destruct (lstrip_decompose s) as (_ & _ & _ & Hhd).
    rewrite Hs in *. destruct ws as [|c ws]; [done|].
    simpl in Hws. rewrite Hhd in Hws. done.
  - intros Hw. unfold strip. by rewrite lstrip_whitespace_only.
Qed.

Lemma replace_empty_iff (old new : ascii) (s : string) :
  replace old new s = EmptyString <-> s = EmptyString.
Proof. by destruct s. Qed.

(** ** Tokens *)

Lemma split_go_tokens (s : string) :
  forall cur, spaceless cur = true ->
    Forall (fun tok => tok <> EmptyString /\ spaceless tok = true) (split_go cur s).
Proof.
  assert (forall cur, cur <> EmptyString -> spaceless cur = true ->
            String.rev cur <> EmptyString /\ spaceless (String.rev cur) = true) as Hrev.
  { intros cur Hne Hsp. split; [|by rewrite spaceless_rev].
    intros E. by apply string_rev_empty in E. }
  induction s as [|c s IH]; intros cur Hcur; simpl.
  - destruct cur; [constructor|]. constructor; [by apply Hrev | constructor].
  - destruct (isspace c) eqn:Ec.
    + destruct cur; [by apply IH|].
      constructor; [by apply Hrev | by apply IH].
    + apply IH. simpl. by rewrite Ec.
Qed.

Lemma split_go_nil_iff (s : string) :
  forall cur, split_go cur s = [] <-> cur = EmptyString /\ whitespace_only s = true.
Proof.
  induction s as [|c s IH]; intros cur; simpl.
  - destruct cur; [done|]. split; [done | by intros [[=] _]].
  - destruct (isspace c) eqn:Ec; simpl.
    + destruct cur; [by rewrite IH|]. split; [done | by intros [[=] _]].
    + rewrite IH. split; [by intros [[=] _] | by intros [_ [=]]].
Qed.

Lemma split_go_append_whitespace (s ws : string) :
  whitespace_only ws = true ->
  forall cur, split_go cur (s ++ ws) = split_go cur s.
Proof.
  intros Hws. induction s as [|c s IH]; intros cur; simpl.
  - destruct cur as [|c0 cur].
    + by apply split_go_nil_iff.
    + destruct ws as [|c ws]; [done|]. simpl in *.
      apply andb_true_iff in Hws as [-> Hws].
      f_equal. by apply split_go_nil_iff.
  - destruct (isspace c); [|by apply IH]. destruct cur; by rewrite IH.
Qed.

Lemma split_lstrip (s : string) : split (lstrip s) = split s.
Proof.
  unfold split. induction s as [|c s IH]; [done|]. simpl.
  destruct (isspace c) eqn:Ec; [done|]. simpl. by rewrite Ec.
Qed.

Lemma split_strip (s : string) : split (strip s) = split s.
Proof.
  unfold strip. rewrite <- (split_lstrip s).
  destruct (rstrip_decompose (lstrip s)) as (ws & Hws & Hs).
  rewrite Hs at 2. unfold split. by rewrite split_go_append_whitespace.
Qed.

Lemma isspace_newline_space : isspace "010" = true /\ isspace " " = true.
Proof. done. Qed.

Lemma split_go_replace_newline (s : string) :
  forall cur, split_go cur (replace "010" " " s) = split_go cur s.
Proof.
  induction s as [|c s IH]; intros cur; [done|]. simpl.
  destruct (Ascii.eqb_spec c "010") as [->|Hne].
  - change (isspace " ") with true. change (isspace "010") with true.
    destruct cur; by rewrite IH.
  - destruct (isspace c); [destruct cur; by rewrite IH | by rewrite IH].
Qed.

(** X1. The tokens that [add_line] passes to the vocabulary are the
    whitespace-separated fields of the raw line: stripping the line and
    turning its newlines into spaces first changes nothing. No token is
    empty or has whitespace in it, and a line has no token exactly when it
    is whitespace-only, that is, when [add_line] takes it for empty. *)
Theorem add_line_tokens (line : string) :
  tokenize (replace "010" " " (strip line)) = split line /\
  Forall (fun tok => tok <> EmptyString /\ spaceless tok = true) (split line) /\
  (split line = [] <-> whitespace_only line = true) /\
  (replace "010" " " (strip line) = EmptyString <-> whitespace_only line = true).
Proof.
  split.
  { unfold tokenize. rewrite split_strip. unfold split.
    rewrite split_go_replace_newline. apply split_strip. }
  split; [by apply split_go_tokens|].
  split.
  - unfold split. rewrite split_go_nil_iff. tauto.
  - rewrite replace_empty_iff. apply strip_empty_iff.
Qed.

(** ** The ids of a vocabulary *)

Lemma special_vocab_Some (piece : string) (x : Z) :
  special_vocab !! piece = Some x <->
  (piece, x) ∈ [("[MASK]", 4); ("[SEP]", 3); ("[CLS]", 2); ("[UNK]", 1); ("[PAD]", 0)].
Proof.
  unfold special_vocab. rewrite !lookup_insert_Some, lookup_empty, !elem_of_cons.
  pose proof (not_elem_of_nil (piece, x)).
  split.
  - intros Hl. repeat (destruct Hl as [[<- <-]|[? Hl]]; [tauto|]). done.
  - intros Hl. repeat (destruct Hl as [[= -> ->]|Hl]; [intuition congruence|]). done.
Qed.

Lemma load_vocab_lookup (lines : list string) :
  forall (vocab vocab' : gmap string Z) (i : Z),
    load_vocab lines vocab i = Ret vocab' ->
    (forall (k : nat) piece,
        pieces lines !! k = Some piece -> vocab' !! piece = Some (i + Z.of_nat k)) /\
    (forall piece, piece ∉ pieces lines -> vocab' !! piece = vocab !! piece).
Proof.
  induction lines as [|line lines IH]; intros vocab vocab' i Hload.
  { simpl in Hload. injection Hload as <-. split; [by intros k p [=]|done]. }
  pose proof Hload as Hrest. cbn [load_vocab] in Hrest. fold (fields line) in Hrest.
  cbn [pieces map]. fold (pieces lines).
  destruct (fields line) as [|piece [|freq [|extra more]]] eqn:Ef; try done.
  destruct (vocab !! piece) as [j|] eqn:Ev; [done|]. cbn [hd].
  assert (piece ∉ pieces lines) as Hfresh.
  { assert (exists v, load_vocab lines (<[piece:=i]> vocab) (i + 1) = Ret v) as Hex
      by eauto.
    apply load_vocab_succeeds_iff in Hex as (_ & _ & Hall).
    intros Hin. rewrite Forall_forall in Hall. specialize (Hall piece Hin).
    by rewrite lookup_insert_eq in Hall. }
  destruct (IH _ _ _ Hrest) as [Ha Hb]. split.
  - intros [|k] p; cbn; intros Hk.
    + injection Hk as <-. rewrite Hb by done. rewrite lookup_insert_eq. f_equal. lia.
    + rewrite (Ha k p Hk). f_equal. lia.
  - intros p [Hne Hnin]%not_elem_of_cons. rewrite Hb by done.
    by rewrite lookup_insert_ne.
Qed.

(** X2. In a tokenizer built from a vocabulary file, the five markers have
    the ids 0 to 4, the token of line [k] has the id [5 + k], nothing else
    has an id, and no two tokens share an id. *)
Theorem Tokenizer_init_ids (vocab_file : list string) (tokenizer : Tokenizer) :
  Tokenizer_init vocab_file = Ret tokenizer ->
  unk_id tokenizer = 1 /\
  vocab tokenizer !! "[PAD]" = Some 0 /\ vocab tokenizer !! "[UNK]" = Some 1 /\
  vocab tokenizer !! "[CLS]" = Some 2 /\ vocab tokenizer !! "[SEP]" = Some 3 /\
  vocab tokenizer !! "[MASK]" = Some 4 /\
  (forall (k : nat) piece,
      pieces vocab_file !! k = Some piece ->
      vocab tokenizer !! piece = Some (5 + Z.of_nat k)) /\
  (forall piece,
      piece ∉ reserved -> piece ∉ pieces vocab_file -> vocab tokenizer !! piece = None) /\
  (forall p q x,
      vocab tokenizer !! p = Some x -> vocab tokenizer !! q = Some x -> p = q).
Proof.
  unfold Tokenizer_init. intros Hinit.
  destruct (load_vocab vocab_file special_vocab 5) as [v|] eqn:Hload; [|done].
  injection Hinit as <-. cbn [unk_id vocab].
  assert (exists v', load_vocab vocab_file special_vocab 5 = Ret v') as Hok by eauto.
  apply load_vocab_succeeds_iff in Hok as (_ & _ & Hdisj).
  rewrite Forall_forall in Hdisj.
  destruct (load_vocab_lookup _ _ _ _ Hload) as [Hpieces Hother].
  assert (forall p x, special_vocab !! p = Some x -> v !! p = Some x /\ 0 <= x < 5)
    as Hspecial.
  { intros p x Hp. split.
    - rewrite Hother; [done|]. intros Hin. specialize (Hdisj p Hin). congruence.
    - apply special_vocab_Some in Hp. rewrite !elem_of_cons in Hp.
      pose proof (not_elem_of_nil (p, x)).
      destruct Hp as [[= -> ->]|[[= -> ->]|[[= -> ->]|[[= -> ->]|[[= -> ->]|?]]]]];
        [lia..|done]. }
  assert (forall p x, v !! p = Some x ->
            (special_vocab !! p = Some x /\ 0 <= x < 5) \/
            (exists k : nat, pieces vocab_file !! k = Some p /\ x = 5 + Z.of_nat k))
    as Hcases.
  { intros p x Hp. destruct (decide (p ∈ pieces vocab_file)) as [Hin|Hnin].
    - right. apply list_elem_of_lookup_1 in Hin as [k Hk]. exists k. split; [done|].
      rewrite (Hpieces k p Hk) in Hp. by injection Hp.
    - left. rewrite (Hother p Hnin) in Hp. split; [done|]. apply (Hspecial p x Hp). }
  split; [done|].
  split; [by apply Hspecial|]. split; [by apply Hspecial|].
  split; [by apply Hspecial|]. split; [by apply Hspecial|].
  split; [by apply Hspecial|].
  split; [done|]. split.
  - intros p Hres Hnin. rewrite (Hother p Hnin). by apply special_vocab_None.
  - intros p q x Hp Hq.
    destruct (Hcases p x Hp) as [[Hsp ?]|(k & Hk & Ex)];
      destruct (Hcases q x Hq) as [[Hsq ?]|(k' & Hk' & Ex')]; try lia.
    + apply special_vocab_Some in Hsp, Hsq. rewrite !elem_of_cons in Hsp, Hsq.
      pose proof (not_elem_of_nil (p, x)). pose proof (not_elem_of_nil (q, x)).
      destruct Hsp as [[= -> ->]|[[= -> ->]|[[= -> ->]|[[= -> ->]|[[= -> ->]|?]]]]];
        try done;
        destruct Hsq as [[= ->]|[[= ->]|[[= ->]|[[= ->]|[[= ->]|?]]]]]; done.
    + assert (k' = k) as -> by lia. congruence.
Qed.

Lemma Tokenizer_init_ids_witness :
  Tokenizer_init ["the 10"; "cat 5"; "sat 3"] = Ret Demo.tokenizer /\
  vocab Demo.tokenizer !! "[SEP]" = Some 3 /\
  (forall (k : nat) piece,
      pieces ["the 10"; "cat 5"; "sat 3"] !! k = Some piece ->
      vocab Demo.tokenizer !! piece = Some (5 + Z.of_nat k)).
Proof.
  split; [exact Tokenizer_init_demo|].
  split;
    apply (Tokenizer_init_ids ["the 10"; "cat 5"; "sat 3"] Demo.tokenizer
             Tokenizer_init_demo).
Defined.

(** X3. With such a tokenizer, [convert_tokens_to_ids] gives one id per
    token, every id lies in [[0, 5 + n)] for a file of [n] lines, and a
    token that is neither a marker nor in the file gets the id 1, the id
    of [[UNK]]. *)
Theorem convert_tokens_to_ids_range
    (vocab_file : list string) (tokenizer : Tokenizer) (tokens : list string) :
  Tokenizer_init vocab_file = Ret tokenizer ->
  length (convert_tokens_to_ids tokenizer tokens) = length tokens /\
  Forall (fun id => 0 <= id < 5 + len vocab_file)
    (convert_tokens_to_ids tokenizer tokens) /\
  (forall tok, tok ∉ reserved -> tok ∉ pieces vocab_file ->
               convert_tokens_to_ids tokenizer [tok] = [1]).
Proof.
  intros Hinit. unfold convert_tokens_to_ids.
  unfold Tokenizer_init in Hinit.
  destruct (load_vocab vocab_file special_vocab 5) as [v|] eqn:Hload; [|done].
  injection Hinit as <-. cbn [unk_id vocab].
  assert (exists v', load_vocab vocab_file special_vocab 5 = Ret v') as Hok by eauto.
  apply load_vocab_succeeds_iff in Hok as (_ & _ & Hdisj).
  destruct (load_vocab_lookup _ _ _ _ Hload) as [Hpieces Hother].
  split; [apply length_map|]. split.
  - apply Forall_map, Forall_forall. intros tok _. cbn.
    pose proof (len_nonneg vocab_file).
    destruct (decide (tok ∈ pieces vocab_file)) as [Hin|Hnin].
    + apply list_elem_of_lookup_1 in Hin as [k Hk]. rewrite (Hpieces k tok Hk). cbn.
      apply lookup_lt_Some in Hk. unfold pieces in Hk. rewrite length_map in Hk.
      unfold len. lia.
    + rewrite (Hother tok Hnin).
      destruct (special_vocab !! tok) as [x|] eqn:Hx; cbn; [|lia].
      apply special_vocab_Some in Hx. rewrite !elem_of_cons in Hx.
      pose proof (not_elem_of_nil (tok, x)).
      destruct Hx as [[= -> ->]|[[= -> ->]|[[= -> ->]|[[= -> ->]|[[= -> ->]|?]]]]];
        [lia..|done].
  - intros tok Hres Hnin. cbn. rewrite (Hother tok Hnin).
    apply special_vocab_None in Hres. by rewrite Hres.
Qed.

Lemma convert_tokens_to_ids_range_witness :
  Tokenizer_init ["the 10"; "cat 5"; "sat 3"] = Ret Demo.tokenizer /\
  Forall (fun id => 0 <= id < 5 + len ["the 10"; "cat 5"; "sat 3"]%string)
    (convert_tokens_to_ids Demo.tokenizer ["the"; "dog"; "[SEP]"]).
Proof.
  split; [exact Tokenizer_init_demo|].
  apply (convert_tokens_to_ids_range ["the 10"; "cat 5"; "sat 3"] Demo.tokenizer
           ["the"; "dog"; "[SEP]"] Tokenizer_init_demo).
Defined.

(** ** What the packing keeps *)

Lemma spec_distribute_conserves {G : Type} `{RandomSource G}
    (target : Z) sentences f0 s0 (g : G) f s g' :
  spec_distribute target sentences f0 s0 g f s g' ->
  exists f1 s1,
    f = f0 ++ f1 /\ s = s0 ++ s1 /\
    f1 `sublist_of` concat sentences /\ s1 `sublist_of` concat sentences /\
    f1 ++ s1 ≡ₚ concat sentences.
Proof.
  induction 1 as [|sentence rest f0 s0 g g1 f s g' _ _ (f1 & s1 & -> & -> & Hf & Hs & Hp)
                  |sentence rest f0 s0 g g1 f s g' _ _ (f1 & s1 & -> & -> & Hf & Hs & Hp)].
  - exists [], []. by rewrite !app_nil_r.
  - exists (sentence ++ f1), s1. simpl. rewrite <- !app_assoc.
    split; [done|]. split; [done|].
    split; [by apply sublist_app|]. split; [by apply sublist_inserts_l|].
    by rewrite Hp.
  - exists f1, (sentence ++ s1). simpl. rewrite <- !app_assoc.
    split; [done|]. split; [done|].
    split; [by apply sublist_inserts_l|]. split; [by apply sublist_app|].
    rewrite <- Hp. rewrite !app_assoc. by rewrite (Permutation_app_comm f1 sentence).
Qed.

(** X4. The loop of [_create_example] loses and invents nothing: the two
    segments together hold the tokens of the pending sentences, each token
    once, and inside each segment the tokens keep the order they had. *)
Theorem distribute_conserves {G : Type} `{RandomSource G}
    (target : Z) (sentences : list (list Z)) (b : ExampleBuilder) (g : G) :
  exists first second g',
    distribute target sentences [] [] (b, g) = (Ret (first, second), (b, g')) /\
    first `sublist_of` concat sentences /\
    second `sublist_of` concat sentences /\
    first ++ second ≡ₚ concat sentences.
Proof.
  destruct (distribute_spec target sentences [] [] b g) as (f & s & g' & Hd & Hs).
  exists f, s, g'. split; [done|].
  by apply spec_distribute_conserves in Hs as (f1 & s1 & -> & -> & ? & ? & ?).
Qed.

Lemma len_concat (sentences : list (list Z)) :
  len (concat sentences) = sum (map len sentences).
Proof.
  induction sentences as [|s rest IH]; [done|]. simpl. rewrite len_app. lia.
Qed.

Lemma slice_to_all {A : Type} (n : Z) (xs : list A) : len xs <= n -> slice_to n xs = xs.
Proof.
  intros Hn. pose proof (len_nonneg xs). rewrite slice_to_nonneg by lia.
  apply take_ge. unfold len in *. lia.
Qed.

(** X5. Pending text that fits is never cut: when the pending sentences
    have at most [max_length - 3] tokens, the example that
    [_create_example] returns holds every one of them, between the
    markers, and the mask counts them all. *)
Theorem create_example_keeps_all {G : Type} `{RandomSource G}
    (b : ExampleBuilder) (g : G) (ex : tf_example) (st' : BState G) :
  sum (map len (_current_sentences b)) <= _max_length b - 3 ->
  _create_example (b, g) = (Ret ex, st') ->
  exists cls sep pad first second,
    vocab (_tokenizer b) !! "[CLS]" = Some cls /\
    vocab (_tokenizer b) !! "[SEP]" = Some sep /\
    vocab (_tokenizer b) !! "[PAD]" = Some pad /\
    first ++ second ≡ₚ concat (_current_sentences b) /\
    input_ids ex =
      ([cls] ++ first ++ [sep] ++ (if nonempty second then second ++ [sep] else [])) ++
      times pad (_max_length b - len first - len second -
                 (if nonempty second then 3 else 2)) /\
    sum (input_mask ex) =
      sum (map len (_current_sentences b)) + (if nonempty second then 3 else 2).
Proof.
  intros Hfit Hc. destruct st' as [b' g'].
  apply create_example_inv in Hc as (_ & _ & _ & _ & _ & Hex).
  destruct (Hex ex eq_refl)
    as (first & second & g0 & g1 & cls & sep & pad & Hd & Hcls & Hsep & Hpad & ->).
  apply spec_distribute_conserves in Hd as (f1 & s1 & -> & -> & _ & _ & Hperm).
  change ([] ++ f1) with f1. change ([] ++ s1) with s1. clear Hex.
  assert (len f1 + len s1 = sum (map len (_current_sentences b))) as Hlen.
  { rewrite <- len_concat, <- len_app. unfold len. by rewrite Hperm. }
  pose proof (len_nonneg f1). pose proof (len_nonneg s1).
  assert (truncate (_max_length b) f1 s1 = (f1, s1)) as ->.
  { unfold truncate. rewrite (slice_to_all _ f1) by lia.
    by rewrite slice_to_all by lia. }
  exists cls, sep, pad, f1, s1. cbn [fst snd].
  split; [done|]. split; [done|]. split; [done|]. split; [done|].
  unfold assembled. cbn [input_ids input_mask].
  pose proof (len_unpadded_ids cls sep f1 s1) as Eu.
  assert (nonempty s1 = false -> len s1 = 0) as Hs1 by (by destruct s1).
  split.
  - unfold unpadded_ids in *. rewrite Eu. do 2 f_equal. destruct (nonempty s1); lia.
  - rewrite sum_app, !sum_times, Eu. destruct (nonempty s1); lia.
Qed.

Lemma create_example_keeps_all_witness :
  sum (map len (_current_sentences (Demo.pending 16 [[5; 6]; [7]]))) <=
    _max_length (Demo.pending 16 [[5; 6]; [7]]) - 3 /\
  match _create_example (Demo.pending 16 [[5; 6]; [7]], [Demo.half; Demo.half]) with
  | (Ret ex, _) => 3 + 2 <= sum (input_mask ex)
  | (Raise _, _) => False
  end.
Proof.
  assert (sum (map len (_current_sentences (Demo.pending 16 [[5; 6]; [7]]))) <=
          _max_length (Demo.pending 16 [[5; 6]; [7]]) - 3) as Hfit
    by (vm_compute; discriminate).
  split; [exact Hfit|].
  destruct (_create_example (Demo.pending 16 [[5; 6]; [7]], [Demo.half; Demo.half]))
    as [[ex|e] st'] eqn:E.
  - destruct (create_example_keeps_all _ _ _ _ Hfit E)
      as (cls & sep & pad & first & second & _ & _ & _ & _ & _ & Hs).
    rewrite Hs. destruct (nonempty second); vm_compute; discriminate.
  - vm_compute in E. discriminate E.
Defined.

(** ** Bounds that the builder keeps *)

Lemma add_line_bounds {G : Type} `{RandomSource G}
    (line : string) (b : ExampleBuilder) (g : G) r (b' : ExampleBuilder) (g' : G) :
  5 <= _target_length b <= _max_length b ->
  0 <= _current_length b < _target_length b ->
  add_line line (b, g) = (r, (b', g')) ->
  5 <= _target_length b' <= _max_length b' /\
  0 <= _current_length b' < _target_length b'.
Proof.
  intros Ht Hc. rewrite add_line_eq. cbn zeta.
  assert (forall b1, _max_length b1 = _max_length b ->
            (example ← _create_example; mret (Some example)) (b1, g) = (r, (b', g')) ->
            5 <= _target_length b' <= _max_length b' /\
            0 <= _current_length b' < _target_length b') as Hcreate.
  { intros b1 Hm Hcr. apply create_some_inv in Hcr as (r0 & Hcr & _).
    apply create_example_inv in Hcr as (_ & -> & -> & _ & Htg & _). lia. }
  destruct (negb _ && negb _); [by apply Hcreate|].
  destruct (Z.leb_spec (_target_length b)
              (_current_length b +
               len (convert_tokens_to_ids (_tokenizer b)
                      (tokenize (replace "010" " " (strip line))))));
    [by apply Hcreate|].
  intros [= <- <- <-]. cbn.
  pose proof (len_nonneg (convert_tokens_to_ids (_tokenizer b)
                            (tokenize (replace "010" " " (strip line))))). lia.
Qed.

(** X6. With [max_length >= 5], in every state the builder goes through
    the target length lies in [[5, max_length]] and the pending length is
    below it: the pending sentences never hold [max_length] tokens or more
    between two calls. *)
Theorem reachable_bounds {G : Type} `{RandomSource G}
    (tokenizer : Tokenizer) (max_length : Z) (st : BState G) :
  5 <= max_length ->
  reachable tokenizer max_length st ->
  5 <= _target_length (fst st) <= max_length /\
  0 <= _current_length (fst st) < _target_length (fst st) /\
  sum (map len (_current_sentences (fst st))) < max_length.
Proof.
  intros Hmax Hreach.
  assert (5 <= _target_length (fst st) <= _max_length (fst st) /\
          0 <= _current_length (fst st) < _target_length (fst st)) as Hb.
  { induction Hreach as [g|[b g] line r [b' g'] _ [Ht Hc] Hadd]; [cbn; lia|].
    by eapply add_line_bounds. }
  destruct (reachable_inv _ _ _ Hreach) as (Hp & Hm & _ & _).
  unfold pending_invariant in Hp. lia.
Qed.

Lemma reachable_bounds_witness :
  5 <= 16 /\
  sum (map len (_current_sentences
                  (fst (snd (add_line "the cat sat" (Demo.builder 16, [Demo.half])))))) < 16.
Proof.
  split; [lia|].
  apply (reachable_bounds Demo.tokenizer 16
           (snd (add_line "the cat sat" (Demo.builder 16, [Demo.half]))));
    [lia|].
  eapply reachable_add_line; [apply reachable_init | apply surjective_pairing].
Defined.

Lemma Tokenizer_init_markers (vocab_file : list string) (tokenizer : Tokenizer) :
  Tokenizer_init vocab_file = Ret tokenizer -> has_markers tokenizer.
Proof.
  unfold Tokenizer_init. intros Hinit.
  destruct (load_vocab vocab_file special_vocab 5) as [v|] eqn:Hload; [|done].
  injection Hinit as <-.
  assert (exists v', load_vocab vocab_file special_vocab 5 = Ret v') as Hok by eauto.
  apply load_vocab_succeeds_iff in Hok as (_ & _ & Hdisj).
  rewrite Forall_forall in Hdisj.
  destruct (load_vocab_lookup _ _ _ _ Hload) as [_ Hother].
  assert (forall p x, special_vocab !! p = Some x -> v !! p = Some x) as Hsp.
  { intros p x Hp. rewrite Hother; [done|].
    intros Hin. specialize (Hdisj p Hin). congruence. }
  unfold has_markers. cbn [vocab].
  split; [|split]; eexists; apply Hsp; reflexivity.
Qed.

(** X7. With a tokenizer built from a vocabulary file and
    [max_length >= 5], [add_line] never raises, whatever the line and the
    state; when it returns an example it has emptied the pending
    sentences. *)
Theorem add_line_returns {G : Type} `{RandomSource G}
    (vocab_file : list string) (b : ExampleBuilder) (g : G) (line : string) :
  Tokenizer_init vocab_file = Ret (_tokenizer b) ->
  5 <= _max_length b ->
  exists r b' g',
    add_line line (b, g) = (Ret r, (b', g')) /\
    (is_Some r -> _current_sentences b' = [] /\ _current_length b' = 0).
Proof.
  intros Hinit Hmax. apply Tokenizer_init_markers in Hinit.
  rewrite add_line_eq. cbn zeta.
  assert (forall b1, _max_length b1 = _max_length b -> _tokenizer b1 = _tokenizer b ->
            exists r b' g',
              (example ← _create_example; mret (Some example)) (b1, g) =
                (Ret r, (b', g')) /\
              (is_Some r -> _current_sentences b' = [] /\ _current_length b' = 0))
    as Hcreate.
  { intros b1 Hm Htk.
    destruct (create_example_total b1 g) as (ex & [b' g'] & Hc);
      [by rewrite Hm | by rewrite Htk|].
    exists (Some ex), b', g'. munfold. rewrite Hc. split; [done|]. intros _.
    by apply create_example_inv in Hc as (? & ? & _). }
  destruct (negb _ && negb _); [by apply Hcreate|].
  destruct (_ <=? _); [by apply Hcreate|].
  eexists None, _, _. split; [done|]. by intros [? [=]].
Qed.

Lemma add_line_returns_witness :
  Tokenizer_init ["the 10"; "cat 5"; "sat 3"] = Ret (_tokenizer (Demo.builder 5)) /\
  5 <= _max_length (Demo.builder 5) /\
  exists r b' g',
    add_line "the dog sat on the mat" (Demo.builder 5, [Demo.half; 0; 7]) =
      (Ret r, (b', g')) /\
    (is_Some r -> _current_sentences b' = [] /\ _current_length b' = 0).
Proof.
  split; [exact Tokenizer_init_demo|]. split; [cbn; lia|].
  apply (add_line_returns ["the 10"; "cat 5"; "sat 3"] (Demo.builder 5));
    [exact Tokenizer_init_demo | cbn; lia].
Defined.

(** ** The shape of an example *)

Lemma add_line_emits_assembled {G : Type} `{RandomSource G}
    (b : ExampleBuilder) (g : G) (line : string) (ex : tf_example) (st' : BState G) :
  add_line line (b, g) = (Ret (Some ex), st') ->
  exists cls sep pad first second,
    vocab (_tokenizer b) !! "[CLS]" = Some cls /\
    vocab (_tokenizer b) !! "[SEP]" = Some sep /\
    vocab (_tokenizer b) !! "[PAD]" = Some pad /\
    ex = assembled cls sep pad (_max_length b) first second /\
    (2 <= _max_length b -> len (unpadded_ids cls sep first second) <= _max_length b).
Proof.
  rewrite add_line_eq. cbn zeta.
  assert (forall b1, _max_length b1 = _max_length b -> _tokenizer b1 = _tokenizer b ->
            (example ← _create_example; mret (Some example)) (b1, g) =
              (Ret (Some ex), st') ->
            exists cls sep pad first second,
              vocab (_tokenizer b) !! "[CLS]" = Some cls /\
              vocab (_tokenizer b) !! "[SEP]" = Some sep /\
              vocab (_tokenizer b) !! "[PAD]" = Some pad /\
              ex = assembled cls sep pad (_max_length b) first second /\
              (2 <= _max_length b ->
               len (unpadded_ids cls sep first second) <= _max_length b)) as Hcreate.
  { intros b1 Hm Htk Hc. apply create_some_inv in Hc as ([ex0|e] & Hc & Hr); [|done].
    injection Hr as <-. destruct st' as [b' g'].
    apply create_example_inv in Hc as (_ & _ & _ & _ & _ & Hex).
    destruct (Hex ex eq_refl)
      as (first & second & g0 & g1 & cls & sep & pad & _ & ? & ? & ? & ->).
    rewrite Hm, Htk in *.
    exists cls, sep, pad, (fst (truncate (_max_length b) first second)),
      (snd (truncate (_max_length b) first second)).
    repeat (split; [done|]). intros Hmax. by apply truncate_fits. }
  destruct (negb _ && negb _); [by apply Hcreate|].
  destruct (_ <=? _); [by apply Hcreate | done].
Qed.

(** X8. An example that [add_line] returns on a builder with
    [max_length >= 2] has [k] real positions followed by padding, where
    [2 <= k <= max_length]: [input_ids] starts with [[CLS]], its first [k]
    ids end with [[SEP]] and the rest is [[PAD]]; [input_mask] is [k] ones
    then zeros, so its sum is [k]; [segment_ids] is zeros (at least two),
    then ones, then zeros on the padding. *)
Theorem emitted_example_shape {G : Type} `{RandomSource G}
    (b : ExampleBuilder) (g : G) (line : string) (ex : tf_example) (st' : BState G) :
  2 <= _max_length b ->
  add_line line (b, g) = (Ret (Some ex), st') ->
  exists (cls sep pad : Z) (body : list Z) (zeros ones : nat),
    vocab (_tokenizer b) !! "[CLS]" = Some cls /\
    vocab (_tokenizer b) !! "[SEP]" = Some sep /\
    vocab (_tokenizer b) !! "[PAD]" = Some pad /\
    let k := S (length body + 1) in
    let padding := (Z.to_nat (_max_length b) - k)%nat in
    (k <= Z.to_nat (_max_length b))%nat /\
    input_ids ex = [cls] ++ body ++ [sep] ++ replicate padding pad /\
    input_mask ex = replicate k 1 ++ replicate padding 0 /\
    sum (input_mask ex) = Z.of_nat k /\
    (2 <= zeros)%nat /\ (zeros + ones = k)%nat /\
    segment_ids ex = replicate zeros 0 ++ replicate ones 1 ++ replicate padding 0.
Proof.
  intros Hmax Hadd.
  apply add_line_emits_assembled in Hadd
    as (cls & sep & pad & first & second & Hc & Hs & Hp & -> & Hfit).
  specialize (Hfit Hmax). rewrite len_unpadded_ids in Hfit.
  pose proof (len_nonneg first) as Hf. pose proof (len_nonneg second) as Hs2.
  exists cls, sep, pad,
    (first ++ (if nonempty second then [sep] ++ second else [])),
    (length first + 2)%nat, (if nonempty second then length second + 1 else 0)%nat.
  split; [done|]. split; [done|]. split; [done|]. cbn zeta.
  assert (length (first ++ (if nonempty second then [sep] ++ second else [])) =
          (length first + (if nonempty second then length second + 1 else 0))%nat) as El.
  { rewrite length_app. destruct second; cbn [nonempty]; simpl; lia. }
  rewrite El.
  assert (len (unpadded_ids cls sep first second) =
          Z.of_nat (S (length first +
                       (if nonempty second then length second + 1 else 0) + 1))) as Ek.
  { rewrite len_unpadded_ids. unfold len. destruct (nonempty second); lia. }
  assert (forall x : Z,
            times x (_max_length b - len (unpadded_ids cls sep first second)) =
            replicate (Z.to_nat (_max_length b) -
                       S (length first +
                          (if nonempty second then length second + 1 else 0) + 1)) x)
    as Epad.
  { intros x. unfold times. f_equal. rewrite Ek. lia. }
  unfold assembled. cbn [input_ids input_mask segment_ids]. rewrite !Epad.
  split. { unfold len in Hfit. destruct (nonempty second); lia. }
  split.
  { unfold unpadded_ids. rewrite <- !app_assoc. do 2 f_equal.
    destruct (nonempty second); by rewrite <- ?app_assoc. }
  assert (times 1 (len (unpadded_ids cls sep first second)) =
          replicate (S (length first +
                        (if nonempty second then length second + 1 else 0) + 1)) 1)
    as Emask.
  { unfold times. f_equal. rewrite Ek. lia. }
  rewrite Emask.
  split; [done|]. split.
  { rewrite sum_app.
    assert (forall (n : nat) x, sum (replicate n x) = x * Z.of_nat n) as Er.
    { intros n x. induction n as [|n IH]; [simpl; lia|].
      rewrite Nat2Z.inj_succ. unfold sum in *. cbn [replicate foldr]. rewrite IH. lia. }
    rewrite !Er. lia. }
  split; [lia|]. split; [destruct (nonempty second); lia|].
  rewrite <- app_assoc. f_equal.
  - unfold times. f_equal. unfold len. lia.
  - f_equal. destruct second; cbn [nonempty]; [done|].
    unfold times. f_equal. unfold len. lia.
Qed.

Lemma emitted_example_shape_witness :
  2 <= _max_length (Demo.pending 16 [[5; 6; 7]]) /\
  exists ex st',
    add_line "" (Demo.pending 16 [[5; 6; 7]], [Demo.half; Demo.half]) =
      (Ret (Some ex), st') /\
    exists k : nat, sum (input_mask ex) = Z.of_nat k /\ (k <= 16)%nat.
Proof.
  split; [vm_compute; discriminate|].
  destruct (add_line "" (Demo.pending 16 [[5; 6; 7]], [Demo.half; Demo.half]))
    as [[[ex|]|e] st'] eqn:E.
  - exists ex, st'. split; [done|].
    destruct (emitted_example_shape (Demo.pending 16 [[5; 6; 7]]) _ _ _ _
                ltac:(vm_compute; discriminate) E)
      as (cls & sep & pad & body & zeros & ones & _ & _ & _ & Hk & _ & _ & Hs & _).
    eexists. split; [exact Hs|]. exact Hk.
  - vm_compute in E. discriminate E.
  - vm_compute in E. discriminate E.
Defined.

(** ** The shards of a job *)

Lemma open_writers_eq (indices : list Z) (num_jobs job_id : Z) :
  num_jobs <> 0 ->
  open_writers indices num_jobs job_id =
    Ret (map fresh_writer (filter (fun i => i mod num_jobs = job_id) indices)).
Proof.
  intros Hn. induction indices as [|i indices IH]; [done|].
  cbn [open_writers]. unfold py_mod. destruct (Z.eqb_spec num_jobs 0); [done|].
  rewrite IH, filter_cons.
  destruct (Z.eqb_spec (i mod num_jobs) job_id), (decide (i mod num_jobs = job_id));
    done.
Qed.

(** X9. A writer for job [job_id] of [num_jobs] (not zero) opens exactly
    the shards [i] below [num_out_files] with [i % num_jobs == job_id], in
    increasing order, each open and empty, and has written nothing. With
    zero jobs and a shard to open the construction raises
    [ZeroDivisionError]. A job with [0 <= job_id < num_jobs <=
    num_out_files] owns the shard [job_id], so it owns a shard. *)
Theorem ExampleWriter_init_shards
    (job_id : Z) (vocab_file : list string) (tokenizer : Tokenizer)
    (max_seq_length num_jobs : Z) (blanks : bool) (num_out_files : Z) :
  Tokenizer_init vocab_file = Ret tokenizer ->
  (num_jobs <> 0 ->
   ExampleWriter_init job_id vocab_file max_seq_length num_jobs blanks num_out_files =
     Ret {| _blanks_separate_docs := blanks;
            _example_builder := ExampleBuilder_init tokenizer max_seq_length;
            _writers := map fresh_writer (owned_shards num_out_files num_jobs job_id);
            n_written := 0 |}) /\
  (num_jobs = 0 -> 0 < num_out_files ->
   ExampleWriter_init job_id vocab_file max_seq_length num_jobs blanks num_out_files =
     Raise ZeroDivisionError) /\
  (forall i, i ∈ owned_shards num_out_files num_jobs job_id <->
             0 <= i < num_out_files /\ i mod num_jobs = job_id) /\
  (0 <= job_id < num_jobs -> num_jobs <= num_out_files ->
   job_id ∈ owned_shards num_out_files num_jobs job_id).
Proof.
  intros Htok. unfold ExampleWriter_init, owned_shards. rewrite Htok.
  assert (forall i, i ∈ filter (fun i => i mod num_jobs = job_id) (seqZ 0 num_out_files)
                    <-> 0 <= i < num_out_files /\ i mod num_jobs = job_id) as Hown.
  { intros i. rewrite list_elem_of_filter, elem_of_seqZ. tauto. }
  split; [|split; [|split]].
  - intros Hn. by rewrite open_writers_eq.
  - intros -> Hfiles. rewrite seqZ_cons by done. done.
  - done.
  - intros Hjob Hle. apply Hown. split; [lia|]. apply Z.mod_small. lia.
Qed.

Lemma ExampleWriter_init_shards_witness :
  Tokenizer_init ["the 10"; "cat 5"; "sat 3"] = Ret Demo.tokenizer /\
  ExampleWriter_init 1 ["the 10"; "cat 5"; "sat 3"] 16 2 true 5 =
    Ret {| _blanks_separate_docs := true;
           _example_builder := ExampleBuilder_init Demo.tokenizer 16;
           _writers := map fresh_writer (owned_shards 5 2 1);
           n_written := 0 |} /\
  owned_shards 5 2 1 = [1; 3].
Proof.
  split; [exact Tokenizer_init_demo|]. split; [|reflexivity].
  apply (ExampleWriter_init_shards 1 ["the 10"; "cat 5"; "sat 3"] Demo.tokenizer
           16 2 true 5 Tokenizer_init_demo). lia.
Defined.

(** ** Round robin *)

Lemma turns_succ (n j m : Z) :
  0 <= m ->
  turns n j (m + 1) = turns n j m ++ (if decide (m mod n = j) then [m] else []).
Proof.
  intros Hm. unfold turns. rewrite seqZ_app by lia. by rewrite filter_app.
Qed.

Lemma turns_length (n j : Z) (m : nat) :
  0 <= j < n ->
  Z.of_nat (length (turns n j (Z.of_nat m))) = (Z.of_nat m + n - 1 - j) / n.
Proof.
  intros Hj. induction m as [|m IH].
  - cbn. symmetry. apply Z.div_small. lia.
  - rewrite Nat2Z.inj_succ, <- Z.add_1_r, turns_succ by lia.
    rewrite length_app, Nat2Z.inj_add, IH.
    pose proof (Z.div_mod (Z.of_nat m) n ltac:(lia)) as Hdm.
    pose proof (Z.mod_pos_bound (Z.of_nat m) n ltac:(lia)) as Hmb.
    set (q := Z.of_nat m / n) in *. set (r := Z.of_nat m mod n) in *.
    rewrite Hdm.
    destruct (decide (r = j)) as [->|Hne]; cbn [length].
    + replace (n * q + j + n - 1 - j) with (q * n + (n - 1)) by lia.
      replace (n * q + j + 1 + n - 1 - j) with ((q + 1) * n + 0) by lia.
      rewrite !Z.div_add_l by lia. rewrite !Z.div_small by lia. cbn. lia.
    + destruct (Z.lt_ge_cases r j).
      * replace (n * q + r + n - 1 - j) with (q * n + (r + n - 1 - j)) by lia.
        replace (n * q + r + 1 + n - 1 - j) with (q * n + (r + n - j)) by lia.
        rewrite !Z.div_add_l by lia. rewrite !Z.div_small by lia. cbn. lia.
      * replace (n * q + r + n - 1 - j) with ((q + 1) * n + (r - 1 - j)) by lia.
        replace (n * q + r + 1 + n - 1 - j) with ((q + 1) * n + (r - j)) by lia.
        rewrite !Z.div_add_l by lia. rewrite !Z.div_small by lia. cbn. lia.
Qed.

Lemma preserves_bind {S A B : Type} (P : S -> Prop) (c : M S A) (k : A -> M S B) :
  preserves P c -> (forall a, preserves P (k a)) -> preserves P (c ≫= k).
Proof.
  intros Hc Hk s r s'. munfold. destruct (c s) as [[a|e] s1] eqn:E.
  - intros Hka HP. eapply Hk; [done|]. by eapply Hc.
  - intros [= <- <-] HP. by eapply Hc.
Qed.

Lemma preserves_pure {S A : Type} (P : S -> Prop) (c : M S A) :
  (forall s, snd (c s) = s) -> preserves P c.
Proof. intros Hc s r s' E. specialize (Hc s). rewrite E in Hc. by cbn in Hc; subst. Qed.

Lemma preserves_on_builder {G A : Type} (P : Process G -> Prop) (c : M (BState G) A) :
  (forall p b g, P p ->
     P {| example_writer := set_example_builder b (example_writer p);
          rng := g; io := io p; clock := clock p; ticks := ticks p |}) ->
  preserves P (on_builder c).
Proof.
  intros HP p r p'. unfold on_builder. destruct (c _) as [r0 st].
  intros [= <- <-] Hp. by apply HP.
Qed.

Lemma preserves_next_io {G : Type} (P : Process G -> Prop) :
  (forall p faults, P p ->
     P {| example_writer := example_writer p; rng := rng p; io := faults;
          clock := clock p; ticks := ticks p |}) ->
  preserves P next_io.
Proof.
  intros HP p r p'. unfold next_io. destruct (io p); intros [= <- <-] Hp; [done|].
  by apply HP.
Qed.

Lemma preserves_py_time {G : Type} (P : Process G -> Prop) :
  (forall p, P p -> P (tick p)) ->
  preserves P py_time.
Proof. intros HP p r p'. unfold py_time. intros [= <- <-] Hp. by apply HP. Qed.

Lemma preserves_log_progress {G : Type} (P : Process G -> Prop)
    (start_time : Q) (file_no total : Z) :
  (forall p, P p -> P (tick p)) ->
  preserves P (log_progress start_time file_no total).
Proof.
  intros HP. unfold log_progress.
  apply preserves_bind; [by apply preserves_py_time|]. intros now.
  apply preserves_bind; [by apply preserves_pure|]. intros percent.
  apply preserves_bind; [by apply preserves_pure|]. intros rate.
  apply preserves_bind; [by apply preserves_pure|]. intros eta.
  by apply preserves_pure.
Qed.

(** An invariant of the files and of the readings of the clock is an
    invariant of the loop over the files. *)
Lemma preserves_write_files {G : Type} `{RandomSource G} (P : Process G -> Prop)
    (start_time : Q) (total : Z) (fnames : list (list string)) :
  (forall p, P p -> P (tick p)) ->
  (forall fname, preserves P (ExampleWriter_write_examples fname)) ->
  forall file_no, preserves P (write_files start_time total file_no fnames).
Proof.
  intros Htick Hfile.
  induction fnames as [|fname fnames IH]; intros file_no; cbn [write_files].
  { by apply preserves_pure. }
  apply preserves_bind.
  { destruct (0 <? file_no); [by apply preserves_log_progress | by apply preserves_pure]. }
  intros _. apply preserves_bind; [apply Hfile | by intros _].
Qed.

Lemma round_robin_write_record {G : Type} (example : tf_example) :
  preserves (S := Process G) round_robin (write_record example).
Proof.
  intros p r p'. unfold write_record, update_writer, next_io, py_mod. munfold.
  destruct (Z.eqb_spec (len (_writers (example_writer p))) 0) as [|Hn];
    [by intros [= <- <-]|].
  assert (forall faults,
            round_robin p ->
            round_robin {| example_writer := example_writer p; rng := rng p;
                           io := faults; clock := clock p; ticks := ticks p |})
    as Hio by done.
  set (i := n_written (example_writer p) mod len (_writers (example_writer p))).
  assert (forall faults,
            round_robin p ->
            round_robin
              {| example_writer :=
                   set_n_written (n_written (example_writer p) + 1)
                     (set_writers
                        (alter (tf_write example) (Z.to_nat i)
                           (_writers (example_writer p))) (example_writer p));
                 rng := rng p; io := faults; clock := clock p; ticks := ticks p |})
    as Hstep.
  { intros faults [Hpos Hrr]. unfold round_robin. cbn.
    split; [lia|]. intros j wj.
    unfold len. rewrite length_alter. fold (len (_writers (example_writer p))).
    rewrite turns_succ by done. rewrite length_app.
    pose proof (len_nonneg (_writers (example_writer p))).
    pose proof (Z.mod_pos_bound (n_written (example_writer p))
                  (len (_writers (example_writer p))) ltac:(lia)) as Hi.
    fold i in Hi |- *.
    destruct (decide (Z.to_nat i = j)) as [<-|Hne].
    - rewrite list_lookup_alter_eq. destruct (_writers (example_writer p) !! Z.to_nat i)
        as [w0|] eqn:E0; [|done].
      intros [= <-]. cbn. rewrite length_app, (Hrr _ _ E0). rewrite Z2Nat.id by lia.
      by destruct (decide (i = i)).
    - rewrite list_lookup_alter_ne by done. intros E0. rewrite (Hrr _ _ E0).
      destruct (decide (i = Z.of_nat j)); [lia|]. cbn. lia. }
  destruct (io p) as [|[|] faults]; intros [= <- <-] Hp; auto.
Qed.

Lemma round_robin_builder {G : Type} (p : Process G) (b : ExampleBuilder) (g : G) :
  round_robin p ->
  round_robin {| example_writer := set_example_builder b (example_writer p);
                 rng := g; io := io p; clock := clock p; ticks := ticks p |}.
Proof. done. Qed.

Lemma round_robin_write_lines {G : Type} `{RandomSource G} (lines : list string) :
  preserves round_robin (write_lines lines).
Proof.
  induction lines as [|line lines IH]; cbn [write_lines].
  { by apply preserves_pure. }
  apply preserves_bind; [by apply preserves_pure|]. intros p0.
  apply preserves_bind; [|by intros _].
  destruct (_ || _); [|by apply preserves_pure].
  apply preserves_bind.
  - apply preserves_on_builder. intros. by apply round_robin_builder.
  - intros [ex|]; [apply round_robin_write_record | by apply preserves_pure].
Qed.

Lemma round_robin_write_files {G : Type} `{RandomSource G} (start_time : Q)
    (total file_no : Z) (fnames : list (list string)) :
  preserves round_robin (write_files start_time total file_no fnames).
Proof.
  apply preserves_write_files; [done|]. intros fname.
  unfold ExampleWriter_write_examples.
  apply preserves_bind; [apply round_robin_write_lines|]. intros _.
  apply preserves_bind.
  - apply preserves_on_builder. intros. by apply round_robin_builder.
  - intros [ex|]; [apply round_robin_write_record | by apply preserves_pure].
Qed.

Lemma round_robin_run_job {G : Type} `{RandomSource G} (job_id : Z) (args : Args) :
  preserves round_robin (run_job job_id args).
Proof.
  unfold run_job.
  apply preserves_bind; [by apply preserves_pure|]. intros fnames.
  apply preserves_bind.
  { intros p r p'. unfold py_shuffle. destruct (shuffle fnames (rng p)).
    by intros [= <- <-]. }
  intros fnames'. apply preserves_bind; [by apply preserves_py_time|]. intros start_time.
  apply preserves_bind; [apply round_robin_write_files|]. intros _.
  intros p r p'. unfold finish, update_writer. munfold. intros [= <- <-] [Hpos Hrr].
  unfold round_robin. cbn. split; [done|]. intros j wj.
  rewrite list_lookup_fmap. unfold len. rewrite length_map.
  destruct (_writers (example_writer p) !! j) as [w0|] eqn:E0; [|done].
  intros [= <-]. cbn. by apply Hrr.
Qed.

(** X10. However the job ends, the number of examples written is the
    number of records in the shards of the job, dealt in turn: of [n]
    owned shards, the one at position [j] holds
    [(n_written + n - 1 - j) // n] records. So two shards of a job never
    differ by more than one record. *)
Theorem write_examples_round_robin {G : Type} `{RandomSource G}
    (job_id : Z) (args : Args) (g : G) (faults : list bool) (time : nat -> Q)
    r (p' : Process G) :
  write_examples job_id args g faults time = (r, Some p') ->
  let w := example_writer p' in
  0 <= n_written w /\
  forall (j : nat) wj,
    _writers w !! j = Some wj ->
    len (records wj) = (n_written w + len (_writers w) - 1 - Z.of_nat j) / len (_writers w).
Proof.
  unfold write_examples.
  destruct (ExampleWriter_init _ _ _ _ _ _) as [w0|e] eqn:Ew; [|done].
  destruct (run_job job_id args _) as [r0 p0] eqn:Er.
  intros E. injection E as Hr0 Hp0. subst r p'.
  assert (round_robin {| example_writer := w0; rng := g; io := faults;
                         clock := time; ticks := 0 |}) as Hinit.
  { unfold ExampleWriter_init in Ew. destruct (Tokenizer_init _); [|done].
    destruct (open_writers _ _ _) as [ws|] eqn:Eo; [|done]. injection Ew as <-.
    unfold round_robin. cbn. split; [done|]. intros j wj Hj.
    assert (records wj = []) as ->; [|done].
    destruct (Z.eq_dec (num_processes args) 0) as [E0|Hn].
    + rewrite E0 in Eo. destruct (seqZ 0 (num_out_files args)); [|done].
      cbn in Eo. injection Eo as <-. done.
    + rewrite open_writers_eq in Eo by done. injection Eo as <-.
      rewrite list_lookup_fmap in Hj.
      destruct (filter _ _ !! j); [|done]. by injection Hj as <-. }
  apply (round_robin_run_job _ _ _ _ _ Er) in Hinit as [Hpos Hrr].
  cbn zeta. split; [done|]. intros j wj Hj.
  unfold len at 1. rewrite (Hrr j wj Hj).
  rewrite <- (Z2Nat.id (n_written (example_writer p0))) at 1 2 by done.
  apply lookup_lt_Some in Hj.
  rewrite turns_length; [by rewrite Z2Nat.id | unfold len; lia].
Qed.

Lemma write_examples_round_robin_witness :
  exists p',
    write_examples 0
      {| vocab_file := ["the 10"; "cat 5"; "sat 3"];
         corpus_dir := [["the cat sat"; ""; "sat cat"]];
         max_seq_length := 16; num_processes := 1;
         blanks_separate_docs := true; num_out_files := 2 |}
      [Demo.half; Demo.half; Demo.half; Demo.half; Demo.half] [] Demo.seconds =
      (Ret tt, Some p') /\
    0 <= n_written (example_writer p').
Proof.
  eexists. split; [vm_compute; reflexivity|].
  eapply (write_examples_round_robin 0
            {| vocab_file := ["the 10"; "cat 5"; "sat 3"];
               corpus_dir := [["the cat sat"; ""; "sat cat"]];
               max_seq_length := 16; num_processes := 1;
               blanks_separate_docs := true; num_out_files := 2 |}
            [Demo.half; Demo.half; Demo.half; Demo.half; Demo.half] [] Demo.seconds
            (Ret tt)).
  vm_compute. reflexivity.
Defined.

(** ** The records of a job *)

Lemma records_sized_write_record {G : Type} (m : Z) (example : tf_example) :
  well_sized m example ->
  preserves (S := Process G) (records_sized m) (write_record example).
Proof.
  intros Hex p r p'. unfold write_record, update_writer, next_io, py_mod. munfold.
  destruct (Z.eqb_spec (len (_writers (example_writer p))) 0); [by intros [= <- <-]|].
  assert (forall faults,
            records_sized m p ->
            records_sized m
              {| example_writer :=
                   set_n_written (n_written (example_writer p) + 1)
                     (set_writers
                        (alter (tf_write example)
                           (Z.to_nat (n_written (example_writer p) mod
                                      len (_writers (example_writer p))))
                           (_writers (example_writer p))) (example_writer p));
                 rng := rng p; io := faults; clock := clock p; ticks := ticks p |})
    as Hstep.
  { intros faults [Hm Hall]. split; [done|]. cbn.
    apply Forall_alter; [done|]. intros w _ Hw. cbn.
    apply Forall_app. split; [done|]. by constructor. }
  destruct (io p) as [|[|] faults]; intros [= <- <-] Hp; auto.
Qed.

Lemma records_sized_step {G : Type} `{RandomSource G} (m : Z) (line : string) :
  2 <= m ->
  preserves (records_sized m)
    (example ← on_builder (add_line line); write_if_example example).
Proof.
  intros Hm p r p'. munfold. unfold on_builder.
  destruct (add_line line (_example_builder (example_writer p), rng p))
    as [[[ex|]|e] [b' g']] eqn:E; cbn [fst snd write_if_example].
  - intros Hw [Hmax Hall].
    pose proof E as Einv. apply add_line_inv in Einv as (Hm' & _).
    apply add_line_emits_assembled in E
      as (cls & sep & pad & first & second & _ & _ & _ & -> & Hfit).
    eapply records_sized_write_record; [|exact Hw|].
    + rewrite Hmax in *. apply assembled_lengths. by apply Hfit.
    + split; [cbn; congruence | done].
  - munfold. intros [= <- <-] [Hmax Hall].
    apply add_line_inv in E as (Hm' & _). split; [cbn; congruence | done].
  - intros [= <- <-] [Hmax Hall].
    apply add_line_inv in E as (Hm' & _). split; [cbn; congruence | done].
Qed.

Lemma records_sized_write_lines {G : Type} `{RandomSource G} (m : Z)
    (lines : list string) :
  2 <= m -> preserves (records_sized m) (write_lines lines).
Proof.
  intros Hm. induction lines as [|line lines IH]; cbn [write_lines].
  { by apply preserves_pure. }
  apply preserves_bind; [by apply preserves_pure|]. intros p0.
  apply preserves_bind; [|by intros _].
  destruct (_ || _); [by apply records_sized_step | by apply preserves_pure].
Qed.

Lemma records_sized_write_files {G : Type} `{RandomSource G} (m : Z)
    (start_time : Q) (total file_no : Z) (fnames : list (list string)) :
  2 <= m -> preserves (records_sized m) (write_files start_time total file_no fnames).
Proof.
  intros Hm. apply preserves_write_files; [done|]. intros fname.
  unfold ExampleWriter_write_examples.
  apply preserves_bind; [by apply records_sized_write_lines|]. intros _.
  by apply records_sized_step.
Qed.

(** X11. With [max_seq_length >= 2], every record in every shard of a
    job, however the job ends, is an example whose three sequences have
    length [max_seq_length]. *)
Theorem written_records_sized {G : Type} `{RandomSource G}
    (job_id : Z) (args : Args) (g : G) (faults : list bool) (time : nat -> Q)
    r (p' : Process G) :
  2 <= max_seq_length args ->
  write_examples job_id args g faults time = (r, Some p') ->
  Forall (fun w => Forall (well_sized (max_seq_length args)) (records w))
    (_writers (example_writer p')).
Proof.
  intros Hm. unfold write_examples.
  destruct (ExampleWriter_init _ _ _ _ _ _) as [w0|e] eqn:Ew; [|done].
  destruct (run_job job_id args _) as [r0 p0] eqn:Er.
  intros E. injection E as Hr0 Hp0. subst r p'.
  assert (records_sized (max_seq_length args)
            {| example_writer := w0; rng := g; io := faults;
               clock := time; ticks := 0 |}) as Hinit.
  { unfold ExampleWriter_init in Ew. destruct (Tokenizer_init _); [|done].
    destruct (open_writers _ _ _) as [ws|] eqn:Eo; [|done]. injection Ew as <-.
    split; [done|]. cbn.
    destruct (Z.eq_dec (num_processes args) 0) as [E0|Hn].
    - rewrite E0 in Eo. destruct (seqZ 0 (num_out_files args)); [|done].
      cbn in Eo. by injection Eo as <-.
    - rewrite open_writers_eq in Eo by done. injection Eo as <-.
      apply Forall_fmap, Forall_true. intros i. cbn. constructor. }
  revert Er Hinit. unfold run_job.
  assert (preserves (records_sized (max_seq_length args))
            (fnames ← lift (own_files 0 (corpus_dir args) (num_processes args) job_id);
             fnames ← py_shuffle fnames;
             start_time ← py_time;
             write_files start_time (len fnames) 0 fnames;; finish)) as Hjob.
  { apply preserves_bind; [by apply preserves_pure|]. intros fnames.
    apply preserves_bind.
    { intros p r p'. unfold py_shuffle. destruct (shuffle fnames (rng p)).
      by intros [= <- <-]. }
    intros fnames'. apply preserves_bind; [by apply preserves_py_time|].
    intros start_time. apply preserves_bind; [by apply records_sized_write_files|].
    intros _ p r p'. unfold finish, update_writer. munfold.
    intros [= <- <-] [Hmax Hall]. split; [done|]. cbn.
    apply Forall_fmap. eapply Forall_impl; [exact Hall|]. done. }
  intros Er Hinit. by apply (Hjob _ _ _ Er) in Hinit as [_ Hall].
Qed.

Lemma written_records_sized_witness :
  exists p',
    write_examples 0
      {| vocab_file := ["the 10"; "cat 5"; "sat 3"];
         corpus_dir := [["the cat sat"; ""; "sat cat"]];
         max_seq_length := 16; num_processes := 1;
         blanks_separate_docs := true; num_out_files := 2 |}
      [Demo.half; Demo.half; Demo.half; Demo.half; Demo.half] [] Demo.seconds =
      (Ret tt, Some p') /\
    Forall (fun w => Forall (well_sized 16) (records w)) (_writers (example_writer p')).
Proof.
  eexists. split; [vm_compute; reflexivity|].
  eapply (written_records_sized 0
            {| vocab_file := ["the 10"; "cat 5"; "sat 3"];
               corpus_dir := [["the cat sat"; ""; "sat cat"]];
               max_seq_length := 16; num_processes := 1;
               blanks_separate_docs := true; num_out_files := 2 |}
            [Demo.half; Demo.half; Demo.half; Demo.half; Demo.half] [] Demo.seconds
            (Ret tt));
    [cbn; lia | vm_compute; reflexivity].
Defined.

(** ** Blank lines *)

Lemma blanks_off_step {G : Type} `{RandomSource G} (line : string) :
  preserves blanks_off (example ← on_builder (add_line line); write_if_example example).
Proof.
  apply preserves_bind.
  - by apply preserves_on_builder.
  - intros [ex|]; [|by apply preserves_pure].
    intros p r p'. unfold write_if_example, write_record, update_writer, next_io, py_mod.
    munfold.
    destruct (Z.eqb_spec (len (_writers (example_writer p))) 0);
      [by intros [= <- <-]|].
    destruct (io p) as [|[|] faults]; by intros [= <- <-].
Qed.

Lemma bind_ext {S A B : Type} (P : S -> Prop) (c : M S A) (k1 k2 : A -> M S B) (s : S) :
  preserves P c -> P s ->
  (forall a s', P s' -> k1 a s' = k2 a s') ->
  (c ≫= k1) s = (c ≫= k2) s.
Proof.
  intros Hc Hs Hk. munfold. destruct (c s) as [[a|e] s1] eqn:E; [|done].
  apply Hk. by eapply Hc.
Qed.

Lemma write_lines_cons {G : Type} `{RandomSource G}
    (line : string) (lines : list string) (p : Process G) :
  write_lines (line :: lines) p =
    ((if nonempty_str (strip line) || _blanks_separate_docs (example_writer p)
      then (example ← on_builder (add_line (strip line)); write_if_example example)
      else mret tt) ≫= fun _ => write_lines lines) p.
Proof. done. Qed.

(** X12. Without [blanks_separate_docs], the lines that [strip] empties
    do not reach the builder: [write_examples] on a file does what it does
    on the file without its blank lines. *)
Theorem write_lines_drops_blank {G : Type} `{RandomSource G}
    (lines : list string) (p : Process G) :
  _blanks_separate_docs (example_writer p) = false ->
  ExampleWriter_write_examples lines p =
    ExampleWriter_write_examples
      (filter (fun line => nonempty_str (strip line) = true) lines) p.
Proof.
  intros Hoff. unfold ExampleWriter_write_examples.
  assert (forall p0 : Process G, blanks_off p0 ->
            write_lines lines p0 =
            write_lines (filter (fun line => nonempty_str (strip line) = true) lines) p0)
    as Hlines.
  { induction lines as [|line lines IH]; intros p0 Hp0; [done|].
    rewrite filter_cons, write_lines_cons. pose proof Hp0 as Hflag.
    unfold blanks_off in Hflag. rewrite Hflag, orb_false_r.
    destruct (nonempty_str (strip line)) eqn:Eb.
    - destruct (decide (true = true)); [|done].
      rewrite write_lines_cons, Hflag, orb_false_r, Eb.
      apply (bind_ext blanks_off); [apply blanks_off_step | done|].
      intros _ s' Hs'. by apply IH.
    - destruct (decide (false = true)); [done|]. by apply IH. }
  munfold. by rewrite Hlines.
Qed.

Lemma write_lines_drops_blank_witness :
  ExampleWriter_write_examples ["the cat"; "  "; ""; "sat"]
    {| example_writer :=
         {| _blanks_separate_docs := false; _example_builder := Demo.builder 16;
            _writers := [fresh_writer 0]; n_written := 0 |};
       rng := [Demo.half]; io := []; clock := Demo.seconds; ticks := 0 |} =
  ExampleWriter_write_examples
    (filter (fun line => nonempty_str (strip line) = true) ["the cat"; "  "; ""; "sat"])
    {| example_writer :=
         {| _blanks_separate_docs := false; _example_builder := Demo.builder 16;
            _writers := [fresh_writer 0]; n_written := 0 |};
       rng := [Demo.half]; io := []; clock := Demo.seconds; ticks := 0 |}.
Proof.
  apply (write_lines_drops_blank ["the cat"; "  "; ""; "sat"]). reflexivity.
Defined.

(** ** A job that cannot fail *)

Lemma returns_bind {S A B : Type} (P : S -> Prop) (c : M S A) (k : A -> M S B) :
  returns P c -> (forall a, returns P (k a)) -> returns P (c ≫= k).
Proof.
  intros Hc Hk s Hs. destruct (Hc s Hs) as (a & s1 & E & Hs1).
  destruct (Hk a s1 Hs1) as (b & s2 & E2 & Hs2).
  exists b, s2. munfold. by rewrite E.
Qed.

Lemma returns_ret {S A : Type} (P : S -> Prop) (a : A) : returns P (mret a).
Proof. intros s Hs. by exists a, s. Qed.

Lemma add_line_total {G : Type} `{RandomSource G}
    (b : ExampleBuilder) (g : G) (line : string) :
  has_markers (_tokenizer b) -> 5 <= _max_length b ->
  exists r st', add_line line (b, g) = (Ret r, st').
Proof.
  intros Hmk Hmax. rewrite add_line_eq. cbn zeta.
  assert (forall b1, _max_length b1 = _max_length b -> _tokenizer b1 = _tokenizer b ->
            exists r st',
              (example ← _create_example; mret (Some example)) (b1, g) = (Ret r, st'))
    as Hcreate.
  { intros b1 Hm Htk.
    destruct (create_example_total b1 g) as (ex & st' & Hc);
      [by rewrite Hm | by rewrite Htk|].
    exists (Some ex), st'. munfold. by rewrite Hc. }
  destruct (negb _ && negb _); [by apply Hcreate|].
  destruct (_ <=? _); [by apply Hcreate | by eexists _, _].
Qed.

Lemma sound_step {G : Type} `{RandomSource G} (line : string) :
  returns sound (example ← on_builder (add_line line); write_if_example example).
Proof.
  intros p (Hmk & Hmax & Hw & Hio). munfold. unfold on_builder.
  destruct (add_line_total (_example_builder (example_writer p)) (rng p) line Hmk Hmax)
    as (r & [b' g'] & E).
  rewrite E. pose proof E as Einv. apply add_line_inv in Einv as (Hm' & Htk' & _).
  cbn [fst snd].
  assert (sound {| example_writer := set_example_builder b' (example_writer p);
                   rng := g'; io := io p; clock := clock p; ticks := ticks p |}) as Hs1.
  { split; [cbn; by rewrite Htk'|]. split; [cbn; by rewrite Hm'|]. done. }
  destruct r as [ex|]; cbn [write_if_example]; [|by eexists _, _].
  unfold write_record, update_writer, next_io, py_mod. munfold. cbn.
  destruct (Z.eqb_spec (len (_writers (example_writer p))) 0) as [E0|_].
  { apply len_nil_iff in E0. done. }
  rewrite Hio. eexists _, _. split; [done|].
  split; [cbn; by rewrite Htk'|]. split; [cbn; by rewrite Hm'|]. split; [|done].
  cbn. intros Hnil. apply (f_equal length) in Hnil. rewrite length_alter in Hnil.
  by destruct (_writers (example_writer p)).
Qed.

Lemma sound_write_lines {G : Type} `{RandomSource G} (lines : list string) :
  returns sound (write_lines lines).
Proof.
  induction lines as [|line lines IH]; cbn [write_lines]; [apply returns_ret|].
  apply returns_bind; [intros p Hp; by exists p, p|]. intros p0.
  apply returns_bind; [|by intros _].
  destruct (_ || _); [apply sound_step | apply returns_ret].
Qed.

Lemma sound_write_examples {G : Type} `{RandomSource G} (input_file : list string) :
  returns sound (ExampleWriter_write_examples input_file).
Proof.
  unfold ExampleWriter_write_examples.
  apply returns_bind; [apply sound_write_lines|]. intros _. apply sound_step.
Qed.

Lemma own_files_returns {A : Type} (fnames : list A) (num_processes job_id : Z) :
  num_processes <> 0 ->
  forall i, exists fs, own_files i fnames num_processes job_id = Ret fs.
Proof.
  intros Hn. induction fnames as [|f fnames IH]; intros i; [by eexists|].
  cbn [own_files]. unfold py_mod. destruct (Z.eqb_spec num_processes 0); [done|].
  destruct (IH (i + 1)) as [fs ->]. by eexists.
Qed.

(** *** The clock *)

Lemma Qeq_bool_false (x y : Q) : ~ (x == y)%Q -> Qeq_bool x y = false.
Proof. intros Hne. apply not_true_iff_false. by rewrite Qeq_bool_iff. Qed.

Lemma inject_Z_nonzero (n : Z) : n <> 0 -> ~ (inject_Z n == 0)%Q.
Proof. intros Hn. unfold Qeq. simpl. lia. Qed.

Lemma Qminus_nonzero (x y : Q) : ~ (x == y)%Q -> ~ (x - y == 0)%Q.
Proof.
  intros Hne E. apply Hne.
  assert (x == (x - y) + y)%Q as -> by ring. rewrite E. ring.
Qed.

Lemma Qdiv_nonzero (x y : Q) : ~ (x == 0)%Q -> ~ (y == 0)%Q -> ~ (x / y == 0)%Q.
Proof.
  intros Hx Hy E. apply Hx.
  assert (x == (x / y) * y)%Q as -> by (field; done). rewrite E. ring.
Qed.

(** The progress line returns when the clock has moved off [start_time]. *)
Lemma log_progress_returns {G : Type} (start_time : Q) (file_no total : Z)
    (p : Process G) :
  0 < file_no -> total <> 0 -> ~ (clock p (ticks p) == start_time)%Q ->
  log_progress start_time file_no total p = (Ret tt, tick p).
Proof.
  intros Hf Ht Hc. unfold log_progress, py_time, py_truediv. munfold.
  rewrite (Qeq_bool_false (inject_Z total) 0) by by apply inject_Z_nonzero.
  rewrite (Qeq_bool_false (clock p (ticks p) - start_time) 0)
    by by apply Qminus_nonzero.
  rewrite (Qeq_bool_false (inject_Z file_no / (clock p (ticks p) - start_time)) 0).
  - done.
  - apply Qdiv_nonzero; [apply inject_Z_nonzero; lia | by apply Qminus_nonzero].
Qed.

(** It raises when the clock reads [start_time]: the rate
    [file_no / elapsed] divides by zero. *)
Lemma log_progress_raises {G : Type} (start_time : Q) (file_no total : Z)
    (p : Process G) :
  total <> 0 -> (clock p (ticks p) == start_time)%Q ->
  log_progress start_time file_no total p = (Raise ZeroDivisionError, tick p).
Proof.
  intros Ht Hc. unfold log_progress, py_time, py_truediv. munfold.
  rewrite (Qeq_bool_false (inject_Z total) 0) by by apply inject_Z_nonzero.
  assert (Qeq_bool (clock p (ticks p) - start_time) 0 = true) as ->; [|done].
  apply Qeq_bool_iff. rewrite Hc. ring.
Qed.

Lemma bind_returns {S A B : Type} (c : M S A) (k : A -> M S B) (s : S) a s' :
  c s = (Ret a, s') -> (c ≫= k) s = k a s'.
Proof. intros E. munfold. by rewrite E. Qed.

Lemma bind_raises {S A B : Type} (c : M S A) (k : A -> M S B) (s : S) e s' :
  c s = (Raise e, s') -> (c ≫= k) s = (Raise e, s').
Proof. intros E. munfold. by rewrite E. Qed.

Lemma returns_and {S A : Type} (P Q : S -> Prop) (c : M S A) :
  returns P c -> preserves Q c -> returns (fun s => P s /\ Q s) c.
Proof.
  intros Hc Hq s [Hp Hs]. destruct (Hc s Hp) as (a & s' & E & Hp').
  exists a, s'. split; [done|]. split; [done|]. by eapply Hq.
Qed.

(** The writer does not read the clock: what holds of the clock and of the
    number of readings holds after [ExampleWriter.write_examples]. *)
Lemma clock_kept_write_record {G : Type} (P : Process G -> Prop) (example : tf_example) :
  (forall p w g faults, P p ->
     P {| example_writer := w; rng := g; io := faults;
          clock := clock p; ticks := ticks p |}) ->
  preserves P (write_record example).
Proof.
  intros HP p r p'. unfold write_record, update_writer, next_io, py_mod. munfold.
  destruct (Z.eqb_spec (len (_writers (example_writer p))) 0);
    [by intros [= <- <-]|].
  destruct (io p) as [|[|] faults]; intros [= <- <-] Hp; cbn; by apply (HP p).
Qed.

Lemma clock_kept_step {G : Type} `{RandomSource G} (P : Process G -> Prop) (line : string) :
  (forall p w g faults, P p ->
     P {| example_writer := w; rng := g; io := faults;
          clock := clock p; ticks := ticks p |}) ->
  preserves P (example ← on_builder (add_line line); write_if_example example).
Proof.
  intros HP. apply preserves_bind.
  - apply preserves_on_builder. intros p b g Hp. by apply (HP p).
  - intros [ex|]; [by apply clock_kept_write_record | by apply preserves_pure].
Qed.

Lemma clock_kept_write_examples {G : Type} `{RandomSource G} (P : Process G -> Prop)
    (input_file : list string) :
  (forall p w g faults, P p ->
     P {| example_writer := w; rng := g; io := faults;
          clock := clock p; ticks := ticks p |}) ->
  preserves P (ExampleWriter_write_examples input_file).
Proof.
  intros HP. unfold ExampleWriter_write_examples.
  apply preserves_bind; [|intros _; by apply clock_kept_step].
  induction input_file as [|line lines IH]; cbn [write_lines].
  { by apply preserves_pure. }
  apply preserves_bind; [by apply preserves_pure|]. intros p0.
  apply preserves_bind; [|by intros _].
  destruct (_ || _); [by apply clock_kept_step | by apply preserves_pure].
Qed.

Lemma sound_write_files {G : Type} `{RandomSource G} (start_time : Q) (total : Z)
    (fnames : list (list string)) :
  total <> 0 ->
  forall file_no, 0 <= file_no ->
    returns (fun p => sound p /\ advancing start_time p)
      (write_files start_time total file_no fnames).
Proof.
  intros Ht. induction fnames as [|fname fnames IH]; intros file_no Hf;
    cbn [write_files]; [apply returns_ret|].
  apply returns_bind.
  { destruct (Z.ltb_spec 0 file_no); [|apply returns_ret].
    intros p [Hs Ha]. exists tt, (tick p). split.
    - apply log_progress_returns; [done | done |]. apply Ha. lia.
    - split; [done|]. intros k Hk. apply Ha. cbn in Hk. lia. }
  intros _. apply returns_bind; [|intros _; apply IH; lia].
  apply returns_and; [apply sound_write_examples|].
  by apply clock_kept_write_examples.
Qed.

(** From the reading of [start_time] on: the loop over the files and
    [finish]. *)
Lemma timed_files_return {G : Type} `{RandomSource G} (fnames : list (list string))
    (p : Process G) :
  sound p -> advancing (clock p (ticks p)) (tick p) ->
  exists p',
    (start_time ← py_time;
     write_files start_time (len fnames) 0 fnames;; finish) p = (Ret tt, p') /\
    _writers (example_writer p') <> [].
Proof.
  intros Hs Ha. munfold. unfold py_time.
  assert (exists p1, write_files (clock p (ticks p)) (len fnames) 0 fnames (tick p) =
                       (Ret tt, p1) /\ sound p1) as (p1 & -> & (_ & _ & Hw & _)).
  { destruct fnames as [|fname fnames]; [by exists (tick p)|].
    destruct (sound_write_files (clock p (ticks p)) (len (fname :: fnames))
                (fname :: fnames)
                ltac:(rewrite len_cons; pose proof (len_nonneg fnames); lia)
                0 ltac:(lia) (tick p) (conj Hs Ha)) as ([] & p1 & E & Hs1 & _).
    by exists p1. }
  eexists. split; [reflexivity|]. cbn. by destruct (_writers (example_writer p1)).
Qed.

(** X13. A job of a valid run cannot fail while the clock moves: with a
    vocabulary file that [Tokenizer] accepts, [max_seq_length >= 5],
    [0 <= job_id < num_processes <= num_out_files] (what [main] asserts),
    no failing write and a clock that never again reads what it read at
    the start, [write_examples(job_id, args)] returns and leaves every
    shard of the job closed. *)
Theorem write_examples_returns {G : Type} `{RandomSource G}
    (job_id : Z) (args : Args) (tokenizer : Tokenizer) (g : G) (time : nat -> Q) :
  Tokenizer_init (vocab_file args) = Ret tokenizer ->
  5 <= max_seq_length args ->
  0 <= job_id < num_processes args ->
  num_processes args <= num_out_files args ->
  (forall k : nat, (0 < k)%nat -> ~ (time k == time 0%nat)%Q) ->
  exists p',
    write_examples job_id args g [] time = (Ret tt, Some p') /\
    handles_released p' /\ _writers (example_writer p') <> [].
Proof.
  intros Htok Hmax Hjob Hle Htime. unfold write_examples, ExampleWriter_init.
  rewrite Htok, open_writers_eq by lia.
  set (p0 := {| example_writer := _; rng := g; io := []; clock := time; ticks := 0 |}).
  assert (job_id ∈ filter (fun i => i mod num_processes args = job_id)
                     (seqZ 0 (num_out_files args))) as Hown.
  { apply list_elem_of_filter. split; [apply Z.mod_small; lia|].
    apply elem_of_seqZ. lia. }
  assert (sound p0) as Hs0.
  { split; [by apply (Tokenizer_init_markers (vocab_file args))|].
    split; [done|]. split; [|done]. cbn.
    destruct (filter _ _); [by apply elem_of_nil in Hown | done]. }
  assert (handles_open p0) as Ho0.
  { unfold handles_open. cbn. apply Forall_fmap, Forall_true. done. }
  assert (exists p', run_job job_id args p0 = (Ret tt, p') /\
                     _writers (example_writer p') <> []) as (p' & Er & Hw).
  { unfold run_job.
    destruct (own_files_returns (corpus_dir args) (num_processes args) job_id
                ltac:(lia) 0) as [fs ->].
    rewrite (bind_returns _ _ p0 fs p0) by done.
    destruct (shuffle fs g) as [ys g'] eqn:Esh.
    rewrite (bind_returns _ _ p0 ys
               {| example_writer := example_writer p0; rng := g'; io := [];
                  clock := time; ticks := 0 |})
      by (unfold py_shuffle; cbn; by rewrite Esh).
    apply timed_files_return; [exact Hs0|].
    intros k Hk. cbn in Hk |- *. apply Htime. lia. }
  rewrite Er. exists p'. split; [done|]. split; [|done].
  by apply (run_job_exits job_id args p0 (Ret tt) p' Ho0 Er).
Qed.

Lemma write_examples_returns_witness :
  exists p',
    write_examples 1
      {| vocab_file := ["the 10"; "cat 5"; "sat 3"];
         corpus_dir := [["the cat sat"]; ["sat the"; ""; "cat"]; ["cat"]; ["the sat"]];
         max_seq_length := 8; num_processes := 2;
         blanks_separate_docs := true; num_out_files := 3 |}
      [0; 1; 2; 3; 4; 5; 6; 7] [] Demo.seconds = (Ret tt, Some p') /\
    handles_released p' /\ _writers (example_writer p') <> [].
Proof.
  apply (write_examples_returns 1
           {| vocab_file := ["the 10"; "cat 5"; "sat 3"];
              corpus_dir := [["the cat sat"]; ["sat the"; ""; "cat"]; ["cat"]; ["the sat"]];
              max_seq_length := 8; num_processes := 2;
              blanks_separate_docs := true; num_out_files := 3 |}
           Demo.tokenizer [0; 1; 2; 3; 4; 5; 6; 7] Demo.seconds);
    [exact Tokenizer_init_demo | cbn; lia | cbn; lia | cbn; lia |].
  intros k Hk. unfold Demo.seconds, Qeq. simpl. lia.
Defined.

(** ** The files of a job *)

Lemma own_files_one {A : Type} (n job_id : Z) (fnames : list A) :
  forall i, 0 <= i -> i + len fnames <= n ->
    own_files i fnames n job_id =
      Ret (if decide (i <= job_id < i + len fnames)
           then option_list (fnames !! Z.to_nat (job_id - i)) else []).
Proof.
  induction fnames as [|f fnames IH]; intros i Hi Hn.
  { cbn [own_files]. change (len (@nil A)) with 0.
    destruct (decide _); [lia | done]. }
  rewrite len_cons in *. pose proof (len_nonneg fnames).
  cbn [own_files]. unfold py_mod. destruct (Z.eqb_spec n 0); [lia|].
  rewrite IH by lia. rewrite Z.mod_small by lia. f_equal.
  destruct (Z.eqb_spec i job_id) as [->|Hne].
  - replace (job_id - job_id) with 0 by lia. cbn.
    destruct (decide (job_id + 1 <= job_id < _)); [lia|].
    destruct (decide (job_id <= job_id < _)); [done | lia].
  - destruct (decide (i + 1 <= job_id < i + 1 + len fnames)),
             (decide (i <= job_id < i + (1 + len fnames))); try lia; [|done].
    replace (Z.to_nat (job_id - i)) with (S (Z.to_nat (job_id - (i + 1)))) by lia.
    done.
Qed.

(** X14. When the corpus directory holds as many files as there are
    processes (as [split_corpus] leaves it), the job [job_id] processes
    exactly one file, the one at position [job_id] of the sorted
    listing; so no file is processed twice and none is left out. *)
Theorem own_files_one_each {A : Type} (fnames : list A) (num_processes job_id : Z) :
  len fnames = num_processes ->
  0 <= job_id < num_processes ->
  exists f, fnames !! Z.to_nat job_id = Some f /\
            own_files 0 fnames num_processes job_id = Ret [f].
Proof.
  intros Hlen Hjob. rewrite own_files_one by lia.
  destruct (decide (0 <= job_id < 0 + len fnames)); [|lia].
  rewrite Z.sub_0_r.
  destruct (fnames !! Z.to_nat job_id) as [f|] eqn:Ef; [by exists f|].
  apply lookup_ge_None in Ef. unfold len in *. lia.
Qed.

Lemma own_files_one_each_witness :
  exists f, ["a"; "b"; "c"] !! Z.to_nat 1 = Some f /\
            own_files 0 ["a"; "b"; "c"] 3 1 = Ret [f].
Proof. apply (own_files_one_each ["a"; "b"; "c"] 3 1); [reflexivity | lia]. Defined.

(** ** The progress line *)

Lemma sound_at_time_write_examples {G : Type} `{RandomSource G}
    (time : nat -> Q) (n : nat) (input_file : list string) :
  returns (fun p => sound p /\ at_time time n p)
    (ExampleWriter_write_examples input_file).
Proof.
  apply returns_and; [apply sound_write_examples|].
  by apply clock_kept_write_examples.
Qed.

(** The set-up of a valid job: the state in which [run_job] starts. *)
Lemma write_examples_start {G : Type} `{RandomSource G}
    (job_id : Z) (args : Args) (tokenizer : Tokenizer) (g : G) (time : nat -> Q) :
  Tokenizer_init (vocab_file args) = Ret tokenizer ->
  5 <= max_seq_length args ->
  0 <= job_id < num_processes args ->
  num_processes args <= num_out_files args ->
  exists p0,
    write_examples job_id args g [] time =
      (let (r, p) := run_job job_id args p0 in (r, Some p)) /\
    sound p0 /\ handles_open p0 /\ at_time time 0 p0 /\ rng p0 = g.
Proof.
  intros Htok Hmax Hjob Hle. unfold write_examples, ExampleWriter_init.
  rewrite Htok, open_writers_eq by lia.
  eexists. split; [reflexivity|].
  assert (job_id ∈ filter (fun i => i mod num_processes args = job_id)
                     (seqZ 0 (num_out_files args))) as Hown.
  { apply list_elem_of_filter. split; [apply Z.mod_small; lia|].
    apply elem_of_seqZ. lia. }
  split.
  { split; [by apply (Tokenizer_init_markers (vocab_file args))|].
    split; [done|]. split; [|done]. cbn.
    destruct (filter _ _); [by apply elem_of_nil in Hown | done]. }
  split; [|done]. unfold handles_open. cbn. apply Forall_fmap, Forall_true. done.
Qed.

(** X19. A job that owns at most one file never prints the progress
    line: in a valid run on a corpus directory with no more files than
    processes (as [split_corpus] leaves it) and without failing writes,
    [write_examples(job_id, args)] reads the clock once, for
    [start_time], and returns whatever the clock reads. *)
Theorem write_examples_one_file {G : Type} `{RandomSource G}
    (job_id : Z) (args : Args) (tokenizer : Tokenizer) (g : G) (time : nat -> Q) :
  Tokenizer_init (vocab_file args) = Ret tokenizer ->
  5 <= max_seq_length args ->
  0 <= job_id < num_processes args ->
  num_processes args <= num_out_files args ->
  len (corpus_dir args) <= num_processes args ->
  exists p',
    write_examples job_id args g [] time = (Ret tt, Some p') /\
    handles_released p' /\ ticks p' = 1%nat.
Proof.
  intros Htok Hmax Hjob Hle Hfiles.
  destruct (write_examples_start job_id args tokenizer g time Htok Hmax Hjob Hle)
    as (p0 & -> & Hs0 & Ho0 & [Hc0 Ht0] & Hg0).
  assert (exists p', run_job job_id args p0 = (Ret tt, p') /\ ticks p' = 1%nat)
    as (p' & Er & Ht).
  { unfold run_job. rewrite own_files_one by lia.
    set (fs := if decide _ then _ else _).
    assert (length fs <= 1)%nat as Hfs.
    { unfold fs. destruct (decide _); [|cbn; lia].
      destruct (corpus_dir args !! _); cbn; lia. }
    rewrite (bind_returns _ _ p0 fs p0) by done.
    pose proof (shuffle_perm _ fs (rng p0)) as Hperm.
    destruct (shuffle fs (rng p0)) as [ys g'] eqn:Esh. cbn [fst] in Hperm.
    apply Permutation_length in Hperm.
    set (p1 := {| example_writer := example_writer p0; rng := g'; io := io p0;
                  clock := clock p0; ticks := ticks p0 |}).
    rewrite (bind_returns _ _ p0 ys p1) by (unfold py_shuffle; by rewrite Esh).
    rewrite (bind_returns _ _ p1 (clock p1 (ticks p1)) (tick p1)) by done.
    destruct ys as [|fname [|fname' ys]]; [| |cbn in Hperm; lia].
    { eexists. split; [reflexivity|]. cbn. by rewrite Ht0. }
    destruct (sound_at_time_write_examples time 1 fname (tick p1))
      as ([] & p2 & E2 & Hs2 & Hc2 & Ht2).
    { split; [exact Hs0|]. split; [done|]. cbn. by rewrite Ht0. }
    cbn [write_files]. change (0 <? 0) with false. cbv iota.
    rewrite (bind_returns _ _ (tick p1) tt p2).
    - eexists. split; [reflexivity|]. done.
    - rewrite (bind_returns _ _ (tick p1) tt (tick p1)) by done.
      by rewrite (bind_returns _ _ (tick p1) tt p2 E2). }
  rewrite Er. exists p'. split; [done|]. split; [|done].
  by apply (run_job_exits job_id args p0 (Ret tt) p' Ho0 Er).
Qed.

Lemma write_examples_one_file_witness :
  exists p',
    write_examples 1
      {| vocab_file := ["the 10"; "cat 5"; "sat 3"];
         corpus_dir := [["the cat sat"]; ["sat the"; ""; "cat"]];
         max_seq_length := 8; num_processes := 2;
         blanks_separate_docs := true; num_out_files := 3 |}
      [0; 1; 2; 3; 4; 5; 6; 7] [] Demo.stalled = (Ret tt, Some p') /\
    handles_released p' /\ ticks p' = 1%nat.
Proof.
  apply (write_examples_one_file 1
           {| vocab_file := ["the 10"; "cat 5"; "sat 3"];
              corpus_dir := [["the cat sat"]; ["sat the"; ""; "cat"]];
              max_seq_length := 8; num_processes := 2;
              blanks_separate_docs := true; num_out_files := 3 |}
           Demo.tokenizer [0; 1; 2; 3; 4; 5; 6; 7] Demo.stalled);
    [exact Tokenizer_init_demo | cbn; lia | cbn; lia | cbn; lia
    | vm_compute; discriminate].
Defined.

(** X20. The progress line can end a job: when a job of a valid run owns
    two files or more and the clock reads before the second file what it
    read at the start, the rate [file_no / elapsed] divides by zero.
    [write_examples(job_id, args)] raises [ZeroDivisionError] after one
    file, at the second reading of the clock, and leaves every shard of the
    job open. *)
Theorem write_examples_stalled_clock {G : Type} `{RandomSource G}
    (job_id : Z) (args : Args) (tokenizer : Tokenizer) (g : G) (time : nat -> Q)
    (fnames : list (list string)) :
  Tokenizer_init (vocab_file args) = Ret tokenizer ->
  5 <= max_seq_length args ->
  0 <= job_id < num_processes args ->
  num_processes args <= num_out_files args ->
  own_files 0 (corpus_dir args) (num_processes args) job_id = Ret fnames ->
  2 <= len fnames ->
  (time 1%nat == time 0%nat)%Q ->
  exists p',
    write_examples job_id args g [] time = (Raise ZeroDivisionError, Some p') /\
    handles_open p' /\ ticks p' = 2%nat.
Proof.
  intros Htok Hmax Hjob Hle Hown Hlen Hstall.
  destruct (write_examples_start job_id args tokenizer g time Htok Hmax Hjob Hle)
    as (p0 & -> & Hs0 & Ho0 & [Hc0 Ht0] & Hg0).
  assert (exists p', run_job job_id args p0 = (Raise ZeroDivisionError, p') /\
                     ticks p' = 2%nat) as (p' & Er & Ht).
  { unfold run_job. rewrite Hown.
    rewrite (bind_returns _ _ p0 fnames p0) by done.
    pose proof (shuffle_perm _ fnames (rng p0)) as Hperm.
    destruct (shuffle fnames (rng p0)) as [ys g'] eqn:Esh. cbn [fst] in Hperm.
    apply Permutation_length in Hperm.
    set (p1 := {| example_writer := example_writer p0; rng := g'; io := io p0;
                  clock := clock p0; ticks := ticks p0 |}).
    rewrite (bind_returns _ _ p0 ys p1) by (unfold py_shuffle; by rewrite Esh).
    rewrite (bind_returns _ _ p1 (clock p1 (ticks p1)) (tick p1)) by done.
    destruct ys as [|fname [|fname' ys]];
      [unfold len in Hlen; cbn in Hperm; lia..|].
    destruct (sound_at_time_write_examples time 1 fname (tick p1))
      as ([] & p2 & E2 & Hs2 & Hc2 & Ht2).
    { split; [exact Hs0|]. split; [done|]. cbn. by rewrite Ht0. }
    exists (tick p2). split; [|cbn; by rewrite Ht2].
    apply bind_raises. cbn [write_files]. change (0 <? 0) with false. cbv iota.
    rewrite (bind_returns _ _ (tick p1) tt (tick p1)) by done.
    rewrite (bind_returns _ _ (tick p1) tt p2 E2).
    change (0 + 1) with 1. change (0 <? 1) with true. cbv iota.
    apply bind_raises. apply log_progress_raises.
    - rewrite !len_cons. pose proof (len_nonneg ys). lia.
    - rewrite Hc2, Ht2. cbn. by rewrite Hc0, Ht0. }
  rewrite Er. exists p'. split; [done|]. split; [|done].
  by apply (run_job_exits job_id args p0 (Raise ZeroDivisionError) p' Ho0 Er).
Qed.

Lemma write_examples_stalled_clock_witness :
  exists p',
    write_examples 1
      {| vocab_file := ["the 10"; "cat 5"; "sat 3"];
         corpus_dir := [["the cat sat"]; ["sat the"; ""; "cat"]; ["cat"]; ["the sat"]];
         max_seq_length := 8; num_processes := 2;
         blanks_separate_docs := true; num_out_files := 3 |}
      [0; 1; 2; 3; 4; 5; 6; 7] [] Demo.stalled =
      (Raise ZeroDivisionError, Some p') /\
    handles_open p' /\ ticks p' = 2%nat.
Proof.
  apply (write_examples_stalled_clock 1
           {| vocab_file := ["the 10"; "cat 5"; "sat 3"];
              corpus_dir := [["the cat sat"]; ["sat the"; ""; "cat"]; ["cat"]; ["the sat"]];
              max_seq_length := 8; num_processes := 2;
              blanks_separate_docs := true; num_out_files := 3 |}
           Demo.tokenizer [0; 1; 2; 3; 4; 5; 6; 7] Demo.stalled
           [["sat the"; ""; "cat"]; ["the sat"]]);
    [exact Tokenizer_init_demo | cbn; lia | cbn; lia | cbn; lia | reflexivity
    | vm_compute; discriminate | reflexivity].
Defined.

(** ** split_corpus *)

Lemma position_in_range {A : Type} (i : Z) (xs : list A) :
  0 <= i < len xs -> Corpus.position i xs = Some (Z.to_nat i).
Proof.
  intros Hi. unfold Corpus.position.
  destruct (Z.leb_spec 0 i), (Z.ltb_spec i (len xs)); (done || lia).
Qed.

Lemma position_lt {A : Type} (i : Z) (xs : list A) (k : nat) :
  Corpus.position i xs = Some k -> (k < length xs)%nat.
Proof.
  unfold Corpus.position, len.
  destruct (Z.leb_spec 0 i), (Z.ltb_spec i (Z.of_nat (length xs))); cbn;
    try (intros [= <-]; lia);
    destruct (Z.leb_spec (- Z.of_nat (length xs)) i), (Z.ltb_spec i 0); cbn;
    try done; intros [= <-]; lia.
Qed.

Lemma numbered_lines (lines : list string) (d : Z) :
  map snd (Corpus.numbered lines d) = lines.
Proof.
  revert d. induction lines as [|line lines IH]; intros d; [done|].
  cbn. by rewrite IH.
Qed.

Lemma share_cons (n j d : Z) (line : string) (rest : list (Z * string)) :
  Corpus.share n j ((d, line) :: rest) =
    (if decide (d mod n = j) then [line] else []) ++ Corpus.share n j rest.
Proof.
  unfold Corpus.share. rewrite filter_cons. cbn [fst].
  by destruct (decide (d mod n = j)).
Qed.

Lemma split_lines_step (line : string) (rest : list string) (n d : Z)
    (tmp : list (list string)) :
  0 < n -> length tmp = Z.to_nat n ->
  Corpus.split_lines (line :: rest) n d tmp =
    Corpus.split_lines rest n
      (if String.eqb line Corpus.newline then d + 1 else d)
      (Corpus.write line (Z.to_nat (d mod n)) tmp).
Proof.
  intros Hn Hlen. cbn [Corpus.split_lines].
  destruct (Z.eqb_spec n 0); [lia|].
  pose proof (Z.mod_pos_bound d n Hn).
  rewrite position_in_range by (unfold len; lia).
  destruct (String.eqb_spec line Corpus.newline) as [->|]; done.
Qed.

Lemma split_lines_shares (n : Z) (lines : list string) :
  0 < n ->
  forall d tmp, length tmp = Z.to_nat n ->
    exists files,
      Corpus.split_lines lines n d tmp = Corpus.Ok files /\
      length files = length tmp /\
      forall (j : nat) f,
        tmp !! j = Some f ->
        files !! j = Some (f ++ Corpus.share n (Z.of_nat j) (Corpus.numbered lines d)).
Proof.
  intros Hn. induction lines as [|line lines IH]; intros d tmp Hlen.
  { exists tmp. split; [done|]. split; [done|]. intros j f Hj.
    by rewrite app_nil_r. }
  rewrite split_lines_step by done.
  pose proof (Z.mod_pos_bound d n Hn) as Hd.
  destruct (IH (if String.eqb line Corpus.newline then d + 1 else d)
              (Corpus.write line (Z.to_nat (d mod n)) tmp))
    as (files & -> & Hfl & Hfiles).
  { unfold Corpus.write. by rewrite length_alter. }
  exists files. split; [done|].
  split; [unfold Corpus.write in Hfl; by rewrite length_alter in Hfl|].
  intros j f Hj. cbn [Corpus.numbered]. rewrite share_cons.
  destruct (decide (d mod n = Z.of_nat j)) as [E|Hne].
  - rewrite (Hfiles j (f ++ [line])); [by rewrite <- app_assoc|].
    unfold Corpus.write. rewrite E, Nat2Z.id, list_lookup_alter_eq, Hj. done.
  - rewrite (Hfiles j f); [done|].
    unfold Corpus.write. rewrite list_lookup_alter_ne by lia. done.
Qed.

(** X15. For [num_processes >= 1], [split_corpus] writes
    [num_processes] files, and file [j] holds, in their order, the lines
    of the documents whose index is [j] modulo [num_processes], where the
    index of a line counts the lines equal to a bare newline before it:
    a document and the newline that ends it are never split between two
    files, and a whitespace-only line that is not a bare newline ends no
    document. *)
Theorem split_corpus_documents (corpus : list string) (num_processes : Z) :
  0 < num_processes ->
  exists files,
    Corpus.split_corpus corpus num_processes = Corpus.Ok files /\
    length files = Z.to_nat num_processes /\
    forall j : nat,
      (j < Z.to_nat num_processes)%nat ->
      files !! j =
        Some (Corpus.share num_processes (Z.of_nat j) (Corpus.numbered corpus 0)).
Proof.
  intros Hn. unfold Corpus.split_corpus.
  destruct (split_lines_shares num_processes corpus Hn 0
              (replicate (Z.to_nat num_processes) []))
    as (files & E & Hlen & Hfiles); [by rewrite length_replicate|].
  exists files. split; [done|]. rewrite length_replicate in Hlen. split; [done|].
  intros j Hj. apply (Hfiles j []). by apply lookup_replicate_2.
Qed.

Lemma split_corpus_documents_witness :
  0 < 2 /\
  exists files,
    Corpus.split_corpus
      [String "a" Corpus.newline; Corpus.newline; String " " Corpus.newline;
       String "b" Corpus.newline] 2 = Corpus.Ok files /\
    files = [[String "a" Corpus.newline; Corpus.newline];
             [String " " Corpus.newline; String "b" Corpus.newline]].
Proof.
  split; [lia|].
  destruct (split_corpus_documents
              [String "a" Corpus.newline; Corpus.newline; String " " Corpus.newline;
               String "b" Corpus.newline] 2 ltac:(lia)) as (files & E & Hlen & Hf).
  exists files. split; [exact E|].
  pose proof (Hf 0%nat ltac:(cbn; lia)) as H0.
  pose proof (Hf 1%nat ltac:(cbn; lia)) as H1.
  destruct files as [|f0 [|f1 [|f2 files]]]; try discriminate Hlen.
  cbn in H0, H1. injection H0 as ->. injection H1 as ->. reflexivity.
Defined.

Lemma concat_alter_snoc {A : Type} (x : A) (k : nat) (tmp : list (list A)) :
  (k < length tmp)%nat ->
  concat (alter (fun f => f ++ [x]) k tmp) ≡ₚ concat tmp ++ [x].
Proof.
  revert k. induction tmp as [|f tmp IH]; intros k Hk; [cbn in Hk; lia|].
  destruct k as [|k]; cbn.
  - rewrite <- !app_assoc. apply Permutation_app_head, Permutation_app_comm.
  - rewrite IH by (cbn in Hk; lia). by rewrite app_assoc.
Qed.

Lemma split_lines_perm (lines : list string) (n : Z) :
  forall d tmp files,
    Corpus.split_lines lines n d tmp = Corpus.Ok files ->
    concat files ≡ₚ concat tmp ++ lines.
Proof.
  induction lines as [|line lines IH]; intros d tmp files; cbn [Corpus.split_lines].
  { intros [= <-]. by rewrite app_nil_r. }
  destruct (n =? 0); [done|].
  destruct (Corpus.position (d mod n) tmp) as [k|] eqn:Ek; [|done].
  apply position_lt in Ek.
  destruct (String.eqb_spec line Corpus.newline) as [->|];
    intros E; apply IH in E; rewrite E; unfold Corpus.write;
    rewrite concat_alter_snoc by done; by rewrite <- app_assoc.
Qed.

(** X16. [split_corpus] loses and invents no line: the files it writes
    hold, together, exactly the lines of the corpus, each once, and every
    file holds its lines in the order of the corpus. *)
Theorem split_corpus_conserves (corpus : list string) (num_processes : Z)
    (files : list (list string)) :
  Corpus.split_corpus corpus num_processes = Corpus.Ok files ->
  concat files ≡ₚ corpus /\
  Forall (fun f => f `sublist_of` corpus) files.
Proof.
  intros E. split.
  - unfold Corpus.split_corpus in E. apply split_lines_perm in E. rewrite E.
    assert (forall k : nat, concat (replicate k (@nil string)) = []) as ->
      by (intros k; induction k as [|k IH]; [done | exact IH]).
    done.
  - destruct (Z.lt_ge_cases 0 num_processes) as [Hn|Hn].
    + destruct (split_lines_shares num_processes corpus Hn 0
                  (replicate (Z.to_nat num_processes) []))
        as (files' & E' & Hlen & Hfiles); [by rewrite length_replicate|].
      unfold Corpus.split_corpus in E. rewrite E' in E. injection E as ->.
      apply Forall_lookup. intros j f Hj.
      assert (j < Z.to_nat num_processes)%nat as Hlt.
      { apply lookup_lt_Some in Hj. by rewrite Hlen, length_replicate in Hj. }
      rewrite (Hfiles j []) in Hj by (by apply lookup_replicate_2).
      injection Hj as <-. cbn [app]. unfold Corpus.share.
      rewrite <- (numbered_lines corpus 0) at 2.
      apply (fmap_sublist snd), sublist_filter.
    + unfold Corpus.split_corpus in E. replace (Z.to_nat num_processes) with 0%nat in E by lia.
      destruct corpus as [|line corpus]; cbn in E; [by injection E as <-|].
      destruct (num_processes =? 0); [done|].
      by destruct (Corpus.position _ _) eqn:Ep.
Qed.

Lemma split_corpus_conserves_witness :
  exists files,
    Corpus.split_corpus ["a"; Corpus.newline; "b"; "c"; Corpus.newline; "d"] 3 =
      Corpus.Ok files /\
    concat files ≡ₚ ["a"; Corpus.newline; "b"; "c"; Corpus.newline; "d"].
Proof.
  eexists. split; [vm_compute; reflexivity|].
  eapply (split_corpus_conserves
            ["a"; Corpus.newline; "b"; "c"; Corpus.newline; "d"] 3).
  vm_compute. reflexivity.
Defined.

(** X17. [split_corpus] succeeds exactly when the corpus is empty or
    [num_processes >= 1]. On a corpus with a line it raises
    [ZeroDivisionError] for zero processes and [IndexError] for a negative
    number; on an empty corpus it writes [num_processes] empty files. *)
Theorem split_corpus_errors (corpus : list string) (num_processes : Z) :
  ((exists files, Corpus.split_corpus corpus num_processes = Corpus.Ok files) <->
   corpus = [] \/ 0 < num_processes) /\
  (corpus <> [] -> num_processes = 0 ->
   Corpus.split_corpus corpus num_processes = Corpus.Error Corpus.ZeroDivisionError) /\
  (corpus <> [] -> num_processes < 0 ->
   Corpus.split_corpus corpus num_processes = Corpus.Error Corpus.IndexError) /\
  Corpus.split_corpus [] num_processes =
    Corpus.Ok (replicate (Z.to_nat num_processes) []).
Proof.
  assert (corpus <> [] -> num_processes = 0 ->
          Corpus.split_corpus corpus num_processes =
            Corpus.Error Corpus.ZeroDivisionError) as Hzero.
  { intros Hne ->. by destruct corpus. }
  assert (corpus <> [] -> num_processes < 0 ->
          Corpus.split_corpus corpus num_processes =
            Corpus.Error Corpus.IndexError) as Hneg.
  { intros Hne Hn. destruct corpus as [|line corpus]; [done|].
    unfold Corpus.split_corpus. replace (Z.to_nat num_processes) with 0%nat by lia.
    cbn. destruct (Z.eqb_spec num_processes 0); [lia|].
    unfold Corpus.position. change (len (@nil (list string))) with 0.
    pose proof (Z.mod_neg_bound 0 num_processes Hn).
    destruct (Z.leb_spec 0 (0 mod num_processes)), (Z.ltb_spec (0 mod num_processes) 0);
      cbn; try done; try lia;
      destruct (Z.leb_spec (- 0) (0 mod num_processes)); cbn; try done; lia. }
  split; [|by repeat split].
  split.
  - intros [files E]. destruct corpus as [|line corpus]; [by left|]. right.
    destruct (Z.lt_trichotomy num_processes 0) as [Hn|[Hn|Hn]]; [| |done].
    + rewrite Hneg in E; done.
    + rewrite Hzero in E; done.
  - intros [->|Hn]; [by eexists|].
    destruct (split_lines_shares num_processes corpus Hn 0
                (replicate (Z.to_nat num_processes) []))
      as (files & E & _); [by rewrite length_replicate|]. by exists files.
Qed.

(** X18. With one process the split is the identity: the single file is
    the corpus, line for line. *)
Theorem split_corpus_single (corpus : list string) :
  Corpus.split_corpus corpus 1 = Corpus.Ok [corpus].
Proof.
  destruct (split_lines_shares 1 corpus ltac:(lia) 0 (replicate (Z.to_nat 1) []))
    as (files & E & Hlen & Hfiles); [done|].
  unfold Corpus.split_corpus. rewrite E. f_equal.
  pose proof (Hfiles 0%nat [] eq_refl) as H0. cbn [app] in H0.
  destruct files as [|f [|f' files]]; try discriminate Hlen.
  cbn in H0. injection H0 as ->. f_equal.
  unfold Corpus.share. rewrite <- (numbered_lines corpus 0) at 2. f_equal.
  generalize (Corpus.numbered corpus 0). intros l.
  induction l as [|[d line] l IH]; [done|].
  rewrite filter_cons. cbn [fst]. rewrite Z.mod_1_r.
  destruct (decide (0 = 0)); [by rewrite IH | done].
Qed.

(** ** Emitted examples have content *)

Lemma tokenize_add_line (line : string) :
  tokenize (replace "010" " " (strip line)) = tokenize line.
Proof.
  unfold tokenize. rewrite split_strip. unfold split.
  by rewrite split_go_replace_newline.
Qed.

(** The first segment starts with the first token of the pending
    sentences. *)
Lemma spec_distribute_head {G : Type} `{RandomSource G}
    (target : Z) sentences first second (g : G) f' s' g' :
  spec_distribute target sentences first second g f' s' g' ->
  head f' = head (first ++ concat sentences).
Proof.
  induction 1 as [|sentence rest first second g g1 f' s' g' _ _ IH
                  |sentence rest first second g g1 f' s' g' Hp _ IH].
  - by rewrite app_nil_r.
  - rewrite IH. simpl. by rewrite <- app_assoc.
  - rewrite IH. simpl.
    assert (first <> []) as Hne by (inversion Hp; by subst).
    by destruct first.
Qed.

(** An example shows its two segments. *)
Lemma assembled_inj (cls sep pad max_length : Z) (f1 s1 f2 s2 : list Z) :
  assembled cls sep pad max_length f1 s1 = assembled cls sep pad max_length f2 s2 ->
  f1 = f2 /\ s1 = s2.
Proof.
  intros E.
  pose proof (f_equal (fun ex => sum (input_mask ex)) E) as Hmask.
  pose proof (f_equal (fun ex => sum (segment_ids ex)) E) as Hseg.
  pose proof (f_equal input_ids E) as Hids.
  unfold assembled in Hmask, Hseg, Hids. cbn [input_mask segment_ids input_ids] in *.
  rewrite !sum_app, !sum_times, !len_unpadded_ids in Hmask.
  rewrite !sum_app, !sum_times in Hseg.
  pose proof (len_nonneg f1). pose proof (len_nonneg f2).
  pose proof (len_nonneg s1). pose proof (len_nonneg s2).
  assert (forall s : list Z,
            sum (if nonempty s then times 1 (len s + 1) else []) =
            if nonempty s then len s + 1 else 0) as Hones.
  { intros s. destruct (nonempty s); [|done]. rewrite sum_times.
    pose proof (len_nonneg s). lia. }
  rewrite !Hones in Hseg.
  assert (length f1 = length f2) as Hlen.
  { unfold len in *. destruct (nonempty s1), (nonempty s2); lia. }
  unfold unpadded_ids in Hids. rewrite <- !app_assoc in Hids.
  injection Hids as Hids.
  apply app_inj_1 in Hids as [-> Hids]; [|done]. split; [done|].
  injection Hids as Hids.
  clear H1 H2.
  destruct s1 as [|x1 s1], s2 as [|x2 s2]; cbn [nonempty] in *; try done;
    rewrite ?len_cons in Hseg;
    pose proof (len_nonneg s1); pose proof (len_nonneg s2); try lia.
  rewrite <- !app_assoc in Hids.
  apply app_inj_1 in Hids as [Hs _]; [done|].
  unfold len in Hseg. cbn [length]. lia.
Qed.

(** C9 (as the code has it). With [max_length >= 5], an example that
    [add_line] returns in a state the builder can be in, for a line of text
    or for the empty line of the final flush, has a first segment that is
    not empty: the example is the one assembled from a first segment that
    starts with the id of the first pending token, and a second segment;
    both hold ids of pending tokens, in their order. So its [input_ids]
    start with [[CLS]], that id, the rest of the first segment and
    [[SEP]], and its mask sums to at least 3. *)
Theorem emitted_example_has_content {G : Type} `{RandomSource G}
    (tokenizer : Tokenizer) (max_length : Z) (st : BState G)
    (line : string) (ex : tf_example) (st' : BState G) :
  5 <= max_length ->
  reachable tokenizer max_length st ->
  add_line line st = (Ret (Some ex), st') ->
  exists cls sep pad tok first second,
    vocab tokenizer !! "[CLS]" = Some cls /\
    vocab tokenizer !! "[SEP]" = Some sep /\
    vocab tokenizer !! "[PAD]" = Some pad /\
    head (pending_ids line (fst st)) = Some tok /\
    tok :: first `sublist_of` pending_ids line (fst st) /\
    second `sublist_of` pending_ids line (fst st) /\
    ex = assembled cls sep pad max_length (tok :: first) second /\
    [cls; tok] ++ first ++ [sep] `prefix_of` input_ids ex /\
    3 <= sum (input_mask ex).
Proof.
  intros Hmax Hreach Hadd.
  destruct (reachable_inv _ _ _ Hreach) as (Hp & Hm & Htk & Htg).
  destruct st as [b g]. cbn [fst] in *. specialize (Htg Hmax).
  rewrite add_line_eq in Hadd. cbn zeta in Hadd.
  assert (forall b1, _max_length b1 = max_length -> _tokenizer b1 = tokenizer ->
            0 < sum (map len (_current_sentences b1)) ->
            concat (_current_sentences b1) = pending_ids line b ->
            (example ← _create_example; mret (Some example)) (b1, g) =
              (Ret (Some ex), st') ->
            exists cls sep pad tok first second,
              vocab tokenizer !! "[CLS]" = Some cls /\
              vocab tokenizer !! "[SEP]" = Some sep /\
              vocab tokenizer !! "[PAD]" = Some pad /\
              head (pending_ids line b) = Some tok /\
              tok :: first `sublist_of` pending_ids line b /\
              second `sublist_of` pending_ids line b /\
              ex = assembled cls sep pad max_length (tok :: first) second /\
              [cls; tok] ++ first ++ [sep] `prefix_of` input_ids ex /\
              3 <= sum (input_mask ex)) as Hcreate.
  { intros b1 Hm1 Htk1 Hsum Hpend Hc.
    apply create_some_inv in Hc as ([ex0|e] & Hc & Hr); [|done].
    injection Hr as <-. destruct st' as [b' g'].
    apply create_example_inv in Hc as (_ & _ & _ & _ & _ & Hex).
    destruct (Hex ex eq_refl)
      as (f & s & g0 & g1 & cls & sep & pad & Hd & Hcls & Hsep & Hpad & ->).
    pose proof (spec_distribute_head _ _ _ _ _ _ _ _ Hd) as Hhead.
    apply spec_distribute_conserves in Hd as (f1 & s1 & -> & -> & Hf & Hs & _).
    cbn [app] in *. rewrite Hm1, Htk1, Hpend in *. rewrite <- len_concat, Hpend in Hsum.
    set (F := fst (truncate max_length f1 s1)).
    set (S2 := snd (truncate max_length f1 s1)).
    assert (F = take (Z.to_nat (max_length - 2)) f1) as EF
      by (apply slice_to_nonneg; lia).
    assert (S2 `sublist_of` pending_ids line b) as HS2.
    { unfold S2, truncate. cbn [snd]. rewrite slice_to_nonneg by lia.
      etrans; [apply sublist_take | done]. }
    assert (F `sublist_of` pending_ids line b) as HF.
    { rewrite EF. etrans; [apply sublist_take | done]. }
    destruct (pending_ids line b) as [|tok rest] eqn:Ep.
    { change (len (@nil Z)) with 0 in Hsum. lia. }
    assert (exists first, F = tok :: first) as [first EF'].
    { rewrite EF. destruct f1 as [|x f1]; [done|]. injection Hhead as ->.
      destruct (Z.to_nat (max_length - 2)) as [|n] eqn:En; [lia|]. cbn. eauto. }
    rewrite EF' in HF.
    exists cls, sep, pad, tok, first, S2.
    do 6 (split; [done|]). split; [by rewrite <- EF'|]. split.
    { exists ((if nonempty S2 then S2 ++ [sep] else []) ++
              times pad (max_length - len (unpadded_ids cls sep (tok :: first) S2))).
      unfold assembled, unpadded_ids. cbn [input_ids]. rewrite EF'.
      rewrite <- !app_assoc. cbn [app]. by rewrite <- !app_assoc. }
    unfold assembled. cbn [input_mask]. rewrite sum_app, !sum_times.
    rewrite len_unpadded_ids, EF', len_cons.
    pose proof (len_nonneg first). pose proof (len_nonneg S2).
    destruct (nonempty S2); lia. }
  pose proof (sum_len_nonneg (_current_sentences b)) as Hnn.
  unfold pending_invariant in Hp.
  destruct (negb _ && negb (_current_length b =? 0)) eqn:Hbranch.
  - apply andb_true_iff in Hbranch as [Hline Hz].
    apply negb_true_iff, Z.eqb_neq in Hz.
    apply Hcreate in Hadd; [done | done | done | lia |].
    unfold pending_ids. rewrite <- (tokenize_add_line line).
    destruct (replace "010" " " (strip line)); [|done].
    by rewrite app_nil_r.
  - destruct (Z.leb_spec (_target_length b)
                (_current_length b +
                 len (convert_tokens_to_ids (_tokenizer b)
                        (tokenize (replace "010" " " (strip line))))))
      as [Hle|Hgt]; [|done].
    apply Hcreate in Hadd; [done | done | done | |].
    + cbn. rewrite map_app, sum_app. simpl. lia.
    + cbn. unfold pending_ids. rewrite <- (tokenize_add_line line), concat_app.
      simpl. by rewrite app_nil_r.
Qed.

Lemma emitted_example_has_content_witness :
  5 <= 5 /\
  exists ex st',
    add_line "the cat sat the cat" (Demo.builder 5, [Demo.half; Demo.half]) =
      (Ret (Some ex), st') /\
    exists cls sep pad tok first second,
      vocab Demo.tokenizer !! "[CLS]" = Some cls /\
      vocab Demo.tokenizer !! "[SEP]" = Some sep /\
      vocab Demo.tokenizer !! "[PAD]" = Some pad /\
      head (pending_ids "the cat sat the cat" (Demo.builder 5)) = Some tok /\
      tok :: first `sublist_of` pending_ids "the cat sat the cat" (Demo.builder 5) /\
      second `sublist_of` pending_ids "the cat sat the cat" (Demo.builder 5) /\
      ex = assembled cls sep pad 5 (tok :: first) second /\
      [cls; tok] ++ first ++ [sep] `prefix_of` input_ids ex /\
      3 <= sum (input_mask ex).
Proof.
  split; [lia|].
  eexists _, _. split; [vm_compute; reflexivity|].
  eapply (emitted_example_has_content Demo.tokenizer 5
            (Demo.builder 5, [Demo.half; Demo.half]) "the cat sat the cat");
    [lia | apply reachable_init | vm_compute; reflexivity].
Defined.

(** C9 (as stated) fails on a text that spells a marker: a builder made
    with [max_length = 5] takes the line "[SEP]", whose one token gets the
    id of the marker, and the flush emits it. The example holds the ids of
    markers and padding only, and nothing stands between [[CLS]] and the
    first [[SEP]] id. *)
Lemma emitted_example_has_content_counterexample :
  exists b g ex st',
    add_line "[SEP]" (Demo.builder 5, [Demo.half; Demo.half]) = (Ret None, (b, g)) /\
    add_line "" (b, g) = (Ret (Some ex), st') /\
    vocab Demo.tokenizer !! "[CLS]" = Some 2 /\
    vocab Demo.tokenizer !! "[SEP]" = Some 3 /\
    vocab Demo.tokenizer !! "[PAD]" = Some 0 /\
    input_ids ex = [2; 3; 3; 0; 0].
Proof.
  eexists _, _, _, _. split; [vm_compute; reflexivity|].
  split; [vm_compute; reflexivity|]. repeat split; vm_compute; reflexivity.
Qed.
